(** * ultra-smart: the multi-runner comparison aggregation

    A shallow embedding of the aggregation logic of the analysis page
    (classes [BaseRunnerAnalysis] and [MutipleRunnerAnalysis], and
    [RunnerAnalyses] of [static/js/runner.js]): input validation, the
    per-runner summary table, the grouping of rest periods by aid station
    and the critical-segments ranking.

    Conventions of the embedding.
    - A JavaScript number is a rational ([Qc], canonical fractions, so that
      equality is Leibniz equality).  The first model of each function
      computes with exact rationals; the properties stated on it (who
      throws, how the rest periods are partitioned, how rows and cards are
      laid out) are those whose proofs never look at the value of a sum, a
      difference or a quotient.  Where such a value decides the result, the
      function is modelled again in [Module Double], whose operations round
      to the nearest IEEE binary64 number.  NaN and the infinities are not
      modelled.
    - An optional property is an [option]; [undefined] and [null] are both
      [None], except in the argument of the [RunnerAnalyses] constructor,
      whose destructuring defaults replace [undefined] only.
    - A statement that can raise a [TypeError] or [throw]s lives in the
      monad [js]: [Return v] or [Throw msg].
    - Markup and the DOM are not modelled: the containers are taken to
      exist, and a card or a table row is a constructor carrying the values
      that the template interpolates. *)

From Stdlib Require Import List String Ascii Bool Arith ZArith NArith.
From Stdlib Require Import QArith Qcanon Qcabs Lqa Lia Permutation Sorted FinFun.
From Stdlib Require Import Qround.
Import ListNotations.
Local Open Scope string_scope.
Local Open Scope list_scope.

(** ** JavaScript values and operators *)

Module Js.

Definition num := Qc.

(** A decimal literal [n/d]. *)
Definition dec (n : Z) (d : positive) : num := Q2Qc (n # d).

Definition of_nat (n : nat) : num := Q2Qc (inject_Z (Z.of_nat n)).

Definition eqb (x y : num) : bool :=
  match (x ?= y)%Qc with Eq => true | _ => false end.

Definition ltb (x y : num) : bool :=
  match (x ?= y)%Qc with Lt => true | _ => false end.

Definition leb (x y : num) : bool :=
  match (x ?= y)%Qc with Gt => false | _ => true end.

(** [x > y] *)
Definition gtb (x y : num) : bool := ltb y x.

(** [Math.abs] *)
Definition abs (x : num) : num := Qcabs x.

(** Truthiness of an optional number: [undefined] and [0] are falsy. *)
Definition truthy_num (o : option num) : bool :=
  match o with
  | Some x => negb (eqb x 0%Qc)
  | None => false
  end.

(** Truthiness of an optional string: [undefined] and [''] are falsy. *)
Definition truthy_str (o : option string) : bool :=
  match o with
  | Some s => negb (String.eqb s "")
  | None => false
  end.

(** [a || b] on optional numbers. *)
Definition or_num (a b : option num) : option num :=
  if truthy_num a then a else b.

(** [a || d] where [d] is a number literal. *)
Definition or_num_lit (a : option num) (d : num) : num :=
  match a with
  | Some x => if eqb x 0%Qc then d else x
  | None => d
  end.

(** [a || d] where [d] is a string literal. *)
Definition or_str_lit (a : option string) (d : string) : string :=
  match a with
  | Some s => if String.eqb s "" then d else s
  | None => d
  end.

(** Statements that may throw. *)
Inductive js (A : Type) : Type :=
| Return (a : A)
| Throw (msg : string).
Arguments Return {A} a.
Arguments Throw {A} msg.

Definition bind {A B : Type} (c : js A) (k : A -> js B) : js B :=
  match c with
  | Return a => k a
  | Throw msg => Throw msg
  end.

(** [xs.forEach(x => body)] where the body may throw and updates [acc]. *)
Fixpoint forEach {A S : Type} (body : S -> A -> js S) (xs : list A) (acc : S)
  : js S :=
  match xs with
  | [] => Return acc
  | x :: rest => bind (body acc x) (forEach body rest)
  end.

(** [Array.prototype.sort(cmp)]: the sort is stable; [cmp a b > 0] moves
    [a] behind [b], anything else keeps the two in their order. *)
Fixpoint insert {A : Type} (cmp : A -> A -> num) (x : A) (l : list A)
  : list A :=
  match l with
  | [] => [x]
  | y :: ys => if gtb (cmp x y) 0%Qc then y :: insert cmp x ys
               else x :: y :: ys
  end.

Definition sort {A : Type} (cmp : A -> A -> num) (l : list A) : list A :=
  fold_right (insert cmp) [] l.

(** [xs.slice(a)] and [xs.slice(0, b)] *)
Definition slice_to {A : Type} (b : nat) (l : list A) := firstn b l.
Definition slice_from {A : Type} (a : nat) (l : list A) := skipn a l.

End Js.

Import Js.
Notation "x <- c ;; k" := (Js.bind c (fun x => k))
  (at level 61, c at next level, right associativity).

(** ** Data received from the analytics backend *)

(** A detected rest period.  Only the properties that the aggregation reads
    are kept ([likely_reason] stands for the remaining, display-only ones). *)
Record RestPeriod := {
  mile : option num;
  start_mile : option num;
  nearby_aid_station : option string;
  confidence : option string;
  pace_during : option num;
  actual_pace : option num;
  likely_reason : option string
}.

(** [analysis.rest_periods] is either an array of rest periods or an object
    that bundles the array under its own [rest_periods] property. *)
Inductive RestData :=
| RestArray (items : list RestPeriod)
| RestBundle (rest_periods_of : option (list RestPeriod)).

Record Segment := {
  segment_name : string;
  difficulty_rating : option num;
  performance_score : option num
}.

Record FatigueAnalysis := {
  average_fatigue : option num;
  peak_fatigue_mile : option num
}.

Record CourseAnalysis := {
  strongest_terrain : option string;
  elevation_tolerance : option string;
  segment_analysis : option (list Segment)
}.

Record Analysis := {
  fatigue_analysis : option FatigueAnalysis;
  course_analysis : option CourseAnalysis;
  rest_periods : option RestData
}.

(** An entry of [runners.allRunners]. *)
Record Runner := {
  id : Z;
  first_name : string;
  last_name : string
}.

(** [this.analyses]: an object keyed by runner id. *)
Definition Analyses := list (Z * Analysis).

(** [this.analyses[runnerId]] *)
Fixpoint analysis_of (analyses : Analyses) (runnerId : Z) : option Analysis :=
  match analyses with
  | [] => None
  | (k, a) :: more => if Z.eqb k runnerId then Some a
                      else analysis_of more runnerId
  end.

(** [allRunners.find(r => r.id === runnerId)] *)
Definition find_runner (allRunners : list Runner) (runnerId : Z)
  : option Runner :=
  find (fun r => Z.eqb (id r) runnerId) allRunners.

(** ** Rest periods of several runners
    ([MutipleRunnerAnalysis.#updateRestPeriodsListMultiRunner]) *)

(** An element of [allRunnerRestPeriods]:
    [{...rest, runnerId: runnerId, runnerName: ...}]. *)
Record RunnerRest := {
  rest : RestPeriod;
  runnerId : Z;
  runnerName : string
}.

(** [rest.mile || rest.start_mile] *)
Definition mile_or_start (r : RestPeriod) : option num :=
  or_num (mile r) (start_mile r).

(** [rest.mile || rest.start_mile || 0] *)
Definition resolved_mile (r : RestPeriod) : num :=
  or_num_lit (mile_or_start r) 0%Qc.

Definition restMile (r : RunnerRest) : num := resolved_mile (rest r).

(** [rest.nearby_aid_station || 'Unknown'] *)
Definition restAidStation (r : RunnerRest) : string :=
  or_str_lit (nearby_aid_station (rest r)) "Unknown".

(** [analysis?.rest_periods?.rest_periods || analysis?.rest_periods || []],
    followed by [.filter(rest => rest.mile || rest.start_mile)].  A bundle
    without its array is itself the value of the [||] chain and has no
    [filter] method. *)
Definition allRestPeriods (analysis : option Analysis)
  : js (list RestPeriod) :=
  match analysis with
  | None => Return []
  | Some a =>
      match rest_periods a with
      | None => Return []
      | Some (RestArray items) => Return items
      | Some (RestBundle (Some items)) => Return items
      | Some (RestBundle None) =>
          Throw "TypeError: allRestPeriods.filter is not a function"
      end
  end.

Definition restPeriods (all : list RestPeriod) : list RestPeriod :=
  filter (fun r => truthy_num (mile_or_start r)) all.

(** `${runner.first_name} ${runner.last_name}` *)
Definition full_name (r : Runner) : string :=
  (first_name r ++ " " ++ last_name r)%string.

(** [restPeriods.forEach(rest => allRunnerRestPeriods.push({...}))]:
    [runner.first_name] is read once per kept rest period. *)
Definition tag_rests (runner : option Runner) (runnerId : Z)
  (rests : list RestPeriod) : js (list RunnerRest) :=
  match rests with
  | [] => Return []
  | _ :: _ =>
      match runner with
      | None =>
          Throw "TypeError: Cannot read properties of undefined (reading 'first_name')"
      | Some rn =>
          Return (map (fun r => {| rest := r; runnerId := runnerId;
                                   runnerName := full_name rn |}) rests)
      end
  end.

(** The first loop over [selectedRunners], which fills
    [allRunnerRestPeriods]. *)
Definition collect_step (analyses : Analyses) (allRunners : list Runner)
  (acc : list RunnerRest) (runnerId : Z) : js (list RunnerRest) :=
  all <- allRestPeriods (analysis_of analyses runnerId) ;;
  tagged <- tag_rests (find_runner allRunners runnerId) runnerId
              (restPeriods all) ;;
  Return (acc ++ tagged).

Definition allRunnerRestPeriods (analyses : Analyses) (allRunners : list Runner)
  (selectedRunners : list Z) : js (list RunnerRest) :=
  forEach (collect_step analyses allRunners) selectedRunners [].

(** [allRunnerRestPeriods.sort((a, b) => aMile - bMile)] *)
Definition by_mile (a b : RunnerRest) : num := (restMile a - restMile b)%Qc.

Definition sorted_rests (all : list RunnerRest) : list RunnerRest :=
  Js.sort by_mile all.

Definition MILE_VARIANCE_THRESHOLD : num := dec 5 1.

(** [group.reduce((sum, r) => sum + (r.mile || r.start_mile || 0), 0)
     / group.length] *)
Definition groupAvgMile (group : list RunnerRest) : num :=
  (fold_left (fun sum r => sum + restMile r) group 0
   / of_nat (List.length group))%Qc.

(** [group[0].nearby_aid_station || 'Unknown'].  Groups are never empty
    (lemma [grouped_uniform]); the model declines an empty one. *)
Definition groupAidStation (group : list RunnerRest) : option string :=
  match group with
  | [] => None
  | first :: _ => Some (restAidStation first)
  end.

(** The condition under which [rest] is pushed onto [group]. *)
Definition joins (r : RunnerRest) (group : list RunnerRest) : bool :=
  match groupAidStation group with
  | None => false
  | Some station =>
      String.eqb (restAidStation r) station
      && leb (abs (restMile r - groupAvgMile group)%Qc) MILE_VARIANCE_THRESHOLD
  end.

(** The [for (let group of restGroups)] scan: [Some] of the updated groups
    when [addedToGroup] ends up true. *)
Fixpoint addToGroup (r : RunnerRest) (groups : list (list RunnerRest))
  : option (list (list RunnerRest)) :=
  match groups with
  | [] => None
  | group :: more =>
      if joins r group then Some ((group ++ [r]) :: more)
      else option_map (cons group) (addToGroup r more)
  end.

Definition group_step (groups : list (list RunnerRest)) (r : RunnerRest)
  : list (list RunnerRest) :=
  match addToGroup r groups with
  | Some groups' => groups'
  | None => groups ++ [[r]]
  end.

(** [restGroups] after the grouping loop, before it is sorted. *)
Definition grouped (sorted : list RunnerRest) : list (list RunnerRest) :=
  fold_left group_step sorted [].

(** [restGroups.sort((a, b) => aAvgMile - bAvgMile)] *)
Definition by_avg_mile (a b : list RunnerRest) : num :=
  (groupAvgMile a - groupAvgMile b)%Qc.

Definition restGroups (all : list RunnerRest) : list (list RunnerRest) :=
  Js.sort by_avg_mile (grouped (sorted_rests all)).

(** Confidence scoring: high=3, medium=2, low=1, undefined=0 *)
Definition getConfidenceScore (conf : option string) : Z :=
  match conf with
  | Some c =>
      if String.eqb c "high" then 3
      else if String.eqb c "medium" then 2
      else if String.eqb c "low" then 1
      else 0
  | None => 0
  end.

(** [r.pace_during || r.actual_pace || 0] *)
Definition restPace (r : RunnerRest) : num :=
  or_num_lit (or_num (pace_during (rest r)) (actual_pace (rest r))) 0%Qc.

(** [Math.abs((r.mile || r.start_mile || 0) - avgMile)] *)
Definition mileDiff (avgMile : num) (r : RunnerRest) : num :=
  abs (restMile r - avgMile)%Qc.

(** The callback of [runnerRests.reduce((best, current) => ...)]. *)
Definition pickBest (avgMile : num) (best current : RunnerRest) : RunnerRest :=
  let bestConf := getConfidenceScore (confidence (rest best)) in
  let currentConf := getConfidenceScore (confidence (rest current)) in
  if (currentConf >? bestConf)%Z then current
  else if (bestConf >? currentConf)%Z then best
  else
    let bestPace := restPace best in
    let currentPace := restPace current in
    if gtb currentPace bestPace then current
    else if gtb bestPace currentPace then best
    else
      let bestDiff := mileDiff avgMile best in
      let currentDiff := mileDiff avgMile current in
      if ltb currentDiff bestDiff then current else best.

(** [group.filter(r => r.runnerId == runnerId)] *)
Definition runnerRests (group : list RunnerRest) (selected : Z)
  : list RunnerRest :=
  filter (fun r => Z.eqb (runnerId r) selected) group.

(** [runnerRests.length > 0 ? runnerRests.reduce(...) : null]; [reduce]
    without an initial value starts from the first element. *)
Definition runnerRest (avgMile : num) (group : list RunnerRest) (selected : Z)
  : option RunnerRest :=
  match runnerRests group selected with
  | [] => None
  | first :: more => Some (fold_left (pickBest avgMile) more first)
  end.

(** [group.find(r => r.nearby_aid_station)?.nearby_aid_station || ''] *)
Definition nearbyAidStation (group : list RunnerRest) : string :=
  match find (fun r => truthy_str (nearby_aid_station (rest r))) group with
  | Some r => or_str_lit (nearby_aid_station (rest r)) ""
  | None => ""
  end.

(** What [createRestCard] and [createPlaceholderCard] interpolate. *)
Inductive Card :=
| RestCard (shown : RunnerRest) (colClass : string)
| PlaceholderCard (avgMile : num) (station : string) (colClass : string).

Definition createRestCard (r : RunnerRest) (colClass : string) : Card :=
  RestCard r colClass.

Definition createPlaceholderCard (avgMile : num) (station : string)
  (colClass : string) : Card :=
  PlaceholderCard avgMile station colClass.

(** One [<div class="row rest-group">]: a card per selected runner. *)
Record GroupRow := {
  groupIndex : nat;
  hidden : bool;
  cards : list Card
}.

Definition colClass_of (selectedRunners : list Z) : string :=
  match List.length selectedRunners with
  | 1%nat => "12"
  | 2%nat => "6"
  | _ => "4"
  end.

(** The body of [selectedRunners.forEach(runnerId => ...)] inside a group. *)
Definition card_for (group : list RunnerRest) (colClass : string)
  (selected : Z) : Card :=
  let avgMile := groupAvgMile group in
  match runnerRest avgMile group selected with
  | Some r => createRestCard r colClass
  | None => createPlaceholderCard avgMile (nearbyAidStation group) colClass
  end.

Definition group_row (selectedRunners : list Z) (is_hidden : bool)
  (index : nat) (group : list RunnerRest) : GroupRow :=
  {| groupIndex := index;
     hidden := is_hidden;
     cards := map (card_for group (colClass_of selectedRunners))
                selectedRunners |}.

(** [xs.forEach((x, i) => ...)] with the index counted from [start]. *)
Fixpoint mapi_from {A B : Type} (f : nat -> A -> B) (start : nat) (l : list A)
  : list B :=
  match l with
  | [] => []
  | x :: xs => f start x :: mapi_from f (S start) xs
  end.

(** The rows of the first three groups, then those of the hidden ones
    ([actualGroupIndex = visibleGroups + groupIndex]). *)
Definition group_rows (selectedRunners : list Z)
  (groups : list (list RunnerRest)) : list GroupRow :=
  let visibleGroups := Nat.min 3 (List.length groups) in
  mapi_from (group_row selectedRunners false) 0
    (slice_to visibleGroups groups)
  ++ mapi_from (group_row selectedRunners true) visibleGroups
       (slice_from visibleGroups groups).

(** The runner headers: [runner.first_name] is read for every selected
    runner. *)
Definition header_step (allRunners : list Runner) (acc : list string)
  (selected : Z) : js (list string) :=
  match find_runner allRunners selected with
  | None =>
      Throw "TypeError: Cannot read properties of undefined (reading 'first_name')"
  | Some rn => Return (acc ++ [full_name rn])
  end.

Definition runner_headers (allRunners : list Runner) (selectedRunners : list Z)
  : js (list string) :=
  forEach (header_step allRunners) selectedRunners [].

(** What ends up in the [restPeriodsList] container. *)
Inductive RestView :=
| NoAnalysisData
| NoRunnersSelected
| RestCards (headers : list string) (rows : list GroupRow).

Definition updateRestPeriodsListMultiRunner (analyses : Analyses)
  (allRunners : list Runner) (selectedRunners : list Z) : js RestView :=
  match analyses with
  | [] => Return NoAnalysisData
  | _ :: _ =>
      match selectedRunners with
      | [] => Return NoRunnersSelected
      | _ :: _ =>
          all <- allRunnerRestPeriods analyses allRunners selectedRunners ;;
          let groups := restGroups all in
          headers <- runner_headers allRunners selectedRunners ;;
          Return (RestCards headers (group_rows selectedRunners groups))
      end
  end.

(** ** Input validation *)

(** The properties that validation reads from its [analyses] argument. *)
Record StatusObject := {
  status : option string;
  error : option string
}.

(** The [runners] argument of [init]. *)
Record RunnersArg := {
  selectedRunners : option (list Z);
  allRunners : list Runner
}.

Definition is_failed (o : StatusObject) : bool :=
  match status o with
  | Some s => String.eqb s "failed"
  | None => false
  end.

Module BaseRunnerAnalysis.

(** [#validateInputs(analyses, runners)].  [!runners.selectedRunners]
    is true for [undefined] only: an array, even an empty one, is truthy. *)
Definition validateInputs (analyses : StatusObject) (runners : RunnersArg)
  : js unit :=
  match selectedRunners runners with
  | None => Throw "Missing runner data: [object Object]"
  | Some _ =>
      if is_failed analyses
      then Throw (or_str_lit (error analyses) "Analysis failed")
      else Return tt
  end.

End BaseRunnerAnalysis.

Module RunnerAnalyses.

(** [#validateInputs(analyses)] of [static/js/runner.js]. *)
Definition validateInputs (analyses : StatusObject) : js unit :=
  if is_failed analyses
  then Throw (or_str_lit (error analyses) "Analysis failed")
  else Return tt.

(** The payload that the constructor destructures, with the defaults
    [{status = "", race_id = 0, runner_splits = {}, analyses = {}} = {}].
    A default replaces [undefined] only: a property that is [null] stays
    [null], and [null] has no properties to read or to destructure. *)
Inductive Optional (A : Type) : Type :=
| Undefined
| Null
| Given (a : A).
Arguments Undefined {A}.
Arguments Null {A}.
Arguments Given {A} a.

Record Payload := {
  payload_status : Optional string;
  payload_analyses : Optional StatusObject
}.

(** The body of the constructor: it validates the nested [analyses] object
    and keeps [status]; the instance has no [error] property. *)
Definition construct (payload : Payload) : js StatusObject :=
  _ <- match payload_analyses payload with
       | Undefined => validateInputs {| status := None; error := None |}
       | Null =>
           Throw "TypeError: Cannot read properties of null (reading 'status')"
       | Given analyses => validateInputs analyses
       end ;;
  Return {| status := match payload_status payload with
                      | Undefined => Some ""
                      | Null => None
                      | Given s => Some s
                      end;
            error := None |}.

Definition new (payload : Optional Payload) : js StatusObject :=
  match payload with
  | Undefined =>
      construct {| payload_status := Undefined;
                   payload_analyses := Undefined |}
  | Null => Throw "TypeError: Cannot destructure 'null' as it is null"
  | Given p => construct p
  end.

End RunnerAnalyses.

(** ** The summary table ([MutipleRunnerAnalysis.#updateMultiRunnerTable]) *)

(** What a table cell interpolates: a string, a number, or the string that
    [x.toFixed(digits)] returns (never empty, so always truthy). *)
Inductive Cell :=
| Text (s : string)
| Number (x : num)
| Fixed (digits : nat) (x : num).

Inductive TableRow :=
| NotAvailable (selected : Z)
| SummaryRow (runner_name : string) (avgFatigue peakMile restCount : Cell)
    (strongestTerrain elevationTolerance : string).

(** [analysis.fatigue_analysis?.average_fatigue?.toFixed(2) || 'N/A'] *)
Definition avgFatigue_of (a : Analysis) : Cell :=
  match fatigue_analysis a with
  | Some f =>
      match average_fatigue f with
      | Some x => Fixed 2 x
      | None => Text "N/A"
      end
  | None => Text "N/A"
  end.

(** [analysis.fatigue_analysis?.peak_fatigue_mile || 'N/A'] *)
Definition peakMile_of (a : Analysis) : Cell :=
  match fatigue_analysis a with
  | Some f =>
      match peak_fatigue_mile f with
      | Some x => if eqb x 0%Qc then Text "N/A" else Number x
      | None => Text "N/A"
      end
  | None => Text "N/A"
  end.

(** [analysis.rest_periods?.rest_periods?.length] *)
Definition nested_length (a : Analysis) : option num :=
  match rest_periods a with
  | Some (RestBundle (Some items)) => Some (of_nat (List.length items))
  | _ => None
  end.

(** [analysis.rest_periods?.length] *)
Definition flat_length (a : Analysis) : option num :=
  match rest_periods a with
  | Some (RestArray items) => Some (of_nat (List.length items))
  | _ => None
  end.

(** [nested || flat || 0] *)
Definition restCount_of (a : Analysis) : num :=
  or_num_lit (or_num (nested_length a) (flat_length a)) 0%Qc.

Definition summary_row (analyses : Analyses) (runners : list Runner)
  (selected : Z) : TableRow :=
  match find_runner runners selected, analysis_of analyses selected with
  | Some runner, Some analysis =>
      SummaryRow (full_name runner)
        (avgFatigue_of analysis)
        (peakMile_of analysis)
        (Number (restCount_of analysis))
        (or_str_lit (match course_analysis analysis with
                     | Some c => strongest_terrain c
                     | None => None
                     end) "Unknown")
        (or_str_lit (match course_analysis analysis with
                     | Some c => elevation_tolerance c
                     | None => None
                     end) "Unknown")
  | _, _ => NotAvailable selected
  end.

Definition updateMultiRunnerTable (analyses : Analyses) (runners : list Runner)
  (selected : list Z) : list TableRow :=
  map (summary_row analyses runners) selected.

(** ** Critical segments
    ([MutipleRunnerAnalysis.#updateRecommendationsMultiRunner]) *)

Module Object.

(** The value of a decimal digit. *)
Definition digit_of (c : ascii) : option N :=
  let n := N_of_ascii c in
  if (48 <=? n)%N && (n <=? 57)%N then Some (n - 48)%N else None.

Fixpoint digits_value (s : string) (acc : N) : option N :=
  match s with
  | EmptyString => Some acc
  | String c more =>
      match digit_of c with
      | Some d => digits_value more (10 * acc + d)%N
      | None => None
      end
  end.

(** A property key is an array index when it is the canonical decimal
    form of an integer below [2^32 - 1]. *)
Definition array_index (key : string) : option N :=
  match key with
  | EmptyString => None
  | String c more =>
      if Ascii.eqb c "0" && negb (String.eqb more "") then None
      else
        match digits_value key 0 with
        | Some n => if (n <? 4294967295)%N then Some n else None
        | None => None
        end
  end.

Definition is_index {V : Type} (e : string * V) : bool :=
  match array_index (fst e) with Some _ => true | None => false end.

Definition index_of {V : Type} (e : string * V) : Z :=
  match array_index (fst e) with Some n => Z.of_N n | None => 0 end.

Definition by_index {V : Type} (a b : string * V) : num :=
  Q2Qc (inject_Z (index_of a - index_of b)).

(** [Object.entries(o)] for an object whose own string keys were created
    in the order of the list [o]: array-index keys come first, in
    ascending numeric order, then the other keys in creation order. *)
Definition entries {V : Type} (o : list (string * V)) : list (string * V) :=
  Js.sort by_index (filter is_index o)
  ++ filter (fun e => negb (is_index e)) o.

(** The property names that a plain object ([{}]) inherits from
    [Object.prototype]; reading one of them yields a truthy value. *)
Definition prototype_keys : list string :=
  [ "constructor"; "__defineGetter__"; "__defineSetter__";
    "hasOwnProperty"; "__lookupGetter__"; "__lookupSetter__";
    "isPrototypeOf"; "propertyIsEnumerable"; "toString"; "valueOf";
    "__proto__"; "toLocaleString" ].

Definition inherited (key : string) : bool :=
  existsb (String.eqb key) prototype_keys.

(** The own property [o[key]]. *)
Fixpoint own {V : Type} (o : list (string * V)) (key : string) : option V :=
  match o with
  | [] => None
  | (k, v) :: more => if String.eqb k key then Some v else own more key
  end.

End Object.

(** An element of [segmentPerformances]. *)
Record Perf := {
  perf_name : string;
  perf_difficulty : num;
  perf_performance : num;
  perf_runnerId : Z
}.

(** A value of [segmentStats]. *)
Record Stats := {
  difficulties : list num;
  performances : list num;
  stats_count : nat
}.

(** An element of [criticalSegments]. *)
Record CriticalSegment := {
  name : string;
  avgDifficulty : num;
  avgPerformance : num;
  count : nat
}.

(** The segments pushed for one selected runner. *)
Definition runner_perfs (analyses : Analyses) (selected : Z) : list Perf :=
  match analysis_of analyses selected with
  | Some a =>
      match course_analysis a with
      | Some c =>
          match segment_analysis c with
          | Some segments =>
              map (fun s =>
                     {| perf_name := segment_name s;
                        perf_difficulty := or_num_lit (difficulty_rating s) 0%Qc;
                        perf_performance := or_num_lit (performance_score s) 0%Qc;
                        perf_runnerId := selected |}) segments
          | None => []
          end
      | None => []
      end
  | None => []
  end.

Definition segmentPerformances (analyses : Analyses) (selected : list Z)
  : list Perf :=
  flat_map (runner_perfs analyses) selected.

(** [segmentStats[name].difficulties.push(..)], [.performances.push(..)]
    and [.count++] on the own property [name]. *)
Fixpoint record_perf (perf : Perf) (segmentStats : list (string * Stats))
  : list (string * Stats) :=
  match segmentStats with
  | [] => []
  | (k, st) :: more =>
      if String.eqb k (perf_name perf)
      then (k, {| difficulties := difficulties st ++ [perf_difficulty perf];
                  performances := performances st ++ [perf_performance perf];
                  stats_count := S (stats_count st) |}) :: more
      else (k, st) :: record_perf perf more
  end.

Definition empty_stats : Stats :=
  {| difficulties := []; performances := []; stats_count := 0 |}.

(** The body of [segmentPerformances.forEach(perf => ...)].  When the name
    is not an own property but is inherited from [Object.prototype],
    [!segmentStats[perf.name]] is false, nothing is created, and
    [.difficulties] of the inherited value is [undefined]. *)
Definition stats_step (segmentStats : list (string * Stats)) (perf : Perf)
  : js (list (string * Stats)) :=
  match Object.own segmentStats (perf_name perf) with
  | Some _ => Return (record_perf perf segmentStats)
  | None =>
      if Object.inherited (perf_name perf)
      then Throw "TypeError: Cannot read properties of undefined (reading 'push')"
      else Return (record_perf perf
                     (segmentStats ++ [(perf_name perf, empty_stats)]))
  end.

Definition segmentStats (perfs : list Perf) : js (list (string * Stats)) :=
  forEach stats_step perfs [].

(** [xs.reduce((a, b) => a + b, 0)] *)
Definition sum (xs : list num) : num := fold_left Qcplus xs 0%Qc.

(** The [.map(([name, stats]) => ...)] step. *)
Definition summarize (entry : string * Stats) : CriticalSegment :=
  let (entry_name, stats) := entry in
  {| name := entry_name;
     avgDifficulty := (sum (difficulties stats) / of_nat (stats_count stats))%Qc;
     avgPerformance := (sum (performances stats) / of_nat (stats_count stats))%Qc;
     count := stats_count stats |}.

(** [(a, b) => b.avgDifficulty - a.avgDifficulty] *)
Definition by_difficulty_desc (a b : CriticalSegment) : num :=
  (avgDifficulty b - avgDifficulty a)%Qc.

Definition criticalSegments (stats : list (string * Stats))
  : list CriticalSegment :=
  slice_to 5 (Js.sort by_difficulty_desc (map summarize (Object.entries stats))).

Definition updateRecommendationsMultiRunner (analyses : Analyses)
  (selected : list Z) : js (list CriticalSegment) :=
  stats <- segmentStats (segmentPerformances analyses selected) ;;
  Return (criticalSegments stats).

(** ** Vocabulary of the statements *)

(** [a] may stand before [b] in an array sorted by [key], ascending. *)
Definition key_le {A : Type} (key : A -> num) (a b : A) : Prop :=
  (key a <= key b)%Qc.

(** The rest periods of a selected runner as the backend sent them. *)
Definition raw_rests (analyses : Analyses) (selected : Z) : list RestPeriod :=
  match allRestPeriods (analysis_of analyses selected) with
  | Return items => items
  | Throw _ => []
  end.

Definition runner_name (allRunners : list Runner) (selected : Z) : string :=
  match find_runner allRunners selected with
  | Some rn => full_name rn
  | None => ""
  end.

(** The (runner, rest period) pairs of the selected runners, runner by
    runner, restricted to rest periods with a truthy [mile] or
    [start_mile]. *)
Definition flattened (analyses : Analyses) (allRunners : list Runner)
  (selected : list Z) : list RunnerRest :=
  flat_map (fun i =>
              map (fun r => {| rest := r; runnerId := i;
                               runnerName := runner_name allRunners i |})
                (restPeriods (raw_rests analyses i)))
    selected.

(** Every selected runner is listed in [allRunners] and none has a rest
    bundle that lacks its array. *)
Definition inputs_ok (analyses : Analyses) (allRunners : list Runner)
  (selected : list Z) : bool :=
  forallb (fun i =>
             match find_runner allRunners i,
                   allRestPeriods (analysis_of analyses i) with
             | Some _, Return _ => true
             | _, _ => false
             end) selected.




(** A group is uniform when it is non-empty and each member carries the aid
    station of the first one. *)
Definition uniform (group : list RunnerRest) : Prop :=
  group <> []
  /\ forall x, In x group -> groupAidStation group = Some (restAidStation x).

(** The statement [c] throws. *)
Definition throws {A : Type} (c : js A) : Prop := exists msg, c = Throw msg.


(** [a] may stand before [b] in an array sorted by [key], descending. *)
Definition key_ge {A : Type} (key : A -> num) (a b : A) : Prop :=
  (key b <= key a)%Qc.

(** The distinct names of a list, in the order of their first occurrence. *)
Definition first_seen (names : list string) : list string :=
  fold_left (fun seen n => if existsb (String.eqb n) seen then seen
                           else seen ++ [n]) names [].

(** The elements of [segmentPerformances] that carry a given name. *)
Definition perfs_named (perfs : list Perf) (n : string) : list Perf :=
  filter (fun p => String.eqb (perf_name p) n) perfs.

(** The ratings, scores and number of the entries named [n]. *)
Definition stats_of (perfs : list Perf) (n : string) : Stats :=
  {| difficulties := map perf_difficulty (perfs_named perfs n);
     performances := map perf_performance (perfs_named perfs n);
     stats_count := List.length (perfs_named perfs n) |}.

(** One property per distinct name, created in first-seen order. *)
Definition stats_by_name (perfs : list Perf) : list (string * Stats) :=
  map (fun n => (n, stats_of perfs n)) (first_seen (map perf_name perfs)).

(** What the two [push]es and [count++] make of a value of [segmentStats]. *)
Definition pushed (p : Perf) (st : Stats) : Stats :=
  {| difficulties := difficulties st ++ [perf_difficulty p];
     performances := performances st ++ [perf_performance p];
     stats_count := S (stats_count st) |}.

(** The candidate computed for the name [n]. *)
Definition summary_of (perfs : list Perf) (n : string) : CriticalSegment :=
  summarize (n, stats_of perfs n).

(** No segment name is a property inherited from [Object.prototype]. *)
Definition plain_names (perfs : list Perf) : bool :=
  forallb (fun p => negb (Object.inherited (perf_name p))) perfs.

(** ** A sample comparison *)

Module Sample.

Definition rest_at (m : num) (station confidence_of : string)
  (pace : option num) : RestPeriod :=
  {| mile := Some m; start_mile := None;
     nearby_aid_station := Some station;
     confidence := Some confidence_of;
     pace_during := pace; actual_pace := None;
     likely_reason := None |}.

Definition crown_a := rest_at (dec 10 1) "Crown King" "high" None.
Definition crown_b := rest_at (dec 14 1) "Crown King" "high" None.
Definition whiskey_x :=
  rest_at (dec 773 10) "Whiskey Row" "high" (Some (dec 25 1)).
Definition whiskey_y := rest_at (dec 79 1) "Whiskey Row" "medium" None.
Definition whiskey_low := rest_at (dec 76 1) "Whiskey Row" "low" None.
Definition whiskey_high := rest_at (dec 80 1) "Whiskey Row" "high" None.

(** A rest recorded at mile 0 with no [start_mile]. *)
Definition at_start : RestPeriod :=
  {| mile := Some 0%Qc; start_mile := None;
     nearby_aid_station := Some "Start"; confidence := Some "high";
     pace_during := None; actual_pace := None; likely_reason := None |}.

Definition segment (label : string) (difficulty score : num) : Segment :=
  {| segment_name := label;
     difficulty_rating := Some difficulty;
     performance_score := Some score |}.

Definition course (segments : list Segment) : CourseAnalysis :=
  {| strongest_terrain := Some "climb";
     elevation_tolerance := None;
     segment_analysis := Some segments |}.

Definition xavier : Analysis :=
  {| fatigue_analysis :=
       Some {| average_fatigue := Some (dec 125 100);
               peak_fatigue_mile := Some (dec 80 1) |};
     course_analysis :=
       Some (course [segment "Crown King to Whiskey Row" (dec 35 10) (dec 8 10);
                     segment "Start to Crown King" (dec 3 1) (dec 9 10)]);
     rest_periods := Some (RestArray [whiskey_x; crown_a; at_start; crown_b]) |}.

Definition yara : Analysis :=
  {| fatigue_analysis := None;
     course_analysis :=
       Some (course [segment "Crown King to Whiskey Row" (dec 45 10) (dec 6 10);
                     segment "Start to Crown King" (dec 3 1) (dec 7 10)]);
     rest_periods := Some (RestBundle (Some [whiskey_y])) |}.

Definition zoe : Analysis :=
  {| fatigue_analysis := None;
     course_analysis := None;
     rest_periods := Some (RestBundle (Some [whiskey_low; whiskey_high])) |}.

Definition wes : Analysis :=
  {| fatigue_analysis := None; course_analysis := None;
     rest_periods := None |}.

Definition analyses : Analyses :=
  [(1, xavier); (2, yara); (3, zoe); (4, wes)]%Z.

Definition runners : list Runner :=
  [ {| id := 1; first_name := "Xavier"; last_name := "X" |};
    {| id := 2; first_name := "Yara"; last_name := "Y" |};
    {| id := 3; first_name := "Zoe"; last_name := "Z" |};
    {| id := 4; first_name := "Wes"; last_name := "W" |} ].

Definition selected : list Z := [1; 2; 3; 4]%Z.

Definition tagged (i : Z) (r : RestPeriod) : RunnerRest :=
  {| rest := r; runnerId := i; runnerName := runner_name runners i |}.

(** The Whiskey Row group of the sample, in mile order. *)
Definition whiskey_group : list RunnerRest :=
  [tagged 3 whiskey_low; tagged 1 whiskey_x; tagged 2 whiskey_y;
   tagged 3 whiskey_high].

Definition crown_group : list RunnerRest :=
  [tagged 1 crown_a; tagged 1 crown_b].

(** Two runners whose only segments are named by numbers. *)
Definition numbered : Analyses :=
  [(1, {| fatigue_analysis := None;
          course_analysis := Some (course [segment "2" (dec 3 1) (dec 1 2)]);
          rest_periods := None |});
   (2, {| fatigue_analysis := None;
          course_analysis := Some (course [segment "1" (dec 3 1) (dec 1 2)]);
          rest_periods := None |})]%Z.

(** Two runners on different segments of equal difficulty. *)
Definition level : Analyses :=
  [(1, {| fatigue_analysis := None;
          course_analysis := Some (course [segment "Ridge" (dec 3 1) (dec 1 2)]);
          rest_periods := None |});
   (2, {| fatigue_analysis := None;
          course_analysis := Some (course [segment "Valley" (dec 3 1) (dec 1 2)]);
          rest_periods := None |})]%Z.

End Sample.

(** ** Selecting runners ([Runners] of [static/js/runner.js]) *)

Module Runners.

(** What [#selectRunner] does besides updating [#selectedRunners]: it
    marks or unmarks the card and calls [runnerSelectionAction], or it
    alerts and returns before the action. *)
Inductive Feedback :=
| Deselected
| Selected
| Refused.

(** [this.#selectedRunners.includes(runnerId)].  A runner id is an
    integer: the [parseInt] of the [data-runner-id] of a card, which
    [displayRunners] writes from [runner.id]. *)
Definition includes (selected : list Z) (runnerId : Z) : bool :=
  existsb (Z.eqb runnerId) selected.

(** [#selectRunner(runnerId)], on the private array [#selectedRunners]. *)
Definition selectRunner (selected : list Z) (runnerId : Z)
  : list Z * Feedback :=
  if includes selected runnerId
  then (filter (fun i => negb (Z.eqb i runnerId)) selected, Deselected)
  else if (List.length selected <? 5)%nat
       then (selected ++ [runnerId], Selected)
       else (selected, Refused).

(** [runnerSelectionAction] is called unless the click was refused. *)
Definition action_called (f : Feedback) : bool :=
  match f with
  | Refused => false
  | _ => true
  end.

(** [clearSelections()] *)
Definition clearSelections (selected : list Z) : list Z := [].

(** The selection after a series of clicks on runner cards. *)
Definition clicks (selected : list Z) (ids : list Z) : list Z :=
  fold_left (fun s i => fst (selectRunner s i)) ids selected.

(** The getter [selectedRunners] of an instance, as [init] receives it. *)
Definition as_argument (selected : list Z) (all : list Runner) : RunnersArg :=
  {| selectedRunners := Some selected; allRunners := all |}.

End Runners.

(** ** The analysis button ([AnalysisButton.update]) *)

Module AnalysisButton.

(** The three texts of the button; [Compare n] is "Compare n Runners". *)
Inductive Label :=
| RunAdvanced
| RunSingle
| Compare (n : nat).

Record Button := {
  disabled : bool;
  label : Label
}.

Definition update (selected : list Z) : Button :=
  {| disabled := Nat.eqb (List.length selected) 0;
     label := match List.length selected with
              | 0%nat => RunAdvanced
              | 1%nat => RunSingle
              | n => Compare n
              end |}.

End AnalysisButton.

(** ** Numbers, continued *)

Module JsMath.

Definition min (a b : num) : num := if ltb b a then b else a.

Definition of_Z (z : Z) : num := Q2Qc (inject_Z z).

(** [Math.floor] and [Math.ceil] *)
Definition floor (x : num) : num := of_Z (Qfloor x).
Definition ceil (x : num) : num := of_Z (Qceiling x).

End JsMath.

(** ** The first analysis ([Object.values(this.analyses)[0]]) *)

(** Runner ids are the keys of [this.analyses]; a key is an array index
    when the id is an integer from 0 to [2^32 - 2]. *)
Definition id_is_index {V : Type} (e : Z * V) : bool :=
  (0 <=? fst e)%Z && (fst e <? 4294967295)%Z.

Definition by_id {V : Type} (a b : Z * V) : num :=
  JsMath.of_Z (fst a - fst b).

(** [Object.values(o)] for an object keyed by runner id whose properties
    were created in the order of the list: index keys first, ascending, then
    the other keys in creation order. *)
Definition values_by_id {V : Type} (o : list (Z * V)) : list V :=
  map snd (Js.sort by_id (filter id_is_index o)
           ++ filter (fun e => negb (id_is_index e)) o).

Definition firstRunnerData (analyses : Analyses) : option Analysis :=
  hd_error (values_by_id analyses).

(** [firstRunnerData?.course_analysis?.segment_analysis] *)
Definition courseSegments (analyses : Analyses) : option (list Segment) :=
  match firstRunnerData analyses with
  | Some a =>
      match course_analysis a with
      | Some c => segment_analysis c
      | None => None
      end
  | None => None
  end.

(** ** The segment table ([BaseRunnerAnalysis.updateSegmentTable]) *)

(** A segment as the table reads it: the segment and its [average_pace]. *)
Record PacedSegment := {
  paced : Segment;
  average_pace : option num
}.

(** [analysis?.course_analysis?.segment_analysis] of each runner with an
    analysis; [None] when the analysis lacks one of the two. *)
Definition SegmentLists := list (Z * option (list PacedSegment)).

Fixpoint segments_of (lists : SegmentLists) (selected : Z)
  : option (list PacedSegment) :=
  match lists with
  | [] => None
  | (k, l) :: more => if Z.eqb k selected then l else segments_of more selected
  end.

(** [...?.find(s => s.segment_name === segment.segment_name)] *)
Definition runnerSegment (lists : SegmentLists) (segment : PacedSegment)
  (selected : Z) : option PacedSegment :=
  match segments_of lists selected with
  | Some l => find (fun s => String.eqb (segment_name (paced s))
                               (segment_name (paced segment))) l
  | None => None
  end.




(** ** The charts ([createPaceElevationChart] and
    [#createMultiRunnerFatigueChart]) *)

Record FatiguePoint := {
  point_mile : option num;
  fatigue_factor : option num
}.

(** The [pace_per_mile] of a split.  The bounds of the pace axis compare
    it with [<] and [>], where [null] counts as 0 and [undefined] as NaN, so
    the two are kept apart here. *)
Inductive Pace :=
| NoPace
| NullPace
| PaceOf (y : num).

(** An element of [runner_splits[runnerId]]. *)
Record Split := {
  mile_number : option num;
  pace_per_mile : Pace
}.

(** A rest period as the pace chart reads it: the rest period and its two
    duration properties. *)
Record TimedRest := {
  timed : RestPeriod;
  estimated_rest_minutes : option num;
  duration_minutes : option num
}.

Inductive TimedRestData :=
| TimedArray (items : list TimedRest)
| TimedBundle (timed_of : option (list TimedRest)).

(** [analysis.fatigue_analysis] and [analysis], as the charts read them. *)
Record FatigueSeries := {
  fatigue_progression : option (list FatiguePoint)
}.

Record ChartAnalysis := {
  series : option FatigueSeries;
  timed_rest_periods : option TimedRestData
}.

Definition ChartAnalyses := list (Z * ChartAnalysis).

Fixpoint chart_analysis_of (analyses : ChartAnalyses) (selected : Z)
  : option ChartAnalysis :=
  match analyses with
  | [] => None
  | (k, a) :: more => if Z.eqb k selected then Some a
                      else chart_analysis_of more selected
  end.

(** [this.runners_splits[runnerId]] *)
Fixpoint splits_of (runners_splits : list (Z * list Split)) (selected : Z)
  : option (list Split) :=
  match runners_splits with
  | [] => None
  | (k, s) :: more => if Z.eqb k selected then Some s
                      else splits_of more selected
  end.

(** A point [{x, y}] of a dataset. *)
Record Point := {
  px : option num;
  py : option num
}.

Record Dataset := {
  dataset_label : string;
  data : list Point;
  borderColor : string
}.

Definition runnerColors : list string :=
  ["#ff6384"; "#36a2eb"; "#ffce56"; "#4bc0c0"; "#9966ff"].

(** [runnerColors[index % runnerColors.length]] *)
Definition color_at (index : nat) : string :=
  nth (index mod List.length runnerColors) runnerColors "".

(** [analysis.fatigue_analysis.fatigue_progression] when the analysis, its
    fatigue analysis and the progression are all present. *)
Definition progression_of (analysis : option ChartAnalysis)
  : option (list FatiguePoint) :=
  match analysis with
  | Some a =>
      match series a with
      | Some f => fatigue_progression f
      | None => None
      end
  | None => None
  end.

(** The pace as a point of a line holds it. *)
Definition plotted (p : Pace) : option num :=
  match p with
  | PaceOf y => Some y
  | _ => None
  end.

(** [splits.map(split => ({x: split.mile_number, y: split.pace_per_mile}))] *)
Definition splitsData (splits : list Split) : list Point :=
  map (fun s => {| px := mile_number s; py := plotted (pace_per_mile s) |})
    splits.

(** The number that [<] and [>] compare: [None] is NaN. *)
Definition pace_number (p : Pace) : option num :=
  match p with
  | NoPace => None
  | NullPace => Some 0%Qc
  | PaceOf y => Some y
  end.

(** [maxPace] and [minPace]: each holds its initial value, 0 or [Infinity]
    ([None]), or the pace of a split. *)
Definition PaceRange := (Pace * option Pace)%type.

(** [d.y > maxPace] *)
Definition above (y maxPace : Pace) : bool :=
  match pace_number y, pace_number maxPace with
  | Some a, Some b => gtb a b
  | _, _ => false
  end.

(** [d.y < minPace] *)
Definition below (y : Pace) (minPace : option Pace) : bool :=
  match pace_number y, minPace with
  | Some _, None => true
  | Some a, Some m =>
      match pace_number m with
      | Some b => ltb a b
      | None => false
      end
  | None, _ => false
  end.

(** [if (d.y > maxPace) { maxPace = d.y; }
     if (d.y < minPace) { minPace = d.y; }], where [d.y] is the
    [pace_per_mile] of the split. *)
Definition widen (range : PaceRange) (d : Split) : PaceRange :=
  let (maxPace, minPace) := range in
  let y := pace_per_mile d in
  (if above y maxPace then y else maxPace,
   if below y minPace then Some y else minPace).

(** The array that [restPeriods.length > 0] guards: a bundle without its
    array has no [length]. *)
Definition chart_rests (analysis : ChartAnalysis) : list TimedRest :=
  match timed_rest_periods analysis with
  | Some (TimedArray items) => items
  | Some (TimedBundle (Some items)) => items
  | _ => []
  end.

(** [restPeriods.filter(rest => rest.mile || rest.start_mile).map(...)];
    [y] is offset by 10 above the pace line. *)
Definition restMarkers (rests : list TimedRest) : list Point :=
  map (fun r =>
         {| px := mile_or_start (timed r);
            py := Some (or_num_lit (or_num (estimated_rest_minutes r)
                                      (duration_minutes r)) 0%Qc
                        + dec 10 1)%Qc |})
    (filter (fun r => truthy_num (mile_or_start (timed r))) rests).

Record PaceState := {
  paceDatasets : list Dataset;
  restPeriodDatasets : list Dataset;
  range : PaceRange
}.

(** The body of [selectedRunners.forEach((runnerId, index) => ...)].  The
    [paceData] that the source maps from the progression is not used. *)
Definition pace_step (analyses : ChartAnalyses)
  (runners_splits : list (Z * list Split)) (all : list Runner)
  (st : PaceState) (entry : nat * Z) : js PaceState :=
  let (index, selected) := entry in
  match progression_of (chart_analysis_of analyses selected),
        chart_analysis_of analyses selected with
  | Some _, Some analysis =>
      match splits_of runners_splits selected with
      | None =>
          Throw "TypeError: Cannot read properties of undefined (reading 'map')"
      | Some splits =>
          let points := splitsData splits in
          let range' := fold_left widen splits (range st) in
          match find_runner all selected with
          | None =>
              Throw "TypeError: Cannot read properties of undefined (reading 'first_name')"
          | Some runner =>
              let line := {| dataset_label := (full_name runner ++ " Pace")%string;
                             data := points;
                             borderColor := color_at index |} in
              let markers :=
                match chart_rests analysis with
                | [] => []
                | rests =>
                    [{| dataset_label :=
                          (first_name runner ++ " Rest Periods")%string;
                        data := restMarkers rests;
                        borderColor := color_at index |}]
                end in
              Return {| paceDatasets := paceDatasets st ++ [line];
                        restPeriodDatasets := restPeriodDatasets st ++ markers;
                        range := range' |}
          end
      end
  | _, _ => Return st
  end.

(** The array with the index of each element, as [forEach] passes it. *)
Definition indexed {A : Type} (l : list A) : list (nat * A) :=
  combine (seq 0 (List.length l)) l.

(** [minPace < 5 ? Math.floor(minPace / 5) * 5 : 5] *)
Definition paceAxis_min (minPace : option Pace) : num :=
  match minPace with
  | Some p =>
      match pace_number p with
      | Some m => if ltb m (dec 5 1)
                  then (JsMath.floor (m / dec 5 1) * dec 5 1)%Qc
                  else dec 5 1
      | None => dec 5 1
      end
  | None => dec 5 1
  end.

(** [maxPace > 30 ? Math.ceil(maxPace / 5) * 5 : 30] *)
Definition paceAxis_max (maxPace : Pace) : num :=
  match pace_number maxPace with
  | Some m => if gtb m (dec 30 1)
              then (JsMath.ceil (m / dec 5 1) * dec 5 1)%Qc
              else dec 30 1
  | None => dec 30 1
  end.

(** The pace and rest datasets of the chart and the bounds of its pace
    axis; the elevation profile is left out. *)
Record PaceChart := {
  pace_lines : list Dataset;
  rest_markers : list Dataset;
  axis_min : num;
  axis_max : num
}.

Definition createPaceElevationChart (analyses : ChartAnalyses)
  (runners_splits : list (Z * list Split)) (all : list Runner)
  (selected : list Z) : js PaceChart :=
  st <- forEach (pace_step analyses runners_splits all) (indexed selected)
          {| paceDatasets := []; restPeriodDatasets := [];
             range := (PaceOf 0%Qc, None) |} ;;
  Return {| pace_lines := paceDatasets st;
            rest_markers := restPeriodDatasets st;
            axis_min := paceAxis_min (snd (range st));
            axis_max := paceAxis_max (fst (range st)) |}.

(** The callback of [selectedRunners.map((runnerId, index) => ...)] in
    [#createMultiRunnerFatigueChart]: the name of the runner is read on
    both branches. *)
Definition fatigue_dataset (analyses : ChartAnalyses) (all : list Runner)
  (acc : list Dataset) (entry : nat * Z) : js (list Dataset) :=
  let (index, selected) := entry in
  match find_runner all selected with
  | None =>
      Throw "TypeError: Cannot read properties of undefined (reading 'first_name')"
  | Some runner =>
      let fatigueData :=
        match progression_of (chart_analysis_of analyses selected) with
        | Some progression =>
            map (fun p => {| px := point_mile p; py := fatigue_factor p |})
              progression
        | None => []
        end in
      Return (acc ++ [{| dataset_label := full_name runner;
                         data := fatigueData;
                         borderColor := color_at index |}])
  end.

(** What the fatigue chart shows: nothing when there are no analyses, a
    message when no dataset is left, the datasets otherwise. *)
Inductive FatigueChart :=
| NoChart
| NoFatigueData
| FatigueLines (datasets : list Dataset).

Definition createMultiRunnerFatigueChart (analyses : ChartAnalyses)
  (all : list Runner) (selected : list Z) : js FatigueChart :=
  match analyses with
  | [] => Return NoChart
  | _ :: _ =>
      mapped <- forEach (fatigue_dataset analyses all) (indexed selected) [] ;;
      match filter (fun d => (0 <? List.length (data d))%nat) mapped with
      | [] => Return NoFatigueData
      | datasets => Return (FatigueLines datasets)
      end
  end.

(** ** Vocabulary of the further statements *)

(** A selected runner that makes the rest period view throw: one that
    [allRunners] does not list, or one whose rest bundle lacks its array. *)
Definition breaks_rest_view (analyses : Analyses) (all : list Runner)
  (i : Z) : Prop :=
  find_runner all i = None
  \/ exists a, analysis_of analyses i = Some a
               /\ rest_periods a = Some (RestBundle None).

(** Both variables compare as numbers: [maxPace] is not NaN, and [minPace]
    is [Infinity] or not NaN. *)
Definition numeric (r : PaceRange) : Prop :=
  (exists hi, pace_number (fst r) = Some hi)
  /\ forall p, snd r = Some p -> exists lo, pace_number p = Some lo.

(** The pace [y] lies within the range: at most [maxPace], and at least a
    [minPace] that is no longer [Infinity]. *)
Definition covered (r : PaceRange) (y : num) : Prop :=
  (exists hi, pace_number (fst r) = Some hi /\ (y <= hi)%Qc)
  /\ exists p lo, snd r = Some p /\ pace_number p = Some lo /\ (lo <= y)%Qc.

(** Every pace of every line drawn so far lies within the range. *)
Definition lines_covered (st : PaceState) : Prop :=
  numeric (range st)
  /\ forall line d y,
       In line (paceDatasets st) -> In d (data line) -> py d = Some y ->
       covered (range st) y.

(** [minPace] holds a number that is 0 or less. *)
Definition reaches_zero (r : PaceRange) : Prop :=
  exists p lo, snd r = Some p /\ pace_number p = Some lo /\ (lo <= 0)%Qc.

(** The splits whose pace is a number, [null] included, are at 5 or more. *)
Definition from_five (splits : list Split) : Prop :=
  forall s y, In s splits -> pace_number (pace_per_mile s) = Some y ->
              (dec 5 1 <= y)%Qc.

(** [minPace] is [Infinity] or holds a number of 5 or more. *)
Definition stays_at_five (r : PaceRange) : Prop :=
  forall p, snd r = Some p ->
            exists lo, pace_number p = Some lo /\ (dec 5 1 <= lo)%Qc.

(** ** A sample for the charts and the segment table *)

Module ChartSample.

Definition rests : list TimedRest :=
  [ {| timed := Sample.whiskey_x;
       estimated_rest_minutes := Some (dec 45 1);
       duration_minutes := None |};
    {| timed := Sample.at_start;
       estimated_rest_minutes := None;
       duration_minutes := Some (dec 5 1) |};
    {| timed := Sample.crown_a;
       estimated_rest_minutes := None;
       duration_minutes := Some (dec 20 1) |} ].

Definition progression : list FatiguePoint :=
  [ {| point_mile := Some (dec 10 1); fatigue_factor := Some (dec 11 10) |};
    {| point_mile := Some (dec 20 1); fatigue_factor := Some (dec 13 10) |} ].

Definition xavier : ChartAnalysis :=
  {| series := Some {| fatigue_progression := Some progression |};
     timed_rest_periods := Some (TimedArray rests) |}.

Definition yara : ChartAnalysis :=
  {| series := Some {| fatigue_progression := Some progression |};
     timed_rest_periods := Some (TimedBundle None) |}.

(** Zoe has no fatigue analysis. *)
Definition zoe : ChartAnalysis :=
  {| series := None; timed_rest_periods := None |}.

Definition analyses : ChartAnalyses := [(1, xavier); (2, yara); (3, zoe)]%Z.

Definition split_at (m p : num) : Split :=
  {| mile_number := Some m; pace_per_mile := PaceOf p |}.

(** Yara's second split came without a pace. *)
Definition runners_splits : list (Z * list Split) :=
  [(1, [split_at (dec 1 1) (dec 82 10); split_at (dec 2 1) (dec 33 1)]);
   (2, [split_at (dec 1 1) (dec 12 1);
        {| mile_number := Some (dec 2 1); pace_per_mile := NullPace |}])]%Z.

Definition selected : list Z := [1; 2; 3]%Z.

Definition crown_to_whiskey (score pace : num) : PacedSegment :=
  {| paced := Sample.segment "Crown King to Whiskey Row" (dec 4 1) score;
     average_pace := Some pace |}.

Definition segment_lists : SegmentLists :=
  [(1, Some [crown_to_whiskey (dec 8 10) (dec 14 1)]);
   (2, Some [crown_to_whiskey (dec 6 10) (dec 16 1)]);
   (3, None)]%Z.

End ChartSample.

(** ** Binary64 arithmetic

    Where a result depends on how a sum, a difference or a quotient is
    rounded, the functions are modelled a second time in [Module Double]:
    every number read from the payload is the double that [JSON.parse]
    makes of it, and every operation rounds its exact result to the nearest
    double.  Overflow to [Infinity] and underflow (magnitudes beyond
    1.8e308 or below 2.2e-308) are not modelled. *)

Module Double.

(** [n / d] scaled by [2^-e], as a fraction of two integers. *)
Definition scaled (n d : positive) (e : Z) : Z * Z :=
  if (0 <=? e)%Z then (Zpos n, Zpos d * 2 ^ e)%Z
  else (Zpos n * 2 ^ (- e), Zpos d)%Z.

(** The integer nearest to [num / den]; of two nearest ones the even. *)
Definition nearest_even (num den : Z) : Z :=
  let q := (num / den)%Z in
  let r := (num mod den)%Z in
  match (2 * r ?= den)%Z with
  | Lt => q
  | Gt => (q + 1)%Z
  | Eq => if Z.even q then q else (q + 1)%Z
  end.

(** The exponent [e] for which [n / d], scaled by [2^-e], lies between
    [2^52] and [2^53]: the significand of a double has 53 bits. *)
Definition exponent (n d : positive) : Z :=
  let e := (Z.log2 (Zpos n) - Z.log2 (Zpos d) - 53)%Z in
  let (num, den) := scaled n d e in
  if (num / den <? 2 ^ 53)%Z then e else (e + 1)%Z.

(** [m * 2^e] *)
Definition times_pow2 (m e : Z) : Q :=
  if (0 <=? e)%Z then inject_Z (m * 2 ^ e)
  else m # Z.to_pos (2 ^ (- e)).

Definition round_positive (n d : positive) : Q :=
  let e := exponent n d in
  let (num, den) := scaled n d e in
  times_pow2 (nearest_even num den) e.

(** The double nearest to [x], ties to even. *)
Definition rnd (x : num) : num :=
  Q2Qc match Qnum x with
       | Z0 => 0
       | Zpos n => round_positive n (Qden x)
       | Zneg n => - round_positive n (Qden x)
       end.

(** The double that [JSON.parse] makes of a number of the payload. *)
Definition parsed (x : num) : num := rnd x.

(** A numeric property as the code reads it. *)
Definition read (x : option num) : option num := option_map parsed x.

(** [a + b], [a - b] and [a / b] *)
Definition add (a b : num) : num := rnd (a + b).
Definition sub (a b : num) : num := rnd (a - b).
Definition div (a b : num) : num := rnd (a / b).

(** *** Rest periods of several runners *)

(** [rest.mile || rest.start_mile || 0] *)
Definition restMile (r : RunnerRest) : num :=
  or_num_lit (or_num (read (mile (rest r))) (read (start_mile (rest r)))) 0%Qc.

(** [allRunnerRestPeriods.sort((a, b) => aMile - bMile)] *)
Definition by_mile (a b : RunnerRest) : num := sub (restMile a) (restMile b).

Definition sorted_rests (all : list RunnerRest) : list RunnerRest :=
  Js.sort by_mile all.

(** [group.reduce((sum, r) => sum + (r.mile || r.start_mile || 0), 0)
     / group.length] *)
Definition groupAvgMile (group : list RunnerRest) : num :=
  div (fold_left (fun sum r => add sum (restMile r)) group 0%Qc)
    (of_nat (List.length group)).

(** [restAidStation === groupAidStation &&
     Math.abs(restMile - groupAvgMile) <= MILE_VARIANCE_THRESHOLD] *)
Definition joins (r : RunnerRest) (group : list RunnerRest) : bool :=
  match groupAidStation group with
  | None => false
  | Some station =>
      String.eqb (restAidStation r) station
      && leb (abs (sub (restMile r) (groupAvgMile group)))
           MILE_VARIANCE_THRESHOLD
  end.

(** The [for (let group of restGroups)] scan. *)
Fixpoint addToGroup (r : RunnerRest) (groups : list (list RunnerRest))
  : option (list (list RunnerRest)) :=
  match groups with
  | [] => None
  | group :: more =>
      if joins r group then Some ((group ++ [r]) :: more)
      else option_map (cons group) (addToGroup r more)
  end.

Definition group_step (groups : list (list RunnerRest)) (r : RunnerRest)
  : list (list RunnerRest) :=
  match addToGroup r groups with
  | Some groups' => groups'
  | None => groups ++ [[r]]
  end.

Definition grouped (sorted : list RunnerRest) : list (list RunnerRest) :=
  fold_left group_step sorted [].

(** [restGroups.sort((a, b) => aAvgMile - bAvgMile)] *)
Definition by_avg_mile (a b : list RunnerRest) : num :=
  sub (groupAvgMile a) (groupAvgMile b).

Definition restGroups (all : list RunnerRest) : list (list RunnerRest) :=
  Js.sort by_avg_mile (grouped (sorted_rests all)).

(** [r.pace_during || r.actual_pace || 0] *)
Definition restPace (r : RunnerRest) : num :=
  or_num_lit (or_num (read (pace_during (rest r)))
                (read (actual_pace (rest r)))) 0%Qc.

(** [Math.abs((r.mile || r.start_mile || 0) - avgMile)] *)
Definition mileDiff (avgMile : num) (r : RunnerRest) : num :=
  abs (sub (restMile r) avgMile).

(** The callback of [runnerRests.reduce((best, current) => ...)]. *)
Definition pickBest (avgMile : num) (best current : RunnerRest) : RunnerRest :=
  let bestConf := getConfidenceScore (confidence (rest best)) in
  let currentConf := getConfidenceScore (confidence (rest current)) in
  if (currentConf >? bestConf)%Z then current
  else if (bestConf >? currentConf)%Z then best
  else
    let bestPace := restPace best in
    let currentPace := restPace current in
    if gtb currentPace bestPace then current
    else if gtb bestPace currentPace then best
    else
      let bestDiff := mileDiff avgMile best in
      let currentDiff := mileDiff avgMile current in
      if ltb currentDiff bestDiff then current else best.

(** [runnerRests.length > 0 ? runnerRests.reduce(...) : null] *)
Definition runnerRest (avgMile : num) (group : list RunnerRest) (selected : Z)
  : option RunnerRest :=
  match runnerRests group selected with
  | [] => None
  | first :: more => Some (fold_left (pickBest avgMile) more first)
  end.

(** The body of [selectedRunners.forEach(runnerId => ...)] inside a group. *)
Definition card_for (group : list RunnerRest) (colClass : string)
  (selected : Z) : Card :=
  let avgMile := groupAvgMile group in
  match runnerRest avgMile group selected with
  | Some r => createRestCard r colClass
  | None => createPlaceholderCard avgMile (nearbyAidStation group) colClass
  end.

Definition group_row (selectedRunners : list Z) (is_hidden : bool)
  (index : nat) (group : list RunnerRest) : GroupRow :=
  {| groupIndex := index;
     hidden := is_hidden;
     cards := map (card_for group (colClass_of selectedRunners))
                selectedRunners |}.

Definition group_rows (selectedRunners : list Z)
  (groups : list (list RunnerRest)) : list GroupRow :=
  let visibleGroups := Nat.min 3 (List.length groups) in
  mapi_from (group_row selectedRunners false) 0
    (slice_to visibleGroups groups)
  ++ mapi_from (group_row selectedRunners true) visibleGroups
       (slice_from visibleGroups groups).

(** The markup of [#updateRestPeriodsListMultiRunner]. *)
Definition updateRestPeriodsListMultiRunner (analyses : Analyses)
  (allRunners : list Runner) (selectedRunners : list Z) : js RestView :=
  match analyses with
  | [] => Return NoAnalysisData
  | _ :: _ =>
      match selectedRunners with
      | [] => Return NoRunnersSelected
      | _ :: _ =>
          all <- allRunnerRestPeriods analyses allRunners selectedRunners ;;
          let groups := restGroups all in
          headers <- runner_headers allRunners selectedRunners ;;
          Return (RestCards headers (group_rows selectedRunners groups))
      end
  end.

(** *** Critical segments *)

(** The segments pushed for one selected runner:
    [difficulty: segment.difficulty_rating || 0] and
    [performance: segment.performance_score || 0]. *)
Definition runner_perfs (analyses : Analyses) (selected : Z) : list Perf :=
  match analysis_of analyses selected with
  | Some a =>
      match course_analysis a with
      | Some c =>
          match segment_analysis c with
          | Some segments =>
              map (fun s =>
                     {| perf_name := segment_name s;
                        perf_difficulty :=
                          or_num_lit (read (difficulty_rating s)) 0%Qc;
                        perf_performance :=
                          or_num_lit (read (performance_score s)) 0%Qc;
                        perf_runnerId := selected |}) segments
          | None => []
          end
      | None => []
      end
  | None => []
  end.

Definition segmentPerformances (analyses : Analyses) (selected : list Z)
  : list Perf :=
  flat_map (runner_perfs analyses) selected.

(** [xs.reduce((a, b) => a + b, 0)] *)
Definition sum (xs : list num) : num := fold_left add xs 0%Qc.

(** The [.map(([name, stats]) => ...)] step. *)
Definition summarize (entry : string * Stats) : CriticalSegment :=
  let (entry_name, stats) := entry in
  {| name := entry_name;
     avgDifficulty := div (sum (difficulties stats))
                        (of_nat (stats_count stats));
     avgPerformance := div (sum (performances stats))
                         (of_nat (stats_count stats));
     count := stats_count stats |}.

(** [(a, b) => b.avgDifficulty - a.avgDifficulty] *)
Definition by_difficulty_desc (a b : CriticalSegment) : num :=
  sub (avgDifficulty b) (avgDifficulty a).

Definition criticalSegments (stats : list (string * Stats))
  : list CriticalSegment :=
  slice_to 5 (Js.sort by_difficulty_desc (map summarize (Object.entries stats))).

Definition updateRecommendationsMultiRunner (analyses : Analyses)
  (selected : list Z) : js (list CriticalSegment) :=
  stats <- segmentStats (segmentPerformances analyses selected) ;;
  Return (criticalSegments stats).

(** *** The average pace of the segment table *)

(** What one runner pushes onto [allPaces]. *)
Definition pace_of (lists : SegmentLists) (segment : PacedSegment)
  (selected : Z) : list num :=
  match runnerSegment lists segment selected with
  | Some s =>
      match read (average_pace s) with
      | Some p => if gtb p 0%Qc then [p] else []
      | None => []
      end
  | None => []
  end.

Definition allPaces (lists : SegmentLists) (selected : list Z)
  (segment : PacedSegment) : list num :=
  flat_map (pace_of lists segment) selected.

(** [allPaces.length > 0 ? allPaces.reduce((a, b) => a + b, 0)
     / allPaces.length : 0] *)
Definition avgPace (lists : SegmentLists) (selected : list Z)
  (segment : PacedSegment) : num :=
  let paces := allPaces lists selected segment in
  if (0 <? List.length paces)%nat
  then div (sum paces) (of_nat (List.length paces))
  else 0%Qc.


End Double.


(** ** The header of the comparison ([MutipleRunnerAnalysis.init]) *)

Module MutipleRunnerAnalysis.

(** The body of [selectedRunners.forEach(runnerId => ...)]:
    [runnerNames.push(`${r.first_name} ${r.last_name}`)]. *)
Definition name_step (allRunners : list Runner) (runnerNames : list string)
  (runnerId : Z) : js (list string) :=
  match find_runner allRunners runnerId with
  | None =>
      Throw "TypeError: Cannot read properties of undefined (reading 'first_name')"
  | Some r => Return (runnerNames ++ [full_name r])
  end.

(** [init(analyses, runners)] up to the header of the page: [super.init]
    validates the inputs, then the names of the selected runners are
    collected and joined.  The tables and charts that [init] goes on to
    fill are the functions above. *)
Definition init_header (analyses : StatusObject) (runners : RunnersArg)
  : js string :=
  _ <- BaseRunnerAnalysis.validateInputs analyses runners ;;
  match selectedRunners runners with
  | None =>
      Throw "TypeError: Cannot read properties of undefined (reading 'length')"
  | Some selected =>
      runnerNames <- forEach (name_step (allRunners runners)) selected [] ;;
      Return (String.concat ", " runnerNames)
  end.

End MutipleRunnerAnalysis.

(** ** The documented rules, in the words of the description

    These definitions follow the description of the aggregation and not
    the code; the statements compare the code with them. *)

(** The first of two optional numbers that is present and not zero, and 0
    when neither is. *)
Definition first_nonzero (a b : option num) : num :=
  match a with
  | Some x =>
      if Qc_eq_dec x 0 then match b with Some y => y | None => 0%Qc end
      else x
  | None => match b with Some y => y | None => 0%Qc end
  end.

(** high > medium > low > absent *)
Definition documented_tier (r : RunnerRest) : Z :=
  match confidence (rest r) with
  | Some c =>
      if string_dec c "high" then 3
      else if string_dec c "medium" then 2
      else if string_dec c "low" then 1
      else 0
  | None => 0
  end.

(** [pace_during], falling back to [actual_pace], defaulting to 0. *)
Definition documented_pace (r : RunnerRest) : num :=
  first_nonzero (Double.read (pace_during (rest r)))
    (Double.read (actual_pace (rest r))).

(** The resolved mile: [mile], falling back to [start_mile], else 0. *)
Definition documented_mile (r : RunnerRest) : num :=
  first_nonzero (Double.read (mile (rest r)))
    (Double.read (start_mile (rest r))).

(** The mean mile of a cluster: the miles are added one by one, each sum
    rounded, and the total is divided by the number of members. *)
Definition documented_mean (group : list RunnerRest) : num :=
  Double.rnd
    (fold_left (fun total r => Double.rnd (total + documented_mile r)) group
       0
     / of_nat (List.length group))%Qc.

(** The absolute distance of the resolved mile to a mean mile. *)
Definition documented_distance (avgMile : num) (r : RunnerRest) : num :=
  Qcabs (Double.rnd (documented_mile r - avgMile)).

(** The aid-station identity, "Unknown" standing in for an absent one. *)
Definition documented_station (r : RunnerRest) : string :=
  match nearby_aid_station (rest r) with
  | Some s => if string_dec s "" then "Unknown" else s
  | None => "Unknown"
  end.

(** [a] stands before [b] in the order by tier (the higher first), then
    pace (the higher first), then distance (the smaller first). *)
Definition before {A : Type} (tier : A -> Z) (pace distance : A -> num)
  (a b : A) : Prop :=
  (tier b < tier a)%Z
  \/ (tier a = tier b /\ (pace b < pace a)%Qc)
  \/ (tier a = tier b /\ pace a = pace b /\ (distance a < distance b)%Qc).

(** [a] stands before [b] in the documented order of the rest selector. *)
Definition outranks (avgMile : num) (a b : RunnerRest) : Prop :=
  before documented_tier documented_pace (documented_distance avgMile) a b.

(** The members of a group share one aid-station identity. *)
Definition one_station (group : list RunnerRest) : Prop :=
  group <> []
  /\ forall x y, In x group -> In y group ->
                 documented_station x = documented_station y.

(** A closed rest period for the samples. *)
Definition rest_of (runner : Z) (m : num) (station : string)
  (level : option string) : RunnerRest :=
  {| rest := {| mile := Some m; start_mile := None;
                nearby_aid_station := Some station;
                confidence := level;
                pace_during := None; actual_pace := None;
                likely_reason := None |};
     runnerId := runner; runnerName := "" |}.

(** The segment list of a runner: empty when the runner has no analysis,
    no course analysis or no segment list. *)
Definition listed_segments (analyses : Analyses) (runner : Z) : list Segment :=
  match analysis_of analyses runner with
  | Some a =>
      match course_analysis a with
      | Some c =>
          match segment_analysis c with
          | Some segments => segments
          | None => []
          end
      | None => []
      end
  | None => []
  end.

(** The entries named [n] of the selected runners, runner by runner: a
    runner whose list lacks the name contributes nothing. *)
Definition contributions (analyses : Analyses) (selected : list Z)
  (n : string) : list Segment :=
  filter (fun s => String.eqb (segment_name s) n)
    (flat_map (listed_segments analyses) selected).

(** A rating or a score; an absent one counts 0. *)
Definition value_or_zero (x : option num) : num :=
  match x with
  | Some v => Double.parsed v
  | None => 0%Qc
  end.

(** The mean of some numbers: they are added one by one, each sum rounded,
    and the total is divided by their number. *)
Definition documented_average (xs : list num) : num :=
  Double.rnd
    (fold_left (fun total x => Double.rnd (total + x)) xs 0
     / of_nat (List.length xs))%Qc.

(** The candidate of the ranking for the segment named [n]. *)
Definition documented_candidate (analyses : Analyses) (selected : list Z)
  (n : string) : CriticalSegment :=
  let entries := contributions analyses selected n in
  {| name := n;
     avgDifficulty :=
       documented_average
         (map (fun s => value_or_zero (difficulty_rating s)) entries);
     avgPerformance :=
       documented_average
         (map (fun s => value_or_zero (performance_score s)) entries);
     count := List.length entries |}.

(** A segment as a runner reports it, for the samples. *)
Definition rated (label : string) (difficulty : num) : Segment :=
  {| segment_name := label;
     difficulty_rating := Some difficulty;
     performance_score := None |}.

Definition reporting (segments : list Segment) : Analysis :=
  {| fatigue_analysis := None;
     course_analysis :=
       Some {| strongest_terrain := None; elevation_tolerance := None;
               segment_analysis := Some segments |};
     rest_periods := None |}.

(** The order in which [Object.entries] lists properties that were created
    in the order [names]. *)
Definition entries_order (names : list string) : list string :=
  map fst (Object.entries (map (fun n => (n, tt)) names)).




(** Every member but the first joined the members before it: it carries
    their aid station and lies within 5.0 of their mean mile. *)
Definition within_reach (group : list RunnerRest) : Prop :=
  forall k x,
    nth_error group (S k) = Some x ->
    (forall first, nth_error group 0 = Some first ->
                   documented_station x = documented_station first)
    /\ (documented_distance (documented_mean (firstn (S k) group)) x
        <= dec 5 1)%Qc.

(** No member of [group] lies after a rest period still to be processed. *)
Definition all_before (group later : list RunnerRest) : Prop :=
  forall x y, In x group -> In y later ->
              (documented_mile x <= documented_mile y)%Qc.

(** Samples for the rounded results. *)
Module RoundedSample.

(** Six rest periods at mile 24.4 and one at mile 29.400000000000002, all
    at Crown King. *)
Definition near : list RunnerRest :=
  map (fun i => rest_of i (dec 244 10) "Crown King" None) [1; 2; 3; 4; 5; 6]%Z.

Definition far : RunnerRest :=
  rest_of 7 (dec 29400000000000002 1000000000000000) "Crown King" None.

(** Zoe has rest periods and no fatigue analysis. *)
Definition zoe : ChartAnalysis :=
  {| series := None;
     timed_rest_periods := Some (TimedArray ChartSample.rests) |}.


End RoundedSample.

(** * Properties *)

(** ** Comparisons of numbers *)

Lemma eqb_true_iff (x y : num) : eqb x y = true <-> x = y.
Proof.
  unfold eqb. rewrite Qceq_alt.
  destruct (x ?= y)%Qc; split; congruence.
Qed.

Lemma ltb_true_iff (x y : num) : ltb x y = true <-> (x < y)%Qc.
Proof.
  unfold ltb. rewrite Qclt_alt.
  destruct (x ?= y)%Qc; split; congruence.
Qed.

Lemma ltb_false_iff (x y : num) : ltb x y = false <-> (y <= x)%Qc.
Proof.
  split; intro H.
  - apply Qcnot_lt_le. intro L. apply ltb_true_iff in L. congruence.
  - destruct (ltb x y) eqn:E; trivial.
    apply ltb_true_iff in E. exfalso. exact (Qclt_not_le _ _ E H).
Qed.

Lemma leb_true_iff (x y : num) : leb x y = true <-> (x <= y)%Qc.
Proof.
  unfold leb. rewrite Qcle_alt.
  destruct (x ?= y)%Qc; split; congruence.
Qed.

Lemma gtb_true_iff (x y : num) : gtb x y = true <-> (y < x)%Qc.
Proof. unfold gtb. apply ltb_true_iff. Qed.

Lemma gtb_false_iff (x y : num) : gtb x y = false <-> (x <= y)%Qc.
Proof. unfold gtb. apply ltb_false_iff. Qed.


(** ** The stable sort *)

Section StableSort.

Variable A : Type.
Variable cmp : A -> A -> num.
Variable key : A -> num.

(** The comparator orders by [key], ascending. *)
Hypothesis cmp_key :
  forall a b, gtb (cmp a b) 0%Qc = true <-> (key b < key a)%Qc.

Lemma insert_perm (x : A) (l : list A) :
  Permutation (Js.insert cmp x l) (x :: l).
Proof.
  induction l as [|y ys IH]; simpl.
  - apply Permutation_refl.
  - destruct (gtb (cmp x y) 0%Qc).
    + rewrite IH. apply perm_swap.
    + apply Permutation_refl.
Qed.

Lemma sort_perm (l : list A) : Permutation (Js.sort cmp l) l.
Proof.
  induction l as [|x xs IH]; simpl.
  - constructor.
  - unfold Js.sort in *. simpl. rewrite insert_perm. now constructor.
Qed.

Lemma insert_sorted (x : A) (l : list A) :
  StronglySorted (key_le key) l -> StronglySorted (key_le key) (Js.insert cmp x l).
Proof.
  induction 1 as [|y ys Hs IH Hy]; simpl.
  - repeat constructor.
  - destruct (gtb (cmp x y) 0%Qc) eqn:E.
    + apply cmp_key in E. constructor; [exact IH|].
      apply Forall_forall. intros z Hz.
      apply (Permutation_in _ (insert_perm x ys)) in Hz.
      destruct Hz as [<-|Hz].
      * apply Qclt_le_weak, E.
      * rewrite Forall_forall in Hy. now apply Hy.
    + assert (L : (key x <= key y)%Qc).
      { apply Qcnot_lt_le. intro L. apply cmp_key in L. congruence. }
      constructor; [now constructor|].
      constructor; [exact L|].
      eapply Forall_impl; [|exact Hy].
      intros z Hz. unfold key_le in *. eapply Qcle_trans; eassumption.
Qed.

Lemma sort_sorted (l : list A) : StronglySorted (key_le key) (Js.sort cmp l).
Proof.
  induction l as [|x xs IH]; simpl.
  - constructor.
  - apply insert_sorted, IH.
Qed.

(** Stability: the elements of one key keep their relative order. *)
Lemma insert_stable (k : num) (x : A) (l : list A) :
  filter (fun a => eqb (key a) k) (Js.insert cmp x l)
  = filter (fun a => eqb (key a) k) (x :: l).
Proof.
  induction l as [|y ys IH]; simpl; [reflexivity|].
  destruct (gtb (cmp x y) 0%Qc) eqn:E; [|reflexivity].
  apply cmp_key in E. simpl in *. rewrite IH.
  destruct (eqb (key x) k) eqn:Ex, (eqb (key y) k) eqn:Ey; try reflexivity.
  apply eqb_true_iff in Ex, Ey. exfalso.
  apply (Qclt_not_eq _ _ E). congruence.
Qed.

Lemma sort_stable (k : num) (l : list A) :
  filter (fun a => eqb (key a) k) (Js.sort cmp l)
  = filter (fun a => eqb (key a) k) l.
Proof.
  induction l as [|x xs IH]; [reflexivity|].
  change (Js.sort cmp (x :: xs)) with (Js.insert cmp x (Js.sort cmp xs)).
  rewrite insert_stable. simpl. now rewrite IH.
Qed.

End StableSort.

(** ** Collecting the rest periods *)

Lemma forEach_app {A S : Type} (body : S -> A -> js S) (xs ys : list A)
  (acc : S) :
  forEach body (xs ++ ys) acc = (s <- forEach body xs acc ;; forEach body ys s).
Proof.
  revert acc. induction xs as [|x xs IH]; intro acc; simpl; [reflexivity|].
  destruct (body acc x); simpl; [apply IH|reflexivity].
Qed.

Lemma tag_rests_returns (runner : option Runner) (i : Z)
  (rests : list RestPeriod) (tagged : list RunnerRest) :
  tag_rests runner i rests = Return tagged ->
  tagged = map (fun r => {| rest := r; runnerId := i;
                            runnerName := match runner with
                                          | Some rn => full_name rn
                                          | None => ""
                                          end |}) rests.
Proof.
  destruct rests as [|r rests]; simpl.
  - intros [= <-]. reflexivity.
  - destruct runner; [|discriminate]. intros [= <-]. reflexivity.
Qed.

Lemma collect_returns (analyses : Analyses) (allRunners : list Runner)
  (selected : list Z) (acc all : list RunnerRest) :
  forEach (collect_step analyses allRunners) selected acc = Return all ->
  all = acc ++ flattened analyses allRunners selected.
Proof.
  revert acc. induction selected as [|i more IH]; intro acc; simpl.
  - intros [= <-]. now rewrite app_nil_r.
  - unfold collect_step at 1, raw_rests, runner_name.
    destruct (allRestPeriods (analysis_of analyses i)) as [items|]; simpl;
      [|discriminate].
    destruct (tag_rests _ i (restPeriods items)) as [tagged|] eqn:T; simpl;
      [|discriminate].
    intro H. apply IH in H. apply tag_rests_returns in T.
    rewrite H, <- app_assoc. f_equal. unfold flattened at 2. simpl.
    unfold raw_rests, runner_name. now rewrite T.
Qed.

Lemma collect_ok (analyses : Analyses) (allRunners : list Runner)
  (selected : list Z) (acc : list RunnerRest) :
  inputs_ok analyses allRunners selected = true ->
  forEach (collect_step analyses allRunners) selected acc
  = Return (acc ++ flattened analyses allRunners selected).
Proof.
  revert acc. induction selected as [|i more IH]; intro acc; simpl.
  - intros _. now rewrite app_nil_r.
  - intro H. apply andb_prop in H. destruct H as [Hi Hmore].
    unfold collect_step at 1, flattened, raw_rests, runner_name. simpl.
    destruct (find_runner allRunners i) as [rn|]; [|discriminate].
    destruct (allRestPeriods (analysis_of analyses i)) as [items|];
      [|discriminate].
    simpl.
    assert (T : tag_rests (Some rn) i (restPeriods items)
                = Return (map (fun r => {| rest := r; runnerId := i;
                                           runnerName := full_name rn |})
                            (restPeriods items))).
    { destruct (restPeriods items); reflexivity. }
    rewrite T. simpl. rewrite (IH _ Hmore), <- app_assoc. reflexivity.
Qed.

Lemma flattened_kept (analyses : Analyses) (allRunners : list Runner)
  (selected : list Z) (x : RunnerRest) :
  In x (flattened analyses allRunners selected) ->
  truthy_num (mile_or_start (rest x)) = true /\ In (runnerId x) selected.
Proof.
  unfold flattened. rewrite in_flat_map. intros (i & Hi & Hx).
  apply in_map_iff in Hx. destruct Hx as (r & <- & Hr). simpl.
  unfold restPeriods in Hr. apply filter_In in Hr. tauto.
Qed.

(** ** Grouping *)

Lemma joins_iff (r first : RunnerRest) (others : list RunnerRest) :
  joins r (first :: others) = true <->
  restAidStation r = restAidStation first
  /\ (abs (restMile r - groupAvgMile (first :: others))
      <= MILE_VARIANCE_THRESHOLD)%Qc.
Proof.
  unfold joins. simpl groupAidStation.
  rewrite andb_true_iff, String.eqb_eq, leb_true_iff. reflexivity.
Qed.

Lemma addToGroup_some (r : RunnerRest) (groups groups' : list (list RunnerRest)) :
  addToGroup r groups = Some groups' ->
  exists before group after,
    groups = before ++ group :: after
    /\ Forall (fun g => joins r g = false) before
    /\ joins r group = true
    /\ groups' = before ++ (group ++ [r]) :: after.
Proof.
  revert groups'. induction groups as [|g more IH]; intros groups'; simpl.
  - discriminate.
  - destruct (joins r g) eqn:J.
    + intros [= <-]. exists [], g, more. simpl. auto.
    + destruct (addToGroup r more) as [more'|]; [|discriminate].
      intros [= <-].
      destruct (IH _ eq_refl) as (before & group & after & -> & Hb & Hj & ->).
      exists (g :: before), group, after. simpl. auto.
Qed.

Lemma addToGroup_none (r : RunnerRest) (groups : list (list RunnerRest)) :
  addToGroup r groups = None <-> Forall (fun g => joins r g = false) groups.
Proof.
  induction groups as [|g more IH]; simpl.
  - split; auto.
  - destruct (joins r g) eqn:J.
    + split; [discriminate|]. intro H. inversion H. congruence.
    + destruct (addToGroup r more); simpl.
      * split; [discriminate|]. intro H. inversion H; subst.
        apply IH in H3. discriminate.
      * split; auto. intros _. constructor; trivial. now apply IH.
Qed.

Lemma group_step_cases (groups : list (list RunnerRest)) (r : RunnerRest) :
  (exists before group after,
      groups = before ++ group :: after
      /\ Forall (fun g => joins r g = false) before
      /\ joins r group = true
      /\ group_step groups r = before ++ (group ++ [r]) :: after)
  \/ (Forall (fun g => joins r g = false) groups
      /\ group_step groups r = groups ++ [[r]]).
Proof.
  unfold group_step. destruct (addToGroup r groups) as [groups'|] eqn:E.
  - left. apply addToGroup_some in E.
    destruct E as (before & group & after & H1 & H2 & H3 & H4).
    exists before, group, after. auto.
  - right. split; trivial. now apply addToGroup_none.
Qed.

Lemma uniform_snoc (group : list RunnerRest) (r : RunnerRest) :
  uniform group -> joins r group = true -> uniform (group ++ [r]).
Proof.
  intros [Hne Hall] J. destruct group as [|first others]; [congruence|].
  apply joins_iff in J. destruct J as [Hst _].
  split; [discriminate|].
  intros x Hx. simpl. apply in_app_or in Hx. destruct Hx as [Hx|[<-|[]]].
  - exact (Hall x Hx).
  - now rewrite Hst.
Qed.

Lemma group_step_uniform (groups : list (list RunnerRest)) (r : RunnerRest) :
  Forall uniform groups -> Forall uniform (group_step groups r).
Proof.
  intro H.
  destruct (group_step_cases groups r)
    as [(before & group & after & -> & _ & J & ->)|[_ ->]].
  - apply Forall_app in H. destruct H as [Hb Hga].
    inversion Hga; subst. apply Forall_app. split; trivial.
    constructor; trivial. now apply uniform_snoc.
  - apply Forall_app. split; trivial. constructor; [|constructor].
    split; [discriminate|]. intros x [<-|[]]. reflexivity.
Qed.

Lemma fold_group_step_uniform (l : list RunnerRest)
  (groups : list (list RunnerRest)) :
  Forall uniform groups -> Forall uniform (fold_left group_step l groups).
Proof.
  revert groups. induction l as [|r l IH]; intros groups H; simpl; trivial.
  apply IH. now apply group_step_uniform.
Qed.

Lemma grouped_uniform (l : list RunnerRest) : Forall uniform (grouped l).
Proof. apply fold_group_step_uniform. constructor. Qed.

Lemma group_step_perm (groups : list (list RunnerRest)) (r : RunnerRest) :
  Permutation (List.concat (group_step groups r)) (List.concat groups ++ [r]).
Proof.
  destruct (group_step_cases groups r)
    as [(before & group & after & -> & _ & _ & ->)|[_ ->]].
  - rewrite !concat_app. simpl. rewrite <- !app_assoc.
    apply Permutation_app_head, Permutation_app_head.
    apply Permutation_app_comm.
  - rewrite concat_app. simpl. reflexivity.
Qed.

Lemma fold_group_step_perm (l : list RunnerRest)
  (groups : list (list RunnerRest)) :
  Permutation (List.concat (fold_left group_step l groups)) (List.concat groups ++ l).
Proof.
  revert groups. induction l as [|r l IH]; intro groups; simpl.
  - now rewrite app_nil_r.
  - rewrite IH, group_step_perm, <- app_assoc. reflexivity.
Qed.

Lemma grouped_perm (l : list RunnerRest) : Permutation (List.concat (grouped l)) l.
Proof. apply (fold_group_step_perm l []). Qed.



Lemma restGroups_member (all : list RunnerRest) (group : list RunnerRest)
  (x : RunnerRest) :
  In group (restGroups all) -> In x group -> In x all.
Proof.
  intros Hg Hx. unfold restGroups in Hg.
  apply (Permutation_in _ (sort_perm _ by_avg_mile _)) in Hg.
  assert (Hc : In x (List.concat (grouped (sorted_rests all)))).
  { apply in_concat. eauto. }
  apply (Permutation_in _ (grouped_perm _)) in Hc.
  unfold sorted_rests in Hc.
  exact (Permutation_in _ (sort_perm _ by_mile _) Hc).
Qed.

Lemma restGroups_uniform (all : list RunnerRest) :
  Forall uniform (restGroups all).
Proof.
  unfold restGroups.
  eapply Permutation_Forall; [|apply grouped_uniform].
  apply Permutation_sym, sort_perm.
Qed.

(** ** Choosing a runner's rest period *)

Ltac qc_order :=
  unfold num, Qclt, Qcle in *;
  repeat match goal with
         | H : @eq Qc ?x ?y |- _ =>
             assert (this x == this y)%Q by (rewrite H; reflexivity); clear H
         | |- @eq Qc _ _ => apply Qc_is_canon
         | |- ~ _ => intro
         end;
  lra.







Lemma runnerRests_In (group : list RunnerRest) (selected : Z) (x : RunnerRest) :
  In x (runnerRests group selected) <-> In x group /\ runnerId x = selected.
Proof.
  unfold runnerRests. rewrite filter_In, Z.eqb_eq. reflexivity.
Qed.

(** ** The rows of cards *)

Lemma mapi_from_length {A B : Type} (f : nat -> A -> B) (start : nat)
  (l : list A) :
  List.length (mapi_from f start l) = List.length l.
Proof.
  revert start. induction l as [|x xs IH]; intro start; simpl; auto.
Qed.

Lemma mapi_from_nth {A B : Type} (f : nat -> A -> B) (start i : nat)
  (l : list A) :
  nth_error (mapi_from f start l) i
  = option_map (f (start + i)%nat) (nth_error l i).
Proof.
  revert start i. induction l as [|x xs IH]; intros start i; simpl.
  - now destruct i.
  - destruct i as [|i]; simpl.
    + now rewrite Nat.add_0_r.
    + rewrite IH. now rewrite Nat.add_succ_r.
Qed.

Lemma group_rows_length (selected : list Z) (groups : list (list RunnerRest)) :
  List.length (group_rows selected groups) = List.length groups.
Proof.
  unfold group_rows, slice_to, slice_from.
  rewrite length_app, !mapi_from_length, <- length_app, firstn_skipn.
  reflexivity.
Qed.

Lemma group_rows_nth (selected : list Z) (groups : list (list RunnerRest))
  (i : nat) (group : list RunnerRest) :
  nth_error groups i = Some group ->
  nth_error (group_rows selected groups) i
  = Some (group_row selected (3 <=? i)%nat i group).
Proof.
  intro H. assert (Hi : (i < List.length groups)%nat).
  { apply nth_error_Some. congruence. }
  unfold group_rows, slice_to, slice_from.
  destruct (Nat.leb_spec 3 i) as [L|L].
  - replace (Nat.min 3 (List.length groups)) with 3%nat by lia.
    rewrite nth_error_app2; rewrite mapi_from_length, length_firstn;
      [|lia].
    replace (Nat.min 3 (List.length groups)) with 3%nat by lia.
    rewrite mapi_from_nth, nth_error_skipn.
    replace (3 + (i - 3))%nat with i by lia. now rewrite H.
  - rewrite nth_error_app1; [|rewrite mapi_from_length, length_firstn; lia].
    rewrite mapi_from_nth, nth_error_firstn.
    destruct (Nat.ltb_spec i (Nat.min 3 (List.length groups))); [|lia].
    now rewrite H.
Qed.

Lemma nearbyAidStation_cases (group : list RunnerRest) :
  (exists x, In x group
             /\ nearby_aid_station (rest x) = Some (nearbyAidStation group)
             /\ nearbyAidStation group <> "")
  \/ (nearbyAidStation group = ""
      /\ forall x, In x group ->
                   truthy_str (nearby_aid_station (rest x)) = false).
Proof.
  unfold nearbyAidStation.
  destruct (find _ group) as [x|] eqn:F.
  - left. apply find_some in F. destruct F as [Hin Ht]. exists x.
    unfold truthy_str, or_str_lit in *.
    destruct (nearby_aid_station (rest x)) as [s|]; [|discriminate].
    destruct (String.eqb s "") eqn:E; [discriminate|].
    apply String.eqb_neq in E. auto.
  - right. split; [reflexivity|].
    intros x Hx. exact (find_none _ _ F x Hx).
Qed.

Lemma headers_ok (analyses : Analyses) (allRunners : list Runner)
  (selected : list Z) (acc : list string) :
  inputs_ok analyses allRunners selected = true ->
  forEach (header_step allRunners) selected acc
  = Return (acc ++ map (runner_name allRunners) selected).
Proof.
  revert acc. induction selected as [|i more IH]; intro acc; simpl.
  - intros _. now rewrite app_nil_r.
  - intro H. apply andb_prop in H. destruct H as [Hi Hmore].
    unfold header_step at 1, runner_name at 1.
    destruct (find_runner allRunners i) as [rn|]; [|discriminate].
    simpl. rewrite (IH _ Hmore), <- app_assoc. reflexivity.
Qed.

Lemma update_rest_periods_unfold (analyses : Analyses)
  (allRunners : list Runner) (selected : list Z) :
  analyses <> [] -> selected <> [] ->
  updateRestPeriodsListMultiRunner analyses allRunners selected
  = (all <- allRunnerRestPeriods analyses allRunners selected ;;
     headers <- runner_headers allRunners selected ;;
     Return (RestCards headers (group_rows selected (restGroups all)))).
Proof.
  destruct analyses, selected; congruence || reflexivity.
Qed.

(** ** The grouping step *)

(** ** What the grouping receives and returns *)



Lemma truthy_resolved (r : RestPeriod) :
  truthy_num (mile_or_start r) = true <-> resolved_mile r <> 0%Qc.
Proof.
  unfold resolved_mile, or_num_lit, truthy_num.
  destruct (mile_or_start r) as [x|]; [|split; congruence].
  destruct (eqb x 0%Qc) eqn:E; simpl.
  - split; congruence.
  - split; trivial. intros _ H. apply eqb_true_iff in H. congruence.
Qed.

Lemma unresolvable (r : RestPeriod) :
  (mile r = None \/ mile r = Some 0%Qc) ->
  (start_mile r = None \/ start_mile r = Some 0%Qc) ->
  truthy_num (mile_or_start r) = false.
Proof.
  unfold mile_or_start, or_num.
  intros [-> | ->] [-> | ->]; reflexivity.
Qed.

(** Claim C10.  The resolved mile of a rest period is its [mile] when that
    is present and non-zero, and otherwise its [start_mile] (0 when that is
    absent too).  Every member of every group has a non-zero resolved mile:
    a rest period whose [mile] and [start_mile] are both absent or zero, such
    as one at mile 0 without [start_mile], is in no group. *)
Theorem unresolved_mile_is_dropped (analyses : Analyses)
  (allRunners : list Runner) (selected : list Z) (all : list RunnerRest)
  (returned : allRunnerRestPeriods analyses allRunners selected = Return all) :
  (forall r m, mile r = Some m -> m <> 0%Qc -> resolved_mile r = m)
  /\ (forall r, mile r = None \/ mile r = Some 0%Qc ->
                resolved_mile r = match start_mile r with
                                  | Some s => s
                                  | None => 0%Qc
                                  end)
  /\ (forall group x, In group (restGroups all) -> In x group ->
                      resolved_mile (rest x) <> 0%Qc)
  /\ (forall r,
         (mile r = None \/ mile r = Some 0%Qc) ->
         (start_mile r = None \/ start_mile r = Some 0%Qc) ->
         forall group x, In group (restGroups all) -> In x group ->
                         rest x <> r).
Proof.
  assert (kept : forall group x, In group (restGroups all) -> In x group ->
                                 truthy_num (mile_or_start (rest x)) = true).
  { intros group x Hg Hx.
    apply collect_returns in returned. simpl in returned. subst all.
    exact (proj1 (flattened_kept _ _ _ _ (restGroups_member _ _ _ Hg Hx))). }
  split; [|split; [|split]].
  - intros r m Hm Hne. unfold resolved_mile, mile_or_start, or_num. rewrite Hm.
    simpl. destruct (eqb m 0%Qc) eqn:E.
    + apply eqb_true_iff in E. congruence.
    + simpl. now rewrite E.
  - intros r Hm. unfold resolved_mile, mile_or_start, or_num, or_num_lit.
    destruct Hm as [-> | ->]; simpl;
      destruct (start_mile r) as [s|]; trivial;
      destruct (eqb s 0%Qc) eqn:E; trivial;
      apply eqb_true_iff in E; congruence.
  - intros group x Hg Hx. apply truthy_resolved. eauto.
  - intros r Hm Hs group x Hg Hx E.
    pose proof (kept group x Hg Hx) as K. rewrite E in K.
    rewrite (unresolvable r Hm Hs) in K. discriminate.
Qed.

(** ** The order of the rest selector *)



(** Xavier rests at Whiskey Row at mile 77.3 and Yara at mile 79: one group
    of mean mile 78.15. *)
Example whiskey_row_is_one_group :
  let x := Sample.tagged 1 Sample.whiskey_x in
  let y := Sample.tagged 2 Sample.whiskey_y in
  restGroups [y; x] = [[x; y]]
  /\ this (groupAvgMile [x; y]) = 1563 # 20.
Proof. split; vm_compute; reflexivity. Qed.


(** C10 on the sample: the rest at mile 0 is in neither group. *)
Lemma unresolved_mile_is_dropped_sample :
  In Sample.at_start (raw_rests Sample.analyses 1)
  /\ forall group x,
       In group (restGroups (flattened Sample.analyses Sample.runners
                               Sample.selected)) ->
       In x group -> rest x <> Sample.at_start.
Proof.
  split; [right; right; left; reflexivity|].
  apply (unresolved_mile_is_dropped Sample.analyses Sample.runners
           Sample.selected).
  - vm_compute. reflexivity.
  - right. reflexivity.
  - left. reflexivity.
Defined.

(** ** Input validation *)

Lemma is_failed_iff (o : StatusObject) :
  is_failed o = true <-> status o = Some "failed".
Proof.
  unfold is_failed. destruct (status o) as [s|].
  - rewrite String.eqb_eq. split; congruence.
  - split; discriminate.
Qed.

Lemma not_failed_iff (o : StatusObject) :
  is_failed o = false <-> status o <> Some "failed".
Proof.
  rewrite <- is_failed_iff. now destruct (is_failed o).
Qed.

Lemma base_validate_missing (analyses : StatusObject) (runners : RunnersArg) :
  selectedRunners runners = None ->
  BaseRunnerAnalysis.validateInputs analyses runners
  = Throw "Missing runner data: [object Object]".
Proof.
  unfold BaseRunnerAnalysis.validateInputs. now intros ->.
Qed.

Lemma base_validate_failed (analyses : StatusObject) (runners : RunnersArg) :
  selectedRunners runners <> None -> status analyses = Some "failed" ->
  BaseRunnerAnalysis.validateInputs analyses runners
  = Throw (or_str_lit (error analyses) "Analysis failed").
Proof.
  unfold BaseRunnerAnalysis.validateInputs. intros Hs Hf.
  destruct (selectedRunners runners); [|congruence].
  apply is_failed_iff in Hf. now rewrite Hf.
Qed.

Lemma base_validate_passes (analyses : StatusObject) (runners : RunnersArg) :
  selectedRunners runners <> None -> status analyses <> Some "failed" ->
  BaseRunnerAnalysis.validateInputs analyses runners = Return tt.
Proof.
  unfold BaseRunnerAnalysis.validateInputs. intros Hs Hf.
  destruct (selectedRunners runners); [|congruence].
  apply not_failed_iff in Hf. now rewrite Hf.
Qed.

Lemma base_validate_throws_iff (analyses : StatusObject) (runners : RunnersArg) :
  throws (BaseRunnerAnalysis.validateInputs analyses runners) <->
  selectedRunners runners = None \/ status analyses = Some "failed".
Proof.
  split.
  - intros [msg H].
    destruct (selectedRunners runners) as [ids|] eqn:Es; [|now left].
    right. destruct (is_failed analyses) eqn:E; [now apply is_failed_iff|].
    rewrite base_validate_passes in H; [discriminate|congruence|].
    now apply not_failed_iff.
  - intros [H|H].
    + eexists. now apply base_validate_missing.
    + destruct (selectedRunners runners) as [ids|] eqn:Es.
      * eexists. apply base_validate_failed; congruence.
      * eexists. now apply base_validate_missing.
Qed.

Lemma runner_analyses_validate_throws_iff (analyses : StatusObject) :
  throws (RunnerAnalyses.validateInputs analyses) <->
  status analyses = Some "failed".
Proof.
  unfold RunnerAnalyses.validateInputs, throws. rewrite <- is_failed_iff.
  destruct (is_failed analyses); split; eauto; try discriminate.
  intros [msg H]. discriminate.
Qed.

(** C4: an empty list of selected runners does not make validation throw. *)
Lemma empty_selection_is_not_rejected :
  let analyses := {| status := Some "success"; error := None |} in
  let runners := {| selectedRunners := Some []; allRunners := Sample.runners |} in
  BaseRunnerAnalysis.validateInputs analyses runners = Return tt
  /\ ~ throws (BaseRunnerAnalysis.validateInputs analyses runners)
  /\ ~ throws (RunnerAnalyses.validateInputs analyses).
Proof.
  simpl. split; [reflexivity|]. split; intros [msg H]; discriminate.
Qed.

(** ** The summary table *)

(** Claim C8.  The summary table is a total function with one row per
    selected runner.  For a listed runner with an analysis the row holds:
    the average fatigue to two decimals, or "N/A" when [fatigue_analysis] or
    [average_fatigue] is absent; the peak fatigue mile, or "N/A" when it is
    absent; the length of the nested rest collection, else the length of the
    flat array, else 0; the strongest terrain and the elevation tolerance,
    each "Unknown" when absent. *)
Theorem summary_projection_defaults (analyses : Analyses)
  (runners : list Runner) (selected : list Z) :
  List.length (updateMultiRunnerTable analyses runners selected)
  = List.length selected
  /\ (forall j i, nth_error selected j = Some i ->
        nth_error (updateMultiRunnerTable analyses runners selected) j
        = Some (summary_row analyses runners i))
  /\ (forall i, find_runner runners i = None \/ analysis_of analyses i = None ->
                summary_row analyses runners i = NotAvailable i)
  /\ (forall i runner a,
         find_runner runners i = Some runner ->
         analysis_of analyses i = Some a ->
         exists terrain tolerance,
           summary_row analyses runners i
           = SummaryRow (full_name runner) (avgFatigue_of a) (peakMile_of a)
               (Number (restCount_of a)) terrain tolerance
           /\ ((course_analysis a = None
                \/ exists c, course_analysis a = Some c
                             /\ strongest_terrain c = None) ->
               terrain = "Unknown")
           /\ ((course_analysis a = None
                \/ exists c, course_analysis a = Some c
                             /\ elevation_tolerance c = None) ->
               tolerance = "Unknown")
           /\ (forall c s, course_analysis a = Some c ->
                           strongest_terrain c = Some s -> s <> "" ->
                           terrain = s)
           /\ (forall c s, course_analysis a = Some c ->
                           elevation_tolerance c = Some s -> s <> "" ->
                           tolerance = s))
  /\ (forall a,
         (fatigue_analysis a = None ->
          avgFatigue_of a = Text "N/A" /\ peakMile_of a = Text "N/A")
         /\ (forall f, fatigue_analysis a = Some f ->
               (average_fatigue f = None -> avgFatigue_of a = Text "N/A")
               /\ (forall x, average_fatigue f = Some x ->
                             avgFatigue_of a = Fixed 2 x)
               /\ (peak_fatigue_mile f = None -> peakMile_of a = Text "N/A")
               /\ (forall x, peak_fatigue_mile f = Some x -> x <> 0%Qc ->
                             peakMile_of a = Number x))
         /\ (forall items, rest_periods a = Some (RestBundle (Some items)) ->
                           restCount_of a = of_nat (List.length items))
         /\ (forall items, rest_periods a = Some (RestArray items) ->
                           restCount_of a = of_nat (List.length items))
         /\ (rest_periods a = None \/ rest_periods a = Some (RestBundle None) ->
             restCount_of a = 0%Qc)).
Proof.
  split; [apply length_map|].
  split; [intros j i H; unfold updateMultiRunnerTable;
          now rewrite nth_error_map, H|].
  split; [intros i [H|H]; unfold summary_row; rewrite H; trivial;
          now destruct (find_runner runners i)|].
  split.
  - intros i runner a Hr Ha. unfold summary_row. rewrite Hr, Ha.
    eexists _, _. split; [reflexivity|].
    split; [|split; [|split]].
    + intros [->|(c & -> & ->)]; reflexivity.
    + intros [->|(c & -> & ->)]; reflexivity.
    + intros c s -> -> Hne. simpl. apply String.eqb_neq in Hne.
      now rewrite Hne.
    + intros c s -> -> Hne. simpl. apply String.eqb_neq in Hne.
      now rewrite Hne.
  - intro a. unfold avgFatigue_of, peakMile_of, restCount_of, nested_length,
      flat_length.
    split; [now intros ->|].
    split.
    { intros f ->. split; [now intros ->|]. split; [now intros x ->|].
      split; [now intros ->|].
      intros x -> Hne. destruct (eqb x 0%Qc) eqn:E; trivial.
      apply eqb_true_iff in E. congruence. }
    assert (Z0 : forall n, or_num_lit (Some (of_nat n)) 0%Qc = of_nat n).
    { intro n. unfold or_num_lit. destruct (eqb (of_nat n) 0%Qc) eqn:E; trivial.
      apply eqb_true_iff in E. congruence. }
    split; [|split].
    + intros items ->. unfold or_num, truthy_num.
      destruct (eqb (of_nat (List.length items)) 0%Qc) eqn:E; simpl.
      * apply eqb_true_iff in E. now rewrite E.
      * apply Z0.
    + intros items ->. unfold or_num. simpl. apply Z0.
    + intros [-> | ->]; reflexivity.
Qed.

(** C8 on the sample: Zoe's record has no [fatigue_analysis]. *)
Lemma summary_projection_defaults_sample :
  nth_error (updateMultiRunnerTable Sample.analyses Sample.runners
               Sample.selected) 2
  = Some (SummaryRow "Zoe Z" (Text "N/A") (Text "N/A") (Number (of_nat 2))
            "Unknown" "Unknown").
Proof.
  rewrite (proj1 (proj2 (summary_projection_defaults Sample.analyses
                           Sample.runners Sample.selected)) 2%nat 3%Z eq_refl).
  reflexivity.
Defined.

(** ** Statistics per segment name *)

Lemma existsb_eqb_In (n : string) (l : list string) :
  existsb (String.eqb n) l = true <-> In n l.
Proof.
  rewrite existsb_exists. split.
  - intros (m & Hm & E). apply String.eqb_eq in E. now subst.
  - intro H. exists n. split; trivial. apply String.eqb_refl.
Qed.

Lemma first_seen_snoc (l : list string) (n : string) :
  first_seen (l ++ [n])
  = if existsb (String.eqb n) (first_seen l) then first_seen l
    else first_seen l ++ [n].
Proof. unfold first_seen. now rewrite fold_left_app. Qed.

Lemma first_seen_snoc_new (l : list string) (n : string) :
  existsb (String.eqb n) (first_seen l) = false ->
  first_seen (l ++ [n]) = first_seen l ++ [n].
Proof. intro E. now rewrite first_seen_snoc, E. Qed.

Lemma first_seen_In (l : list string) (n : string) :
  In n (first_seen l) <-> In n l.
Proof.
  induction l as [|m l IH] using rev_ind; [reflexivity|].
  rewrite first_seen_snoc.
  destruct (existsb (String.eqb m) (first_seen l)) eqn:E.
  - apply existsb_eqb_In in E. rewrite in_app_iff, IH. simpl.
    split; [tauto|]. intros [H|[<-|[]]]; trivial. now apply IH.
  - rewrite !in_app_iff, IH. reflexivity.
Qed.

Lemma first_seen_NoDup (l : list string) : NoDup (first_seen l).
Proof.
  induction l as [|m l IH] using rev_ind; [constructor|].
  rewrite first_seen_snoc.
  destruct (existsb (String.eqb m) (first_seen l)) eqn:E; trivial.
  apply NoDup_app; trivial.
  - repeat constructor. intros [].
  - intros x Hx [<-|[]].
    apply existsb_eqb_In in Hx. congruence.
Qed.

Section OwnProperties.

Variable V : Type.
Variable f : string -> V.

Lemma own_map (names : list string) (n : string) :
  Object.own (map (fun m => (m, f m)) names) n
  = if existsb (String.eqb n) names then Some (f n) else None.
Proof.
  induction names as [|m names IH]; simpl; [reflexivity|].
  rewrite (String.eqb_sym n m).
  destruct (String.eqb m n) eqn:E; simpl; [|exact IH].
  apply String.eqb_eq in E. now subst.
Qed.

End OwnProperties.

Lemma record_perf_map (p : Perf) (f : string -> Stats) (names : list string) :
  NoDup names ->
  record_perf p (map (fun m => (m, f m)) names)
  = map (fun m => (m, if String.eqb m (perf_name p) then pushed p (f m)
                      else f m)) names.
Proof.
  induction 1 as [|m names Hm Hnd IH]; simpl; [reflexivity|].
  destruct (String.eqb m (perf_name p)) eqn:E.
  - f_equal. apply map_ext_in. intros k Hk.
    destruct (String.eqb k (perf_name p)) eqn:Ek; trivial.
    apply String.eqb_eq in E, Ek. congruence.
  - now rewrite IH.
Qed.

Lemma perfs_named_snoc (l : list Perf) (p : Perf) (n : string) :
  perfs_named (l ++ [p]) n
  = perfs_named l n ++ (if String.eqb (perf_name p) n then [p] else []).
Proof.
  unfold perfs_named. rewrite filter_app. simpl.
  now destruct (String.eqb (perf_name p) n).
Qed.

Lemma stats_of_snoc (l : list Perf) (p : Perf) (n : string) :
  stats_of (l ++ [p]) n
  = if String.eqb n (perf_name p) then pushed p (stats_of l n)
    else stats_of l n.
Proof.
  unfold stats_of, pushed. rewrite perfs_named_snoc, (String.eqb_sym n).
  destruct (String.eqb (perf_name p) n); simpl.
  - now rewrite !map_app, length_app, Nat.add_1_r.
  - now rewrite app_nil_r.
Qed.

Lemma stats_of_unseen (l : list Perf) (n : string) :
  ~ In n (map perf_name l) -> stats_of l n = empty_stats.
Proof.
  intro H. unfold stats_of, perfs_named.
  replace (filter (fun p => String.eqb (perf_name p) n) l) with (@nil Perf);
    [reflexivity|].
  symmetry. induction l as [|q l IH]; simpl; [reflexivity|].
  destruct (String.eqb (perf_name q) n) eqn:E.
  - apply String.eqb_eq in E. exfalso. apply H. now left.
  - apply IH. intro Hin. apply H. now right.
Qed.

Lemma stats_step_plain (l : list Perf) (p : Perf) :
  Object.inherited (perf_name p) = false ->
  stats_step (stats_by_name l) p = Return (stats_by_name (l ++ [p])).
Proof.
  intro Hp. unfold stats_step, stats_by_name.
  rewrite own_map.
  replace (map perf_name (l ++ [p])) with (map perf_name l ++ [perf_name p])
    by now rewrite map_app.
  rewrite first_seen_snoc.
  destruct (existsb (String.eqb (perf_name p)) (first_seen (map perf_name l)))
    eqn:E.
  - f_equal. rewrite record_perf_map by apply first_seen_NoDup.
    apply map_ext. intro m. now rewrite stats_of_snoc.
  - rewrite Hp. f_equal.
    assert (Hnew : ~ In (perf_name p) (map perf_name l)).
    { intro H. apply first_seen_In, existsb_eqb_In in H. congruence. }
    rewrite <- (stats_of_unseen l (perf_name p) Hnew).
    change (map (fun n => (n, stats_of l n)) (first_seen (map perf_name l))
            ++ [(perf_name p, stats_of l (perf_name p))])
      with (map (fun n => (n, stats_of l n)) (first_seen (map perf_name l))
            ++ map (fun n => (n, stats_of l n)) [perf_name p]).
    rewrite <- map_app, record_perf_map.
    + apply map_ext. intro m. now rewrite stats_of_snoc.
    + rewrite <- first_seen_snoc_new by exact E. apply first_seen_NoDup.
Qed.

Lemma plain_names_app (l l' : list Perf) :
  plain_names (l ++ l') = plain_names l && plain_names l'.
Proof. apply forallb_app. Qed.

Lemma segmentStats_plain (perfs : list Perf) :
  plain_names perfs = true -> segmentStats perfs = Return (stats_by_name perfs).
Proof.
  unfold segmentStats.
  induction perfs as [|p l IH] using rev_ind; [reflexivity|].
  rewrite plain_names_app, andb_true_iff. intros [Hl Hp].
  rewrite forEach_app, (IH Hl). simpl.
  rewrite stats_step_plain; [reflexivity|].
  simpl in Hp. rewrite andb_true_r in Hp. now apply negb_true_iff.
Qed.

(** ** Sums and permutations *)

Lemma filter_perm {A : Type} (p : A -> bool) (l l' : list A) :
  Permutation l l' -> Permutation (filter p l) (filter p l').
Proof.
  induction 1 as [|x l l' _ IH|x y l|l l' l'' _ IH1 _ IH2]; simpl.
  - constructor.
  - destruct (p x); [now constructor|exact IH].
  - destruct (p x), (p y); try reflexivity. apply perm_swap.
  - now transitivity (filter p l').
Qed.

Lemma filter_split_perm {A : Type} (p : A -> bool) (l : list A) :
  Permutation (filter p l ++ filter (fun x => negb (p x)) l) l.
Proof.
  induction l as [|x l IH]; simpl; [constructor|].
  destruct (p x); simpl.
  - now constructor.
  - rewrite <- Permutation_middle. now constructor.
Qed.

Lemma entries_perm {V : Type} (o : list (string * V)) :
  Permutation (Object.entries o) o.
Proof.
  unfold Object.entries. rewrite sort_perm. apply filter_split_perm.
Qed.

Lemma entries_no_index {V : Type} (o : list (string * V)) :
  Forall (fun e => Object.array_index (fst e) = None) o ->
  Object.entries o = o.
Proof.
  intro H. unfold Object.entries.
  assert (Hx : forall e, In e o -> Object.is_index e = false).
  { rewrite Forall_forall in H. intros e He. unfold Object.is_index.
    now rewrite (H e He). }
  assert (Hi : filter Object.is_index o = []).
  { clear H. induction o as [|e o IH]; simpl; [reflexivity|].
    rewrite (Hx e) by now left. apply IH. intros x Hin. apply Hx. now right. }
  assert (Hn : filter (fun e => negb (Object.is_index e)) o = o).
  { clear H Hi. induction o as [|e o IH]; simpl; [reflexivity|].
    rewrite (Hx e) by now left. simpl. f_equal. apply IH.
    intros x Hin. apply Hx. now right. }
  now rewrite Hi, Hn.
Qed.

Lemma first_seen_perm (l l' : list string) :
  Permutation l l' -> Permutation (first_seen l) (first_seen l').
Proof.
  intro H. apply NoDup_Permutation; try apply first_seen_NoDup.
  intro n. rewrite !first_seen_In.
  split; apply Permutation_in; [exact H|now apply Permutation_sym].
Qed.

Lemma candidates_by_name (perfs : list Perf) :
  map summarize (stats_by_name perfs)
  = map (summary_of perfs) (first_seen (map perf_name perfs)).
Proof. unfold stats_by_name. now rewrite map_map. Qed.

(** ** The descending sort *)

Lemma Qcopp_lt_iff (a b : num) : (- b < - a)%Qc <-> (a < b)%Qc.
Proof.
  rewrite (Qclt_minus_iff (- b) (- a)), (Qclt_minus_iff a b).
  now rewrite Qcopp_involutive, Qcplus_comm.
Qed.

Lemma Qcopp_le_iff (a b : num) : (- b <= - a)%Qc <-> (a <= b)%Qc.
Proof.
  split; intro H.
  - apply Qcopp_le_compat in H. now rewrite !Qcopp_involutive in H.
  - now apply Qcopp_le_compat.
Qed.

Lemma StronglySorted_weaken {A : Type} (R R' : A -> A -> Prop) (l : list A) :
  (forall a b, R a b -> R' a b) -> StronglySorted R l -> StronglySorted R' l.
Proof.
  intros HR. induction 1 as [|a l _ IH Ha]; constructor; trivial.
  eapply Forall_impl; [|exact Ha]. intros b. apply HR.
Qed.

Lemma eqb_opp (a b : num) : eqb (- a)%Qc (- b)%Qc = eqb a b.
Proof.
  destruct (eqb a b) eqn:E.
  - apply eqb_true_iff in E. subst. now apply eqb_true_iff.
  - destruct (eqb (- a)%Qc (- b)%Qc) eqn:E'; trivial.
    apply eqb_true_iff in E'. apply (f_equal Qcopp) in E'.
    rewrite !Qcopp_involutive in E'. apply eqb_true_iff in E'. congruence.
Qed.

(** ** The order of [Object.entries] *)

Lemma Q2Qc_inject_lt (x y : Z) :
  (Q2Qc (inject_Z x) < Q2Qc (inject_Z y))%Qc <-> (x < y)%Z.
Proof.
  unfold Qclt, Q2Qc, this. rewrite !Qred_correct, <- Zlt_Qlt. reflexivity.
Qed.

Lemma Q2Qc_inject_le (x y : Z) :
  (Q2Qc (inject_Z x) <= Q2Qc (inject_Z y))%Qc <-> (x <= y)%Z.
Proof.
  unfold Qcle, Q2Qc, this. rewrite !Qred_correct, <- Zle_Qle. reflexivity.
Qed.

Lemma by_index_key {V : Type} (a b : string * V) :
  gtb (Object.by_index a b) 0%Qc = true <->
  (Q2Qc (inject_Z (Object.index_of b)) < Q2Qc (inject_Z (Object.index_of a)))%Qc.
Proof.
  unfold Object.by_index. rewrite gtb_true_iff, Q2Qc_inject_lt.
  change 0%Qc with (Q2Qc (inject_Z 0)). rewrite Q2Qc_inject_lt. lia.
Qed.

Lemma index_entries_sorted {V : Type} (o : list (string * V)) :
  StronglySorted (fun a b => (Object.index_of a <= Object.index_of b)%Z)
    (Js.sort Object.by_index (filter Object.is_index o)).
Proof.
  eapply StronglySorted_weaken;
    [|apply (sort_sorted _ _ (fun e => Q2Qc (inject_Z (Object.index_of e)))
               by_index_key)].
  intros a b. unfold key_le. apply Q2Qc_inject_le.
Qed.

(** ** The ranking of critical segments *)

Lemma recommendations_plain (analyses : Analyses) (selected : list Z) :
  plain_names (segmentPerformances analyses selected) = true ->
  updateRecommendationsMultiRunner analyses selected
  = Return (criticalSegments
              (stats_by_name (segmentPerformances analyses selected))).
Proof.
  intro H. unfold updateRecommendationsMultiRunner.
  now rewrite (segmentStats_plain _ H).
Qed.

(** * Further properties *)

(** ** Selecting runners *)

Lemma includes_In (selected : list Z) (x : Z) :
  Runners.includes selected x = true <-> In x selected.
Proof.
  unfold Runners.includes. rewrite existsb_exists. split.
  - intros (y & Hy & E). apply Z.eqb_eq in E. now subst.
  - intro H. exists x. split; trivial. apply Z.eqb_refl.
Qed.

Lemma includes_false (selected : list Z) (x : Z) :
  Runners.includes selected x = false <-> ~ In x selected.
Proof.
  rewrite <- includes_In. now destruct (Runners.includes selected x).
Qed.

Lemma remove_In (selected : list Z) (x y : Z) :
  In y (filter (fun i => negb (Z.eqb i x)) selected) <-> y <> x /\ In y selected.
Proof.
  rewrite filter_In, negb_true_iff, Z.eqb_neq. tauto.
Qed.

Lemma remove_length (selected : list Z) (x : Z) :
  In x selected ->
  (List.length (filter (fun i => negb (Z.eqb i x)) selected)
   < List.length selected)%nat.
Proof.
  induction selected as [|y l IH]; simpl; [tauto|].
  intros [->|H].
  - rewrite Z.eqb_refl. simpl.
    pose proof (filter_length_le (fun i => negb (Z.eqb i x)) l). lia.
  - destruct (negb (Z.eqb y x)); simpl.
    + specialize (IH H). lia.
    + pose proof (filter_length_le (fun i => negb (Z.eqb i x)) l). lia.
Qed.

Lemma remove_absent (selected : list Z) (x : Z) :
  ~ In x selected -> filter (fun i => negb (Z.eqb i x)) selected = selected.
Proof.
  induction selected as [|y l IH]; simpl; [reflexivity|].
  intro H. destruct (Z.eqb_spec y x) as [->|Hne]; simpl.
  - exfalso. apply H. now left.
  - f_equal. apply IH. tauto.
Qed.

Lemma selectRunner_cases (selected : list Z) (x : Z) :
  (In x selected
   /\ Runners.selectRunner selected x
      = (filter (fun i => negb (Z.eqb i x)) selected, Runners.Deselected))
  \/ (~ In x selected /\ (List.length selected < 5)%nat
      /\ Runners.selectRunner selected x
         = (selected ++ [x], Runners.Selected))
  \/ (~ In x selected /\ (5 <= List.length selected)%nat
      /\ Runners.selectRunner selected x = (selected, Runners.Refused)).
Proof.
  unfold Runners.selectRunner.
  destruct (Runners.includes selected x) eqn:E.
  - left. apply includes_In in E. auto.
  - apply includes_false in E. right.
    destruct (Nat.ltb_spec (List.length selected) 5); [left|right]; auto.
Qed.

Lemma selectRunner_keeps (selected : list Z) (x : Z) :
  NoDup selected -> (List.length selected <= 5)%nat ->
  NoDup (fst (Runners.selectRunner selected x))
  /\ (List.length (fst (Runners.selectRunner selected x)) <= 5)%nat.
Proof.
  intros Hnd Hlen.
  destruct (selectRunner_cases selected x)
    as [[Hin ->]|[(Hout & Hlt & ->)|(Hout & Hge & ->)]]; simpl.
  - split; [now apply NoDup_filter|].
    pose proof (remove_length selected x Hin). lia.
  - split.
    + apply NoDup_app; trivial.
      * repeat constructor. intros [].
      * intros y Hy [<-|[]]. contradiction.
    + rewrite length_app. simpl. lia.
  - auto.
Qed.

Lemma clicks_keep (ids selected : list Z) :
  NoDup selected -> (List.length selected <= 5)%nat ->
  NoDup (Runners.clicks selected ids)
  /\ (List.length (Runners.clicks selected ids) <= 5)%nat.
Proof.
  revert selected. unfold Runners.clicks.
  induction ids as [|x ids IH]; intros selected Hnd Hlen; simpl; [auto|].
  destruct (selectRunner_keeps selected x Hnd Hlen). now apply IH.
Qed.

(** Property X1.
    Whatever cards are clicked, in whatever order, starting from the empty
    selection or after [clearSelections], at most five runners are selected
    and none is selected twice. *)
Theorem selection_is_small_and_distinct (before after : list Z) :
  let cleared := Runners.clearSelections (Runners.clicks [] before) in
  NoDup (Runners.clicks [] before)
  /\ (List.length (Runners.clicks [] before) <= 5)%nat
  /\ NoDup (Runners.clicks cleared after)
  /\ (List.length (Runners.clicks cleared after) <= 5)%nat.
Proof.
  intro cleared.
  destruct (clicks_keep before []) as [H1 H2];
    [constructor|simpl; lia|].
  destruct (clicks_keep after cleared) as [H3 H4];
    [constructor|simpl; lia|].
  auto.
Qed.

(** Property X2.
    Selecting a runner who is not selected, below the limit, and clicking
    the same card again gives back the selection as it was. *)
Theorem select_then_deselect (selected : list Z) (x : Z)
  (absent : ~ In x selected) (room : (List.length selected < 5)%nat) :
  Runners.selectRunner selected x = (selected ++ [x], Runners.Selected)
  /\ Runners.selectRunner (selected ++ [x]) x
     = (selected, Runners.Deselected).
Proof.
  destruct (selectRunner_cases selected x)
    as [[Hin _]|[(_ & _ & E)|(_ & Hge & _)]]; [contradiction| |lia].
  split; [exact E|].
  destruct (selectRunner_cases (selected ++ [x]) x)
    as [[_ ->]|[(Hout & _)|(Hout & _)]].
  - f_equal. rewrite filter_app. simpl. rewrite Z.eqb_refl. simpl.
    rewrite app_nil_r. now apply remove_absent.
  - exfalso. apply Hout, in_or_app. right. now left.
  - exfalso. apply Hout, in_or_app. right. now left.
Qed.

(** Property X3.
    A click on the card of [x] changes the membership of [x] only: another
    runner is selected afterwards exactly when it was before, and [x] is
    selected afterwards exactly when it was not and fewer than five were.
    The action is skipped exactly when a sixth runner is refused, and then
    the selection is unchanged. *)
Theorem click_changes_one_membership (selected : list Z) (x : Z) :
  (forall y, In y (fst (Runners.selectRunner selected x)) <->
             (y <> x /\ In y selected)
             \/ (y = x /\ ~ In x selected
                 /\ (List.length selected < 5)%nat))
  /\ (Runners.action_called (snd (Runners.selectRunner selected x)) = false
      <-> ~ In x selected /\ (5 <= List.length selected)%nat)
  /\ (Runners.action_called (snd (Runners.selectRunner selected x)) = false
      -> fst (Runners.selectRunner selected x) = selected).
Proof.
  destruct (selectRunner_cases selected x)
    as [[Hin ->]|[(Hout & Hlt & ->)|(Hout & Hge & ->)]]; simpl.
  - split; [|split].
    + intro y. rewrite remove_In. tauto.
    + split; [discriminate|tauto].
    + discriminate.
  - split; [|split].
    + intro y. rewrite in_app_iff. simpl. split.
      * intros [H|[<-|[]]]; [|tauto].
        left. split; trivial. intros ->. contradiction.
      * intros [[_ H]|[-> _]]; auto.
    + split; [discriminate|]. intros [_ H]. lia.
    + discriminate.
  - split; [|split].
    + intro y. split.
      * intro H. left. split; trivial. intros ->. contradiction.
      * intros [[_ H]|(_ & _ & H)]; [trivial|lia].
    + tauto.
    + reflexivity.
Qed.

(** Property X4.
    After any series of clicks the button is disabled exactly when nobody
    is selected, and "Compare n Runners" is shown only for [n] the number
    of selected runners, from 2 to 5. *)
Theorem button_follows_selection (ids : list Z) :
  let selected := Runners.clicks [] ids in
  let button := AnalysisButton.update selected in
  (AnalysisButton.disabled button = true <-> selected = [])
  /\ (AnalysisButton.label button = AnalysisButton.RunAdvanced
      <-> selected = [])
  /\ (AnalysisButton.label button = AnalysisButton.RunSingle
      <-> List.length selected = 1%nat)
  /\ (forall n, AnalysisButton.label button = AnalysisButton.Compare n ->
                n = List.length selected /\ (2 <= n <= 5)%nat).
Proof.
  intros selected button.
  destruct (clicks_keep ids []) as [_ Hlen]; [constructor|simpl; lia|].
  fold selected in Hlen. unfold button, AnalysisButton.update. simpl.
  destruct selected as [|a [|b l]]; simpl in *.
  - repeat split; try discriminate; auto.
  - repeat split; try discriminate; auto.
  - split; [split; discriminate|]. split; [split; discriminate|].
    split; [split; discriminate|].
    intros n [= <-]. split; [reflexivity|lia].
Qed.

(** ** More on the rest period view *)

Lemma allRestPeriods_throws (analyses : Analyses) (i : Z) :
  (exists msg, allRestPeriods (analysis_of analyses i) = Throw msg) <->
  exists a, analysis_of analyses i = Some a
            /\ rest_periods a = Some (RestBundle None).
Proof.
  unfold allRestPeriods.
  destruct (analysis_of analyses i) as [a|].
  - destruct (rest_periods a) as [[items|[items|]]|] eqn:E.
    + split; [intros [msg H]; discriminate|].
      intros (a' & [= <-] & H). congruence.
    + split; [intros [msg H]; discriminate|].
      intros (a' & [= <-] & H). congruence.
    + split; eauto.
    + split; [intros [msg H]; discriminate|].
      intros (a' & [= <-] & H). congruence.
  - split; [intros [msg H]; discriminate|].
    intros (a & H & _). discriminate.
Qed.

Lemma inputs_ok_false (analyses : Analyses) (all : list Runner)
  (selected : list Z) :
  inputs_ok analyses all selected = false <->
  exists i, In i selected /\ breaks_rest_view analyses all i.
Proof.
  unfold inputs_ok, breaks_rest_view. split.
  - intro H.
    destruct (forallb _ selected) eqn:E in H; [discriminate|]. clear H.
    induction selected as [|i l IH]; simpl in E; [discriminate|].
    apply andb_false_iff in E. destruct E as [E|E].
    + exists i. split; [now left|].
      destruct (find_runner all i); [|now left]. right.
      apply allRestPeriods_throws.
      destruct (allRestPeriods (analysis_of analyses i)); [discriminate|eauto].
    + destruct (IH E) as (j & Hj & Hb). exists j. split; [now right|exact Hb].
  - intros (i & Hi & Hb).
    destruct (forallb _ selected) eqn:E; [|reflexivity].
    rewrite forallb_forall in E. specialize (E i Hi).
    destruct Hb as [Hb|Hb].
    + now rewrite Hb in E.
    + apply allRestPeriods_throws in Hb. destruct Hb as [msg Hb].
      rewrite Hb in E. now destruct (find_runner all i).
Qed.

Lemma collect_needs_arrays (analyses : Analyses) (all : list Runner)
  (selected : list Z) (acc rests : list RunnerRest) :
  forEach (collect_step analyses all) selected acc = Return rests ->
  forall i, In i selected ->
            exists items, allRestPeriods (analysis_of analyses i) = Return items.
Proof.
  revert acc. induction selected as [|j l IH]; intros acc H i Hi;
    [contradiction|].
  simpl in H. unfold collect_step at 1 in H.
  destruct (allRestPeriods (analysis_of analyses j)) as [items|] eqn:E;
    simpl in H; [|discriminate].
  destruct (tag_rests _ j (restPeriods items)) as [tagged|]; simpl in H;
    [|discriminate].
  destruct Hi as [<-|Hi]; [eauto|]. exact (IH _ H i Hi).
Qed.

Lemma headers_need_runners (all : list Runner) (selected : list Z)
  (acc headers : list string) :
  forEach (header_step all) selected acc = Return headers ->
  forall i, In i selected -> find_runner all i <> None.
Proof.
  revert acc. induction selected as [|j l IH]; intros acc H i Hi;
    [contradiction|].
  simpl in H. unfold header_step at 1 in H.
  destruct (find_runner all j) as [rn|] eqn:E; simpl in H; [|discriminate].
  destruct Hi as [<-|Hi]; [congruence|]. exact (IH _ H i Hi).
Qed.

(** Property X6.
    With some analyses and some selected runners, building the markup of
    the rest period view (all that the method does before it draws the pace
    chart) throws exactly when a selected runner is not listed in
    [allRunners] or has a rest bundle without its array; otherwise the
    markup has its headers and rows. *)
Theorem rest_view_throws_iff (analyses : Analyses) (all : list Runner)
  (selected : list Z)
  (some_analyses : analyses <> []) (some_selected : selected <> []) :
  (throws (updateRestPeriodsListMultiRunner analyses all selected) <->
   exists i, In i selected /\ breaks_rest_view analyses all i)
  /\ ((forall i, In i selected -> ~ breaks_rest_view analyses all i) ->
      exists headers rows,
        updateRestPeriodsListMultiRunner analyses all selected
        = Return (RestCards headers rows)).
Proof.
  rewrite <- inputs_ok_false.
  rewrite update_rest_periods_unfold by assumption.
  destruct (inputs_ok analyses all selected) eqn:Ok.
  - unfold allRunnerRestPeriods, runner_headers.
    rewrite (collect_ok _ _ _ [] Ok), (headers_ok _ _ _ [] Ok). simpl.
    split; [|eauto].
    split; [intros [msg H]; discriminate|discriminate].
  - assert (T : throws (all0 <- allRunnerRestPeriods analyses all selected;;
                        headers <- runner_headers all selected;;
                        Return (RestCards headers
                                  (group_rows selected (restGroups all0))))).
    { unfold allRunnerRestPeriods, runner_headers.
      destruct (forEach (collect_step analyses all) selected [])
        as [rests|msg] eqn:C; simpl; [|now exists msg].
      destruct (forEach (header_step all) selected []) as [headers|msg] eqn:H;
        simpl; [|now exists msg].
      exfalso. assert (Ok' : inputs_ok analyses all selected = true).
      { unfold inputs_ok. apply forallb_forall. intros i Hi.
        pose proof (headers_need_runners _ _ _ _ H i Hi) as Hr.
        destruct (collect_needs_arrays _ _ _ _ _ C i Hi) as [items Hitems].
        rewrite Hitems. now destruct (find_runner all i). }
      congruence. }
    split; [tauto|].
    intro Hnone. exfalso.
    apply inputs_ok_false in Ok. destruct Ok as (i & Hi & Hb).
    exact (Hnone i Hi Hb).
Qed.

(** Property X7.
    The groups partition the collected rest periods: every rest period is
    in exactly one group, no group is empty, and there are at most as many
    groups as rest periods. *)
Theorem groups_partition_the_rests (rests : list RunnerRest) :
  Permutation (List.concat (restGroups rests)) rests
  /\ Forall (fun group => group <> []) (restGroups rests)
  /\ (List.length (restGroups rests) <= List.length rests)%nat.
Proof.
  assert (P : Permutation (List.concat (restGroups rests)) rests).
  { unfold restGroups.
    rewrite <- (map_id (Js.sort by_avg_mile (grouped (sorted_rests rests)))),
      <- flat_map_concat_map.
    rewrite (sort_perm _ by_avg_mile), flat_map_concat_map, map_id.
    rewrite grouped_perm. apply sort_perm. }
  assert (N : Forall (fun group => group <> []) (restGroups rests)).
  { eapply Forall_impl; [|apply restGroups_uniform]. now intros g [H _]. }
  split; [exact P|]. split; [exact N|].
  rewrite <- (Permutation_length P).
  clear P. induction N as [|g groups Hg _ IH]; simpl; [lia|].
  rewrite length_app. destruct g; [congruence|]. simpl. lia.
Qed.

(** ** Means *)



(** ** The order inside a group *)

Lemma StronglySorted_snoc {A : Type} (R : A -> A -> Prop) (l : list A) (r : A) :
  StronglySorted R l -> (forall x, In x l -> R x r) ->
  StronglySorted R (l ++ [r]).
Proof.
  induction 1 as [|a l Hs IH Ha]; intro H; simpl.
  - repeat constructor.
  - constructor.
    + apply IH. intros x Hx. apply H. now right.
    + apply Forall_app. split; trivial.
      constructor; [|constructor]. apply H. now left.
Qed.

(** Property X9.
    The station on a placeholder card is the aid station of the group; it
    is the empty string only for the group of rest periods without a
    station, whose aid station is "Unknown". *)
Theorem placeholder_names_the_group (rests group : list RunnerRest)
  (x : RunnerRest)
  (member : In group (restGroups rests)) (inside : In x group) :
  nearbyAidStation group = restAidStation x
  \/ (restAidStation x = "Unknown" /\ nearbyAidStation group = "").
Proof.
  pose proof (restGroups_uniform rests) as U.
  rewrite Forall_forall in U. destruct (U group member) as [_ Hall].
  destruct (nearbyAidStation_cases group) as [(y & Hy & Hn & Hne)|[He Hnone]].
  - left. pose proof (Hall x inside) as Hx. rewrite (Hall y Hy) in Hx.
    injection Hx as <-. unfold restAidStation. rewrite Hn. simpl.
    apply String.eqb_neq in Hne. now rewrite Hne.
  - right. split; [|exact He].
    specialize (Hnone x inside). unfold restAidStation, truthy_str in *.
    destruct (nearby_aid_station (rest x)) as [s|]; [|reflexivity].
    simpl. apply negb_false_iff in Hnone. now rewrite Hnone.
Qed.

(** ** The numbering of the rows *)

Lemma mapi_from_index (selected : list Z) (h : bool) (start : nat)
  (groups : list (list RunnerRest)) :
  map groupIndex (mapi_from (group_row selected h) start groups)
  = seq start (List.length groups).
Proof.
  revert start. induction groups as [|g l IH]; intro start; simpl; [reflexivity|].
  now rewrite IH.
Qed.

Lemma group_rows_index (selected : list Z) (groups : list (list RunnerRest)) :
  map groupIndex (group_rows selected groups) = seq 0 (List.length groups).
Proof.
  unfold group_rows, slice_to, slice_from.
  rewrite map_app, !mapi_from_index, length_firstn, length_skipn.
  set (v := Nat.min 3 (List.length groups)).
  replace (List.length groups) with (Nat.min v (List.length groups)
                                    + (List.length groups - v))%nat at 3
    by lia.
  rewrite seq_app. f_equal. f_equal. lia.
Qed.

Lemma group_rows_hidden (selected : list Z) (groups : list (list RunnerRest))
  (row : GroupRow) :
  In row (group_rows selected groups) ->
  hidden row = (3 <=? groupIndex row)%nat.
Proof.
  intro H. apply In_nth_error in H. destruct H as [i Hi].
  assert (Hlt : (i < List.length groups)%nat).
  { rewrite <- (group_rows_length selected). apply nth_error_Some. congruence. }
  destruct (nth_error groups i) as [g|] eqn:Hg.
  - rewrite (group_rows_nth selected groups i g Hg) in Hi.
    injection Hi as <-. reflexivity.
  - apply nth_error_None in Hg. lia.
Qed.

Lemma headers_returns (all : list Runner) (selected : list Z)
  (acc headers : list string) :
  forEach (header_step all) selected acc = Return headers ->
  headers = acc ++ map (runner_name all) selected.
Proof.
  revert acc. induction selected as [|i l IH]; intro acc; simpl.
  - intros [= <-]. now rewrite app_nil_r.
  - unfold header_step at 1, runner_name at 1.
    destruct (find_runner all i) as [rn|]; simpl; [|discriminate].
    intro H. apply IH in H. now rewrite H, <- app_assoc.
Qed.

(** Property X10.
    When the rest period view renders, its headers are the names of the
    selected runners in the order of the selection, its rows are numbered
    0, 1, 2, ... in the order of the groups, and exactly the rows from
    number 3 on are hidden behind "Show more". *)
Theorem rows_are_numbered (analyses : Analyses) (all : list Runner)
  (selected : list Z) (headers : list string) (rows : list GroupRow)
  (rendered : updateRestPeriodsListMultiRunner analyses all selected
              = Return (RestCards headers rows)) :
  headers = map (runner_name all) selected
  /\ map groupIndex rows = seq 0 (List.length rows)
  /\ (forall row, In row rows ->
                  hidden row = (3 <=? groupIndex row)%nat)
  /\ List.length (filter hidden rows) = (List.length rows - 3)%nat.
Proof.
  assert (Hrows : exists groups, rows = group_rows selected groups
                                 /\ headers = map (runner_name all) selected).
  { unfold updateRestPeriodsListMultiRunner in rendered.
    destruct analyses as [|a0 analyses']; [discriminate|].
    destruct selected as [|s0 selected']; [discriminate|].
    destruct (allRunnerRestPeriods _ all _) as [rests|]; simpl in rendered;
      [|discriminate].
    destruct (runner_headers all (s0 :: selected')) as [h|] eqn:Hh;
      simpl in rendered; [|discriminate].
    injection rendered as <- <-. exists (restGroups rests).
    split; [reflexivity|]. exact (headers_returns _ _ [] _ Hh). }
  destruct Hrows as (groups & -> & ->).
  split; [reflexivity|].
  split; [now rewrite group_rows_index, group_rows_length|].
  split; [apply group_rows_hidden|].
  rewrite group_rows_length.
  unfold group_rows, slice_to, slice_from.
  rewrite filter_app, length_app.
  assert (Hv : forall h s l,
             List.length (filter hidden (mapi_from (group_row selected h) s l))
             = if h then List.length l else 0%nat).
  { intros h s l. revert s. induction l as [|g l IH]; intro s; simpl.
    - now destruct h.
    - destruct h; simpl; rewrite IH; reflexivity. }
  rewrite !Hv, length_skipn. lia.
Qed.

(** ** More on the ranking of critical segments *)

Lemma first_inherited (perfs : list Perf) :
  plain_names perfs = false ->
  exists l1 p l2,
    perfs = l1 ++ p :: l2 /\ plain_names l1 = true
    /\ Object.inherited (perf_name p) = true.
Proof.
  induction perfs as [|q l IH]; [discriminate|].
  unfold plain_names in *. simpl.
  destruct (Object.inherited (perf_name q)) eqn:E; simpl.
  - intros _. exists [], q, l. auto.
  - intro H. destruct (IH H) as (l1 & p & l2 & -> & Hl1 & Hp).
    exists (q :: l1), p, l2. simpl. rewrite E. auto.
Qed.

Lemma plain_names_In (perfs : list Perf) (p : Perf) :
  plain_names perfs = true -> In p perfs ->
  Object.inherited (perf_name p) = false.
Proof.
  unfold plain_names. rewrite forallb_forall. intros H Hp.
  apply negb_true_iff. now apply H.
Qed.

Lemma segmentStats_inherited (l1 l2 : list Perf) (p : Perf) :
  plain_names l1 = true -> Object.inherited (perf_name p) = true ->
  segmentStats (l1 ++ p :: l2)
  = Throw "TypeError: Cannot read properties of undefined (reading 'push')".
Proof.
  intros Hl1 Hp. unfold segmentStats. rewrite forEach_app.
  fold (segmentStats l1). rewrite (segmentStats_plain l1 Hl1). simpl.
  unfold stats_step, stats_by_name. rewrite own_map.
  destruct (existsb (String.eqb (perf_name p)) (first_seen (map perf_name l1)))
    eqn:E.
  - apply existsb_eqb_In, first_seen_In, in_map_iff in E.
    destruct E as (q & Hq & Hin).
    pose proof (plain_names_In l1 q Hl1 Hin) as Hplain. congruence.
  - now rewrite Hp.
Qed.

(** Property X11.
    The ranking of critical segments throws exactly when a selected runner
    has a segment whose name is a property that plain objects inherit, such
    as "constructor" or "toString"; otherwise it returns a ranking. *)
Theorem recommendations_throw_iff (analyses : Analyses) (selected : list Z) :
  (throws (updateRecommendationsMultiRunner analyses selected) <->
   exists p, In p (segmentPerformances analyses selected)
             /\ In (perf_name p) Object.prototype_keys)
  /\ ((forall p, In p (segmentPerformances analyses selected) ->
                 ~ In (perf_name p) Object.prototype_keys) ->
      exists ranking,
        updateRecommendationsMultiRunner analyses selected = Return ranking).
Proof.
  set (perfs := segmentPerformances analyses selected).
  assert (inherited_In : forall n, Object.inherited n = true <->
                                   In n Object.prototype_keys).
  { intro n. unfold Object.inherited. apply existsb_eqb_In. }
  destruct (plain_names perfs) eqn:Plain.
  - rewrite (recommendations_plain _ _ Plain). split; [|eauto].
    split; [intros [msg H]; discriminate|].
    intros (p & Hp & Hk). apply inherited_In in Hk.
    rewrite (plain_names_In perfs p Plain Hp) in Hk. discriminate.
  - destruct (first_inherited perfs Plain) as (l1 & p & l2 & E & Hl1 & Hp).
    assert (T : throws (updateRecommendationsMultiRunner analyses selected)).
    { unfold updateRecommendationsMultiRunner. fold perfs.
      rewrite E, (segmentStats_inherited l1 l2 p Hl1 Hp). simpl.
      eexists. reflexivity. }
    assert (W : exists q, In q perfs /\ In (perf_name q) Object.prototype_keys).
    { exists p. split; [|now apply inherited_In].
      rewrite E. apply in_or_app. right. now left. }
    split; [tauto|].
    intro H. destruct W as (q & Hq & Hk). exfalso. exact (H q Hq Hk).
Qed.

Lemma NoDup_firstn {A : Type} (n : nat) (l : list A) :
  NoDup l -> NoDup (firstn n l).
Proof.
  intro H. rewrite <- (firstn_skipn n l) in H.
  exact (NoDup_app_remove_r _ _ H).
Qed.

(** Property X12.
    A ranking that is returned lists at most five segments, each of them
    once, and as many as there are distinct segment names when these are
    fewer than five. *)
Theorem ranking_lists_each_segment_once (analyses : Analyses)
  (selected : list Z) (ranking : list CriticalSegment)
  (returned : updateRecommendationsMultiRunner analyses selected
              = Return ranking) :
  let names := map perf_name (segmentPerformances analyses selected) in
  NoDup (map name ranking)
  /\ List.length ranking = Nat.min 5 (List.length (first_seen names))
  /\ (forall c, In c ranking -> In (name c) names).
Proof.
  intro names.
  set (perfs := segmentPerformances analyses selected) in *.
  assert (Plain : plain_names perfs = true).
  { destruct (plain_names perfs) eqn:P; trivial.
    destruct (first_inherited perfs P) as (l1 & p & l2 & E & Hl1 & Hp).
    unfold updateRecommendationsMultiRunner in returned. fold perfs in returned.
    rewrite E, (segmentStats_inherited l1 l2 p Hl1 Hp) in returned.
    discriminate. }
  rewrite (recommendations_plain _ _ Plain) in returned.
  injection returned as <-. fold perfs. unfold criticalSegments, slice_to.
  set (candidates := map summarize (Object.entries (stats_by_name perfs))).
  assert (Hnames : Permutation (map name (Js.sort by_difficulty_desc candidates))
                     (first_seen names)).
  { rewrite (sort_perm _ by_difficulty_desc). unfold candidates.
    rewrite entries_perm, candidates_by_name, map_map.
    rewrite (map_ext _ (fun n => n)); [now rewrite map_id|reflexivity]. }
  split; [|split].
  - rewrite <- firstn_map. apply NoDup_firstn.
    eapply Permutation_NoDup; [apply Permutation_sym, Hnames|].
    apply first_seen_NoDup.
  - rewrite length_firstn.
    rewrite <- (Permutation_length Hnames), length_map. reflexivity.
  - intros c Hc. apply first_seen_In.
    apply (Permutation_in _ Hnames). apply in_map.
    rewrite <- (firstn_skipn 5 (Js.sort by_difficulty_desc candidates)).
    apply in_or_app. now left.
Qed.

(** ** The segment table *)






(** ** The pace axis *)

Lemma forEach_invariant {A S : Type} (P : S -> Prop) (body : S -> A -> js S)
  (xs : list A) (acc res : S) :
  (forall s x s', P s -> body s x = Return s' -> P s') ->
  P acc -> forEach body xs acc = Return res -> P res.
Proof.
  intro step. revert acc. induction xs as [|x xs IH]; intros acc Hacc; simpl.
  - now intros [= <-].
  - destruct (body acc x) as [s'|] eqn:E; simpl; [|discriminate].
    apply IH. exact (step _ _ _ Hacc E).
Qed.

Lemma widen_numeric (r : PaceRange) (d : Split) :
  numeric r -> numeric (widen r d).
Proof.
  destruct r as [mx mn]. unfold numeric, widen, above, below. simpl.
  intros [(hi & Hhi) Hlo]. rewrite Hhi.
  destruct (pace_number (pace_per_mile d)) as [y|] eqn:Ey; [|eauto].
  split.
  - destruct (gtb y hi); eauto.
  - intros p. destruct mn as [m|].
    + destruct (Hlo m eq_refl) as (lo & Em). rewrite Em.
      destruct (ltb y lo); intros [= <-]; eauto.
    + intros [= <-]. eauto.
Qed.

Lemma widen_grows (r : PaceRange) (d : Split) (y : num) :
  covered r y -> covered (widen r d) y.
Proof.
  destruct r as [mx mn]. unfold covered, widen, above, below. simpl.
  intros [(hi & Ehi & Hmax) (p & lo & -> & Elo & Hmin)].
  rewrite Ehi, Elo.
  destruct (pace_number (pace_per_mile d)) as [v|] eqn:Ev;
    [|split; [exists hi|exists p, lo]; auto].
  split.
  - destruct (gtb v hi) eqn:G; [|exists hi; auto].
    apply gtb_true_iff in G. exists v. split; trivial.
    apply Qclt_le_weak. now apply Qcle_lt_trans with hi.
  - destruct (ltb v lo) eqn:L; [|exists p, lo; auto].
    apply ltb_true_iff in L. exists (pace_per_mile d), v.
    repeat split; trivial.
    apply Qclt_le_weak. now apply Qclt_le_trans with lo.
Qed.

Lemma widen_covers (r : PaceRange) (d : Split) (y : num) :
  numeric r -> pace_per_mile d = PaceOf y -> covered (widen r d) y.
Proof.
  destruct r as [mx mn]. unfold numeric, covered, widen, above, below.
  simpl. intros [(hi & Ehi) Hlo] ->. simpl. rewrite Ehi. split.
  - destruct (gtb y hi) eqn:G.
    + exists y. split; [reflexivity|apply Qcle_refl].
    + exists hi. split; trivial. now apply gtb_false_iff.
  - destruct mn as [m|].
    + destruct (Hlo m eq_refl) as (lo & Elo). rewrite Elo.
      destruct (ltb y lo) eqn:L.
      * exists (PaceOf y), y. repeat split. apply Qcle_refl.
      * exists m, lo. repeat split; trivial. now apply ltb_false_iff.
    + exists (PaceOf y), y. repeat split. apply Qcle_refl.
Qed.

Lemma fold_widen_numeric (splits : list Split) (r : PaceRange) :
  numeric r -> numeric (fold_left widen splits r).
Proof.
  revert r. induction splits as [|d l IH]; intros r H; simpl; trivial.
  apply IH. now apply widen_numeric.
Qed.

Lemma fold_widen_grows (splits : list Split) (r : PaceRange) (y : num) :
  covered r y -> covered (fold_left widen splits r) y.
Proof.
  revert r. induction splits as [|d l IH]; intros r H; simpl; trivial.
  apply IH. now apply widen_grows.
Qed.

Lemma fold_widen_covers (splits : list Split) (r : PaceRange) (d : Split)
  (y : num) :
  numeric r -> In d splits -> pace_per_mile d = PaceOf y ->
  covered (fold_left widen splits r) y.
Proof.
  revert r. induction splits as [|e l IH]; intros r Hr Hd Hy; [contradiction|].
  simpl. destruct Hd as [->|Hd].
  - apply fold_widen_grows. now apply widen_covers.
  - apply IH; trivial. now apply widen_numeric.
Qed.

Lemma plotted_pace (p : Pace) (y : num) :
  plotted p = Some y -> p = PaceOf y.
Proof. destruct p; simpl; congruence. Qed.

Lemma pace_step_covered (analyses : ChartAnalyses)
  (runners_splits : list (Z * list Split)) (all : list Runner)
  (st st' : PaceState) (entry : nat * Z) :
  lines_covered st ->
  pace_step analyses runners_splits all st entry = Return st' ->
  lines_covered st'.
Proof.
  intros [Hnum Hst]. unfold pace_step. destruct entry as [index i].
  destruct (progression_of (chart_analysis_of analyses i)) as [prog|];
    [|intros [= <-]; now split].
  destruct (chart_analysis_of analyses i) as [analysis|];
    [|intros [= <-]; now split].
  destruct (splits_of runners_splits i) as [splits|]; [|discriminate].
  destruct (find_runner all i) as [runner|]; [|discriminate].
  intros [= <-]. unfold lines_covered. simpl.
  split; [now apply fold_widen_numeric|].
  intros line d y Hline Hd Hy. apply in_app_or in Hline.
  destruct Hline as [Hline|[<-|[]]].
  - apply fold_widen_grows. exact (Hst line d y Hline Hd Hy).
  - simpl in Hd. unfold splitsData in Hd. apply in_map_iff in Hd.
    destruct Hd as (s & <- & Hs). simpl in Hy.
    apply fold_widen_covers with s; trivial. now apply plotted_pace.
Qed.

Lemma floor_le (x : num) : (JsMath.floor x <= x)%Qc.
Proof.
  unfold JsMath.floor, JsMath.of_Z, Qcle, Q2Qc, this.
  rewrite Qred_correct. apply Qfloor_le.
Qed.

Lemma ceil_ge (x : num) : (x <= JsMath.ceil x)%Qc.
Proof.
  unfold JsMath.ceil, JsMath.of_Z, Qcle, Q2Qc, this.
  rewrite Qred_correct. apply Qle_ceiling.
Qed.

Lemma five_nonneg : (0 <= dec 5 1)%Qc.
Proof. now vm_compute. Qed.

Lemma div_mul_5 (m : num) : (m / dec 5 1 * dec 5 1)%Qc = m.
Proof.
  rewrite Qcmult_comm. apply Qcmult_div_r. now vm_compute.
Qed.

Lemma floor_5_below (m : num) :
  (JsMath.floor (m / dec 5 1) * dec 5 1 <= m)%Qc.
Proof.
  rewrite <- (div_mul_5 m) at 2.
  apply Qcmult_le_compat_r; [apply floor_le|apply five_nonneg].
Qed.

Lemma paceAxis_min_below (mn : option Pace) (y : num) :
  (exists p lo, mn = Some p /\ pace_number p = Some lo /\ (lo <= y)%Qc) ->
  (paceAxis_min mn <= y)%Qc.
Proof.
  intros (p & m & -> & E & H). unfold paceAxis_min. rewrite E.
  destruct (ltb m (dec 5 1)) eqn:L.
  - apply Qcle_trans with m; trivial. apply floor_5_below.
  - apply ltb_false_iff in L. now apply Qcle_trans with m.
Qed.

Lemma paceAxis_min_at_most_5 (mn : option Pace) :
  (paceAxis_min mn <= dec 5 1)%Qc.
Proof.
  unfold paceAxis_min. destruct mn as [p|]; [|apply Qcle_refl].
  destruct (pace_number p) as [m|]; [|apply Qcle_refl].
  destruct (ltb m (dec 5 1)) eqn:L; [|apply Qcle_refl].
  apply ltb_true_iff in L. apply Qclt_le_weak.
  apply Qcle_lt_trans with m; trivial. apply floor_5_below.
Qed.

Lemma paceAxis_max_at_least_30 (mx : Pace) :
  (dec 30 1 <= paceAxis_max mx)%Qc.
Proof.
  unfold paceAxis_max. destruct (pace_number mx) as [m|]; [|apply Qcle_refl].
  destruct (gtb m (dec 30 1)) eqn:G; [|apply Qcle_refl].
  apply gtb_true_iff in G. apply Qclt_le_weak.
  apply Qclt_le_trans with m; trivial.
  rewrite <- (div_mul_5 m) at 1.
  apply Qcmult_le_compat_r; [apply ceil_ge|apply five_nonneg].
Qed.

Lemma paceAxis_max_above (mx : Pace) (y : num) :
  (exists hi, pace_number mx = Some hi /\ (y <= hi)%Qc) ->
  (y <= paceAxis_max mx)%Qc.
Proof.
  intros (m & E & H). unfold paceAxis_max. rewrite E.
  apply Qcle_trans with m; trivial.
  destruct (gtb m (dec 30 1)) eqn:G.
  - rewrite <- (div_mul_5 m) at 1.
    apply Qcmult_le_compat_r; [apply ceil_ge|apply five_nonneg].
  - now apply gtb_false_iff in G.
Qed.

Lemma chart_lines_covered (analyses : ChartAnalyses)
  (runners_splits : list (Z * list Split)) (all : list Runner)
  (entries : list (nat * Z)) (st : PaceState) :
  forEach (pace_step analyses runners_splits all) entries
    {| paceDatasets := []; restPeriodDatasets := [];
       range := (PaceOf 0%Qc, None) |} = Return st ->
  lines_covered st.
Proof.
  intro Loop. refine (forEach_invariant lines_covered _ _ _ _ _ _ Loop).
  - intros s x s'. apply pace_step_covered.
  - split.
    + split; simpl; [eauto|discriminate].
    + intros line d y [].
Qed.

(** Property X15.
    When the pace chart is drawn, every pace of every line lies on its pace
    axis.  The axis starts at 5 or below and ends at 30 or above, and both
    ends are whole multiples of 5. *)
Theorem pace_axis_holds_every_pace (analyses : ChartAnalyses)
  (runners_splits : list (Z * list Split)) (all : list Runner)
  (selected : list Z) (chart : PaceChart)
  (drawn : createPaceElevationChart analyses runners_splits all selected
           = Return chart) :
  (axis_min chart <= dec 5 1)%Qc
  /\ (dec 30 1 <= axis_max chart)%Qc
  /\ (exists k, axis_min chart = (JsMath.of_Z k * dec 5 1)%Qc)
  /\ (exists k, axis_max chart = (JsMath.of_Z k * dec 5 1)%Qc)
  /\ (forall line d y,
         In line (pace_lines chart) -> In d (data line) -> py d = Some y ->
         (axis_min chart <= y)%Qc /\ (y <= axis_max chart)%Qc).
Proof.
  unfold createPaceElevationChart in drawn.
  destruct (forEach _ (indexed selected) _) as [st|] eqn:Loop;
    simpl in drawn; [|discriminate].
  injection drawn as <-. simpl.
  destruct (chart_lines_covered _ _ _ _ _ Loop) as [_ Hcov].
  assert (one : dec 5 1 = (JsMath.of_Z 1 * dec 5 1)%Qc)
    by (apply Qc_is_canon; now vm_compute).
  assert (six : dec 30 1 = (JsMath.of_Z 6 * dec 5 1)%Qc)
    by (apply Qc_is_canon; now vm_compute).
  split; [apply paceAxis_min_at_most_5|].
  split; [apply paceAxis_max_at_least_30|].
  split; [|split].
  - unfold paceAxis_min. destruct (snd (range st)) as [p|]; [|eauto].
    destruct (pace_number p) as [m|]; [|eauto].
    destruct (ltb m (dec 5 1)); [|eauto].
    now exists (Qfloor (m / dec 5 1)%Qc).
  - unfold paceAxis_max. destruct (pace_number (fst (range st))) as [m|];
      [|eauto].
    destruct (gtb m (dec 30 1)); [|eauto].
    now exists (Qceiling (m / dec 5 1)%Qc).
  - intros line d y Hline Hd Hy.
    destruct (Hcov line d y Hline Hd Hy) as [Hmax Hmin]. split.
    + now apply paceAxis_min_below.
    + now apply paceAxis_max_above.
Qed.

(** ** Splits without a pace *)

Lemma forEach_invariant_In {A S : Type} (P : S -> Prop)
  (body : S -> A -> js S) (xs : list A) (acc res : S) :
  (forall s x s', In x xs -> P s -> body s x = Return s' -> P s') ->
  P acc -> forEach body xs acc = Return res -> P res.
Proof.
  revert acc. induction xs as [|x xs IH]; intros acc step Hacc; simpl.
  - now intros [= <-].
  - destruct (body acc x) as [s'|] eqn:E; simpl; [|discriminate].
    apply IH.
    + intros s y s'' Hy. apply step. now right.
    + apply (step acc x s'); simpl; auto.
Qed.

Lemma forEach_eventually {A S : Type} (P Q : S -> Prop)
  (body : S -> A -> js S) (xs : list A) (x : A) (acc res : S) :
  (forall s y s', P s -> body s y = Return s' -> P s') ->
  (forall s y s', Q s -> body s y = Return s' -> Q s') ->
  (forall s s', P s -> body s x = Return s' -> Q s') ->
  In x xs -> P acc -> forEach body xs acc = Return res -> Q res.
Proof.
  intros keepP keepQ makes. revert acc.
  induction xs as [|y xs IH]; intros acc Hx Hacc; [contradiction|]. simpl.
  destruct (body acc y) as [s'|] eqn:E; simpl; [|discriminate].
  destruct Hx as [->|Hx].
  - apply (forEach_invariant Q body); [exact keepQ|].
    exact (makes _ _ Hacc E).
  - apply IH; trivial. exact (keepP _ _ _ Hacc E).
Qed.

Lemma indexed_In {A : Type} (l : list A) (x : A) :
  In x l -> exists index, In (index, x) (indexed l).
Proof.
  unfold indexed. generalize 0%nat as start.
  induction l as [|a l IH]; intros start Hx; [contradiction|]. simpl.
  destruct Hx as [->|Hx]; [eauto|].
  destruct (IH (S start) Hx) as (index & H). eauto.
Qed.

Lemma indexed_member {A : Type} (l : list A) (index : nat) (x : A) :
  In (index, x) (indexed l) -> In x l.
Proof. apply in_combine_r. Qed.

Lemma widen_null (r : PaceRange) (d : Split) :
  numeric r -> pace_per_mile d = NullPace -> reaches_zero (widen r d).
Proof.
  destruct r as [mx mn]. unfold numeric, reaches_zero, widen, below.
  simpl. intros [_ Hlo] ->. simpl.
  destruct mn as [m|].
  - destruct (Hlo m eq_refl) as (lo & Elo). rewrite Elo.
    destruct (ltb 0%Qc lo) eqn:L.
    + exists NullPace, 0%Qc. repeat split. apply Qcle_refl.
    + exists m, lo. repeat split; trivial. now apply ltb_false_iff.
  - exists NullPace, 0%Qc. repeat split. apply Qcle_refl.
Qed.

Lemma widen_keeps_zero (r : PaceRange) (d : Split) :
  reaches_zero r -> reaches_zero (widen r d).
Proof.
  destruct r as [mx mn]. unfold reaches_zero, widen, below. simpl.
  intros (p & lo & -> & Elo & H). rewrite Elo.
  destruct (pace_number (pace_per_mile d)) as [v|] eqn:Ev;
    [|exists p, lo; auto].
  destruct (ltb v lo) eqn:L; [|exists p, lo; auto].
  apply ltb_true_iff in L. exists (pace_per_mile d), v.
  repeat split; trivial.
  apply Qclt_le_weak. now apply Qclt_le_trans with lo.
Qed.

Lemma fold_widen_keeps_zero (splits : list Split) (r : PaceRange) :
  reaches_zero r -> reaches_zero (fold_left widen splits r).
Proof.
  revert r. induction splits as [|d l IH]; intros r H; simpl; trivial.
  apply IH. now apply widen_keeps_zero.
Qed.

Lemma fold_widen_null (splits : list Split) (r : PaceRange) (d : Split) :
  numeric r -> In d splits -> pace_per_mile d = NullPace ->
  reaches_zero (fold_left widen splits r).
Proof.
  revert r. induction splits as [|e l IH]; intros r Hr Hd Hy; [contradiction|].
  simpl. destruct Hd as [->|Hd].
  - apply fold_widen_keeps_zero. now apply widen_null.
  - apply IH; trivial. now apply widen_numeric.
Qed.

Lemma pace_step_range (analyses : ChartAnalyses)
  (runners_splits : list (Z * list Split)) (all : list Runner)
  (st st' : PaceState) (index : nat) (i : Z) :
  pace_step analyses runners_splits all st (index, i) = Return st' ->
  range st' = range st
  \/ exists splits, splits_of runners_splits i = Some splits
                    /\ progression_of (chart_analysis_of analyses i) <> None
                    /\ range st' = fold_left widen splits (range st).
Proof.
  unfold pace_step.
  destruct (progression_of (chart_analysis_of analyses i)) as [prog|];
    [|intros [= <-]; now left].
  destruct (chart_analysis_of analyses i) as [analysis|];
    [|intros [= <-]; now left].
  destruct (splits_of runners_splits i) as [splits|]; [|discriminate].
  destruct (find_runner all i) as [runner|]; [|discriminate].
  intros [= <-]. right. exists splits. simpl. repeat split. discriminate.
Qed.

Lemma fold_widen_stays (splits : list Split) (r : PaceRange) :
  from_five splits -> stays_at_five r ->
  stays_at_five (fold_left widen splits r).
Proof.
  revert r. induction splits as [|d l IH]; intros r Hs Hr; simpl; trivial.
  apply IH; [intros s y Hin; apply Hs; now right|].
  destruct r as [mx mn]. unfold stays_at_five, widen, below in *.
  simpl in *. intros p.
  destruct (pace_number (pace_per_mile d)) as [v|] eqn:Ev; [|apply Hr].
  assert (Hv : (dec 5 1 <= v)%Qc) by (apply (Hs d); [now left|exact Ev]).
  destruct mn as [m|].
  - destruct (Hr m eq_refl) as (lo & Elo & Hlo). rewrite Elo.
    destruct (ltb v lo); intros [= <-]; eauto.
  - intros [= <-]. eauto.
Qed.

(** Property X20.
    A split whose pace is [null] counts as a pace of 0 for the axis: one
    such split of a runner who is drawn makes the pace axis start at 0 or
    below.  Splits without the property are skipped: when every pace that
    is a number or [null] is 5 or more, the axis starts at 5. *)
Theorem null_pace_pulls_the_axis_to_zero (analyses : ChartAnalyses)
  (runners_splits : list (Z * list Split)) (all : list Runner)
  (selected : list Z) (chart : PaceChart)
  (drawn : createPaceElevationChart analyses runners_splits all selected
           = Return chart) :
  (forall i splits s,
      In i selected ->
      progression_of (chart_analysis_of analyses i) <> None ->
      splits_of runners_splits i = Some splits ->
      In s splits -> pace_per_mile s = NullPace ->
      (axis_min chart <= 0)%Qc)
  /\ ((forall i splits,
          In i selected ->
          progression_of (chart_analysis_of analyses i) <> None ->
          splits_of runners_splits i = Some splits -> from_five splits) ->
      axis_min chart = dec 5 1).
Proof.
  unfold createPaceElevationChart in drawn.
  destruct (forEach _ (indexed selected) _) as [st|] eqn:Loop;
    simpl in drawn; [|discriminate].
  injection drawn as <-. simpl. split.
  - intros i splits s Hi Hprog Hsplits Hs Hnull.
    destruct (indexed_In selected i Hi) as (index & Hin).
    assert (Z : reaches_zero (range st)).
    { refine (forEach_eventually (fun s => numeric (range s))
                (fun s => reaches_zero (range s)) _ _ _ _ _ _ _ _ Hin _ Loop).
      - intros s0 [k j] s' Hn E.
        destruct (pace_step_range _ _ _ _ _ _ _ E) as [->|(l & _ & _ & ->)];
          trivial. now apply fold_widen_numeric.
      - intros s0 [k j] s' Hz E.
        destruct (pace_step_range _ _ _ _ _ _ _ E) as [->|(l & _ & _ & ->)];
          trivial. now apply fold_widen_keeps_zero.
      - intros s0 s' Hn E. unfold pace_step in E.
        destruct (chart_analysis_of analyses i) as [analysis|];
          [|now elim Hprog].
        destruct (progression_of (Some analysis)) as [prog|];
          [|now elim Hprog].
        rewrite Hsplits in E.
        destruct (find_runner all i) as [runner|]; [|discriminate].
        injection E as <-. simpl. now apply fold_widen_null with s.
      - split; simpl; [eauto|discriminate]. }
    now apply paceAxis_min_below.
  - intro Hfive.
    assert (F : stays_at_five (range st)).
    { refine (forEach_invariant_In (fun s => stays_at_five (range s))
                _ _ _ _ _ _ Loop).
      - intros s0 [k j] s' Hin Hst E. apply indexed_member in Hin.
        destruct (pace_step_range _ _ _ _ _ _ _ E) as [->|(l & El & Hp & ->)];
          trivial.
        apply fold_widen_stays; trivial. exact (Hfive j l Hin Hp El).
      - intros p. discriminate. }
    destruct (range st) as [mx mn]. unfold paceAxis_min. simpl.
    destruct mn as [p|]; [|reflexivity].
    destruct (F p eq_refl) as (lo & -> & Hlo).
    destruct (ltb lo (dec 5 1)) eqn:L; [|reflexivity].
    apply ltb_true_iff in L. exfalso. exact (Qclt_not_le _ _ L Hlo).
Qed.

(** ** Rest markers *)



(** ** The first analysis *)

Lemma by_id_key {V : Type} (a b : Z * V) :
  gtb (by_id a b) 0%Qc = true <->
  (JsMath.of_Z (fst b) < JsMath.of_Z (fst a))%Qc.
Proof.
  unfold by_id, JsMath.of_Z. rewrite gtb_true_iff, Q2Qc_inject_lt.
  change 0%Qc with (Q2Qc (inject_Z 0)). rewrite Q2Qc_inject_lt. lia.
Qed.

Lemma filter_all {A : Type} (p : A -> bool) (l : list A) :
  (forall x, In x l -> p x = true) -> filter p l = l.
Proof.
  induction l as [|x l IH]; simpl; intro H; [reflexivity|].
  rewrite (H x) by now left. f_equal. apply IH. intros y Hy. apply H. now right.
Qed.

Lemma filter_none {A : Type} (p : A -> bool) (l : list A) :
  (forall x, In x l -> p x = true) -> filter (fun x => negb (p x)) l = [].
Proof.
  induction l as [|x l IH]; simpl; intro H; [reflexivity|].
  rewrite (H x) by now left. simpl. apply IH. intros y Hy. apply H. now right.
Qed.

(** Property X17.
    When the runner ids are integers from 0 to 2^32 - 2, the analysis that
    provides the course segments of the comparison is the one of the
    smallest runner id, whichever runners are selected and in whichever
    order the analyses arrived. *)
Theorem first_analysis_has_the_smallest_id (analyses : Analyses)
  (some_analyses : analyses <> [])
  (ids : forall e, In e analyses -> id_is_index e = true) :
  exists k a,
    In (k, a) analyses
    /\ firstRunnerData analyses = Some a
    /\ (forall k' a', In (k', a') analyses -> (k <= k')%Z)
    /\ courseSegments analyses
       = match course_analysis a with
         | Some c => segment_analysis c
         | None => None
         end.
Proof.
  unfold courseSegments, firstRunnerData, values_by_id.
  rewrite (filter_all _ _ ids), (filter_none _ _ ids), app_nil_r.
  pose proof (sort_perm _ (@by_id Analysis) analyses) as P.
  pose proof (sort_sorted _ _ (fun e : Z * Analysis => JsMath.of_Z (fst e))
                (@by_id_key Analysis) analyses) as S.
  destruct (Js.sort by_id analyses) as [|[k a] rest].
  - apply Permutation_nil in P. congruence.
  - exists k, a. simpl.
    split; [apply (Permutation_in _ P); now left|].
    split; [reflexivity|]. split; [|reflexivity].
    intros k' a' Hin.
    apply (Permutation_in _ (Permutation_sym P)) in Hin.
    destruct Hin as [[= <- <-]|Hin]; [lia|].
    inversion S as [|? ? _ Hall]; subst.
    rewrite Forall_forall in Hall. specialize (Hall _ Hin).
    unfold key_le, JsMath.of_Z in Hall. simpl in Hall.
    exact (proj1 (Q2Qc_inject_le _ _) Hall).
Qed.

(** ** The fatigue chart *)

Lemma fatigue_mapped (analyses : ChartAnalyses) (all : list Runner)
  (l : list Z) (start : nat) (acc mapped : list Dataset) :
  forEach (fatigue_dataset analyses all) (combine (seq start (List.length l)) l)
    acc = Return mapped ->
  map borderColor mapped
  = map borderColor acc ++ map color_at (seq start (List.length l))
  /\ forall i, In i l -> find_runner all i <> None.
Proof.
  revert start acc. induction l as [|i l IH]; intros start acc; simpl.
  - intros [= <-]. rewrite app_nil_r. split; [reflexivity|contradiction].
  - destruct (find_runner all i) as [runner|] eqn:E; simpl; [|discriminate].
    intro H. apply IH in H. destruct H as [Hc Hl]. split.
    + rewrite Hc, map_app, <- app_assoc. reflexivity.
    + intros j [<-|Hj]; [congruence|now apply Hl].
Qed.

Lemma fatigue_maps (analyses : ChartAnalyses) (all : list Runner)
  (l : list Z) (start : nat) (acc : list Dataset) :
  (forall i, In i l -> find_runner all i <> None) ->
  exists mapped,
    forEach (fatigue_dataset analyses all)
      (combine (seq start (List.length l)) l) acc = Return mapped.
Proof.
  revert start acc. induction l as [|i l IH]; intros start acc H; simpl.
  - eauto.
  - destruct (find_runner all i) as [runner|] eqn:E; simpl.
    + apply IH. intros j Hj. apply H. now right.
    + exfalso. apply (H i); [now left|exact E].
Qed.

Lemma runnerColors_NoDup : NoDup runnerColors.
Proof.
  unfold runnerColors.
  repeat (constructor; [simpl; intuition discriminate|]). constructor.
Qed.

Lemma colors_of_few (n : nat) :
  (n <= 5)%nat -> map color_at (seq 0 n) = firstn n runnerColors.
Proof.
  intro H. do 6 (destruct n as [|n]; [reflexivity|]). lia.
Qed.

Lemma filter_keeps_distinct (X Y : Type) (shown : X -> bool) (key : X -> Y)
  (xs : list X) (distinct : NoDup (map key xs)) :
  NoDup (map key (filter shown xs)).
Proof.
  induction xs as [|x xs IH]; simpl in *; [constructor|].
  apply NoDup_cons_iff in distinct. destruct distinct as [Hx Hxs].
  destruct (shown x); simpl; [|now apply IH].
  apply NoDup_cons; [|now apply IH].
  intro Hin. apply Hx. apply in_map_iff in Hin.
  destruct Hin as (y & Ey & Hy). apply filter_In in Hy.
  rewrite <- Ey. apply in_map. tauto.
Qed.

(** Property X18.
    With at most five selected runners, which is all that [Runners] lets
    through, the lines of the fatigue chart have pairwise different colours;
    each line has data, and there is at most one line per selected
    runner. *)
Theorem fatigue_lines_are_told_apart (analyses : ChartAnalyses)
  (all : list Runner) (selected : list Z) (datasets : list Dataset)
  (few : (List.length selected <= 5)%nat)
  (drawn : createMultiRunnerFatigueChart analyses all selected
           = Return (FatigueLines datasets)) :
  NoDup (map borderColor datasets)
  /\ (forall d, In d datasets -> data d <> [])
  /\ (List.length datasets <= List.length selected)%nat.
Proof.
  unfold createMultiRunnerFatigueChart in drawn.
  destruct analyses as [|a0 analyses']; [discriminate|].
  destruct (forEach _ (indexed selected) []) as [mapped|] eqn:Loop;
    simpl in drawn; [|discriminate].
  assert (D : datasets
              = filter (fun d => (0 <? List.length (data d))%nat) mapped).
  { destruct (filter _ mapped); [discriminate|]. now injection drawn. }
  clear drawn. unfold indexed in Loop.
  assert (Len : List.length mapped = List.length selected).
  { apply fatigue_mapped in Loop. destruct Loop as [Hc _]. simpl in Hc.
    apply (f_equal (@List.length string)) in Hc.
    now rewrite !length_map, length_seq in Hc. }
  apply fatigue_mapped in Loop. destruct Loop as [Hc _]. simpl in Hc.
  subst datasets. split; [|split].
  - apply filter_keeps_distinct. rewrite Hc, (colors_of_few _ few).
    apply NoDup_firstn, runnerColors_NoDup.
  - intros d Hd. apply filter_In in Hd. destruct Hd as [_ Hd].
    apply Nat.ltb_lt in Hd. destruct (data d); [simpl in Hd; lia|discriminate].
  - rewrite <- Len. apply filter_length_le.
Qed.

(** Property X19.
    With some analyses, the fatigue chart throws exactly when a selected
    runner is not listed in [allRunners], whether or not that runner has
    fatigue data; otherwise it shows its lines or its message. *)
Theorem fatigue_chart_needs_listed_runners (analyses : ChartAnalyses)
  (all : list Runner) (selected : list Z)
  (some_analyses : analyses <> []) :
  (throws (createMultiRunnerFatigueChart analyses all selected) <->
   exists i, In i selected /\ find_runner all i = None)
  /\ ((forall i, In i selected -> find_runner all i <> None) ->
      createMultiRunnerFatigueChart analyses all selected
      = Return NoFatigueData
      \/ exists datasets,
           createMultiRunnerFatigueChart analyses all selected
           = Return (FatigueLines datasets)).
Proof.
  unfold createMultiRunnerFatigueChart.
  destruct analyses as [|a0 analyses']; [congruence|].
  set (analyses := a0 :: analyses'). unfold indexed.
  assert (R : (forall i, In i selected -> find_runner all i <> None) ->
              exists mapped,
                forEach (fatigue_dataset analyses all)
                  (combine (seq 0 (List.length selected)) selected) []
                = Return mapped).
  { apply fatigue_maps. }
  split.
  - split.
    + intros [msg H].
      destruct (forEach _ _ []) as [mapped|msg'] eqn:Loop.
      * simpl in H. destruct (filter _ mapped); discriminate.
      * assert (N : ~ forall i, In i selected -> find_runner all i <> None).
        { intro Hall. destruct (R Hall) as [mapped Hm]. congruence. }
        clear - N. induction selected as [|i l IH].
        -- exfalso. apply N. intros i [].
        -- destruct (find_runner all i) eqn:E.
           ++ destruct IH as (j & Hj & Hn).
              { intro Hall. apply N. intros j [<-|Hj]; [congruence|auto]. }
              exists j. split; [now right|exact Hn].
           ++ exists i. split; [now left|exact E].
    + intros (i & Hi & Hn).
      destruct (forEach _ _ []) as [mapped|msg] eqn:Loop; simpl.
      * apply fatigue_mapped in Loop. destruct Loop as [_ Hl].
        exfalso. exact (Hl i Hi Hn).
      * now exists msg.
  - intro Hall. destruct (R Hall) as [mapped ->]. simpl.
    destruct (filter _ mapped); eauto.
Qed.

(** ** Constructing and validating *)

(** ** The further properties on the samples *)

(** X2 on a sample.
    Selecting runner 3 next to runners 1 and 2 and clicking again. *)
Lemma select_then_deselect_sample :
  Runners.selectRunner [1; 2; 3]%Z 3%Z = ([1; 2]%Z, Runners.Deselected).
Proof.
  apply (select_then_deselect [1; 2]%Z 3%Z).
  - intros [H|[H|[]]]; discriminate.
  - simpl. lia.
Defined.

(** X6 on a sample.
    Runner 9 is not listed: the rest period view throws. *)
Lemma rest_view_throws_iff_sample :
  throws (updateRestPeriodsListMultiRunner Sample.analyses Sample.runners
            [1; 9]%Z).
Proof.
  apply (rest_view_throws_iff Sample.analyses Sample.runners [1; 9]%Z);
    [discriminate|discriminate|].
  exists 9%Z. split; [right; now left|]. left. reflexivity.
Defined.

Lemma sample_groups :
  restGroups (flattened Sample.analyses Sample.runners Sample.selected)
  = [Sample.crown_group; Sample.whiskey_group].
Proof. vm_compute. reflexivity. Qed.

(** X9 on the sample. *)
Lemma placeholder_names_the_group_sample :
  nearbyAidStation Sample.whiskey_group = "Whiskey Row".
Proof.
  destruct (placeholder_names_the_group
              (flattened Sample.analyses Sample.runners Sample.selected)
              Sample.whiskey_group (Sample.tagged 3 Sample.whiskey_low))
    as [H|[H _]].
  - rewrite sample_groups. right. now left.
  - now left.
  - exact H.
  - discriminate.
Defined.

(** X10 on the sample. *)
Lemma rows_are_numbered_sample :
  exists headers rows,
    updateRestPeriodsListMultiRunner Sample.analyses Sample.runners
      Sample.selected = Return (RestCards headers rows)
    /\ headers = ["Xavier X"; "Yara Y"; "Zoe Z"; "Wes W"]
    /\ map groupIndex rows = [0; 1]%nat.
Proof.
  assert (E : exists headers rows,
             updateRestPeriodsListMultiRunner Sample.analyses Sample.runners
               Sample.selected = Return (RestCards headers rows))
    by (eexists; eexists; vm_compute; reflexivity).
  destruct E as (headers & rows & E). exists headers, rows.
  split; [exact E|].
  destruct (rows_are_numbered _ _ _ _ _ E) as (Hh & Hi & _).
  split; [exact Hh|]. rewrite Hi.
  vm_compute in E. injection E as _ <-. reflexivity.
Defined.

(** X12 on the sample. *)
Lemma ranking_lists_each_segment_once_sample :
  exists ranking,
    updateRecommendationsMultiRunner Sample.analyses Sample.selected
    = Return ranking
    /\ NoDup (map name ranking) /\ List.length ranking = 2%nat.
Proof.
  assert (E : exists ranking,
             updateRecommendationsMultiRunner Sample.analyses Sample.selected
             = Return ranking)
    by (eexists; vm_compute; reflexivity).
  destruct E as (ranking & E). exists ranking. split; [exact E|].
  destruct (ranking_lists_each_segment_once _ _ _ E) as (Hn & Hl & _).
  split; [exact Hn|]. rewrite Hl. reflexivity.
Defined.

(** X15 on a sample.
    Xavier's pace of 33 stretches the axis to 35, and his pace of 8.2 lies
    on it. *)
Lemma pace_axis_holds_every_pace_sample :
  exists chart,
    createPaceElevationChart ChartSample.analyses ChartSample.runners_splits
      Sample.runners ChartSample.selected = Return chart
    /\ this (axis_max chart) = 35 # 1
    /\ (axis_min chart <= dec 82 10)%Qc /\ (dec 82 10 <= axis_max chart)%Qc.
Proof.
  assert (E : exists chart,
             createPaceElevationChart ChartSample.analyses
               ChartSample.runners_splits Sample.runners ChartSample.selected
             = Return chart)
    by (eexists; vm_compute; reflexivity).
  destruct E as (chart & E). exists chart. split; [exact E|].
  destruct (pace_axis_holds_every_pace _ _ _ _ _ E) as (_ & _ & _ & _ & H).
  vm_compute in E. injection E as <-.
  split; [reflexivity|].
  refine (H _ {| px := Some (dec 1 1); py := Some (dec 82 10) |} _ _ _ _).
  - simpl. left. reflexivity.
  - simpl. left. apply f_equal2; apply f_equal; apply Qc_is_canon;
      reflexivity.
  - reflexivity.
Defined.

(** X20 on a sample.
    Yara's split without a pace makes the axis start at 0, although no pace
    of the sample is below 8.2. *)
Lemma null_pace_pulls_the_axis_to_zero_sample :
  exists chart,
    createPaceElevationChart ChartSample.analyses ChartSample.runners_splits
      Sample.runners ChartSample.selected = Return chart
    /\ (axis_min chart <= 0)%Qc.
Proof.
  assert (E : exists chart,
             createPaceElevationChart ChartSample.analyses
               ChartSample.runners_splits Sample.runners ChartSample.selected
             = Return chart)
    by (eexists; vm_compute; reflexivity).
  destruct E as (chart & E). exists chart. split; [exact E|].
  destruct (null_pace_pulls_the_axis_to_zero _ _ _ _ _ E) as [H _].
  refine (H 2%Z _ {| mile_number := Some (dec 2 1);
                     pace_per_mile := NullPace |} _ _ eq_refl _ eq_refl).
  - simpl. auto.
  - discriminate.
  - simpl. auto.
Defined.

(** X17 on a sample.
    Yara's analysis arrived first, Xavier's has the smaller id. *)
Lemma first_analysis_has_the_smallest_id_sample :
  exists k a,
    In (k, a) [(2, Sample.yara); (1, Sample.xavier)]%Z
    /\ firstRunnerData [(2, Sample.yara); (1, Sample.xavier)]%Z = Some a
    /\ k = 1%Z.
Proof.
  destruct (first_analysis_has_the_smallest_id
              [(2, Sample.yara); (1, Sample.xavier)]%Z)
    as (k & a & Hin & Hfirst & Hmin & _).
  - discriminate.
  - intros e [<-|[<-|[]]]; reflexivity.
  - exists k, a. split; [exact Hin|]. split; [exact Hfirst|].
    pose proof (Hmin 1%Z Sample.xavier (or_intror (or_introl eq_refl))) as H1.
    destruct Hin as [Hk|[Hk|[]]]; injection Hk as Hk _; lia.
Defined.

(** X18 on the sample. *)
Lemma fatigue_lines_are_told_apart_sample :
  exists datasets,
    createMultiRunnerFatigueChart ChartSample.analyses Sample.runners
      ChartSample.selected = Return (FatigueLines datasets)
    /\ map borderColor datasets = ["#ff6384"; "#36a2eb"]
    /\ NoDup (map borderColor datasets).
Proof.
  assert (E : exists datasets,
             createMultiRunnerFatigueChart ChartSample.analyses Sample.runners
               ChartSample.selected = Return (FatigueLines datasets))
    by (eexists; vm_compute; reflexivity).
  destruct E as (datasets & E). exists datasets. split; [exact E|].
  assert (few : (List.length ChartSample.selected <= 5)%nat)
    by (simpl; lia).
  destruct (fatigue_lines_are_told_apart _ _ _ _ few E) as (Hn & _).
  split; [|exact Hn].
  vm_compute in E. injection E as <-. reflexivity.
Defined.

(** X19 on a sample.
    Runner 9 is not listed: the fatigue chart throws. *)
Lemma fatigue_chart_needs_listed_runners_sample :
  throws (createMultiRunnerFatigueChart ChartSample.analyses Sample.runners
            [1; 9]%Z).
Proof.
  apply (fatigue_chart_needs_listed_runners ChartSample.analyses
           Sample.runners [1; 9]%Z); [discriminate|].
  exists 9%Z. split; [right; now left|reflexivity].
Defined.
(** * Binary64 *)

(** ** Rounding keeps the sign *)

Lemma scaled_ge (n d : positive) (e : Z) :
  (e <= Z.log2 (Zpos n) - Z.log2 (Zpos d) - 1)%Z ->
  (0 < snd (Double.scaled n d e) <= fst (Double.scaled n d e))%Z.
Proof.
  intro He. unfold Double.scaled.
  destruct (Z.log2_spec (Zpos n)) as [Ln _]; [lia|].
  destruct (Z.log2_spec (Zpos d)) as [_ Ld]; [lia|].
  pose proof (Z.log2_nonneg (Zpos n)) as Nn.
  pose proof (Z.log2_nonneg (Zpos d)) as Nd.
  destruct (0 <=? e)%Z eqn:E; cbn [fst snd].
  - apply Z.leb_le in E.
    assert (P : (0 < 2 ^ e)%Z) by (apply Z.pow_pos_nonneg; lia).
    split; [apply Z.mul_pos_pos; lia|].
    apply Z.le_trans with (2 ^ Z.log2 (Zpos n))%Z; [|exact Ln].
    apply Z.le_trans with (2 ^ Z.succ (Z.log2 (Zpos d)) * 2 ^ e)%Z.
    + apply Z.mul_le_mono_nonneg_r; lia.
    + rewrite <- Z.pow_add_r by lia. apply Z.pow_le_mono_r; lia.
  - apply Z.leb_gt in E. split; [lia|].
    apply Z.le_trans with (2 ^ Z.succ (Z.log2 (Zpos d)))%Z; [lia|].
    apply Z.le_trans with (2 ^ Z.log2 (Zpos n) * 2 ^ (- e))%Z.
    + rewrite <- Z.pow_add_r by lia. apply Z.pow_le_mono_r; lia.
    + apply Z.mul_le_mono_nonneg_r; [|exact Ln].
      apply Z.pow_nonneg. lia.
Qed.

Lemma exponent_le (n d : positive) :
  (Double.exponent n d <= Z.log2 (Zpos n) - Z.log2 (Zpos d) - 1)%Z.
Proof.
  unfold Double.exponent.
  destruct (Double.scaled n d _) as [num den].
  destruct (num / den <? 2 ^ 53)%Z; lia.
Qed.

Lemma nearest_even_pos (num den : Z) :
  (0 < den <= num)%Z -> (0 < Double.nearest_even num den)%Z.
Proof.
  intros [Hd Hn]. unfold Double.nearest_even.
  assert (Q : (1 <= num / den)%Z).
  { apply Z.div_le_lower_bound; lia. }
  destruct (2 * (num mod den) ?= den)%Z; [destruct (Z.even _)| |]; lia.
Qed.

Lemma times_pow2_pos (m e : Z) : (0 < m)%Z -> (0 < Double.times_pow2 m e)%Q.
Proof.
  intro Hm. unfold Double.times_pow2. destruct (0 <=? e)%Z eqn:E.
  - apply Z.leb_le in E. unfold Qlt. simpl.
    assert (P : (0 < 2 ^ e)%Z) by (apply Z.pow_pos_nonneg; lia). nia.
  - unfold Qlt. simpl. lia.
Qed.

Lemma round_positive_pos (n d : positive) : (0 < Double.round_positive n d)%Q.
Proof.
  unfold Double.round_positive.
  pose proof (scaled_ge n d _ (exponent_le n d)) as H.
  destruct (Double.scaled n d (Double.exponent n d)) as [num den].
  simpl in H. apply times_pow2_pos, nearest_even_pos, H.
Qed.

Lemma rnd_pos (x : num) : (0 < x)%Qc -> (0 < Double.rnd x)%Qc.
Proof.
  unfold Qclt, Double.rnd. destruct x as [[n d] c]. simpl.
  intro H. rewrite Qred_correct.
  destruct n as [|n|n]; try (unfold Qlt in H; simpl in H; lia).
  apply round_positive_pos.
Qed.

Lemma rnd_neg (x : num) : (x < 0)%Qc -> (Double.rnd x < 0)%Qc.
Proof.
  unfold Qclt, Double.rnd. destruct x as [[n d] c]. simpl.
  intro H. rewrite Qred_correct.
  destruct n as [|n|n]; try (unfold Qlt in H; simpl in H; lia).
  pose proof (round_positive_pos n d) as P.
  apply Qopp_lt_compat in P. exact P.
Qed.

Lemma rnd_0 : Double.rnd 0%Qc = 0%Qc.
Proof. apply Qc_is_canon. reflexivity. Qed.

Lemma rnd_sign (x : num) : (0 < Double.rnd x)%Qc <-> (0 < x)%Qc.
Proof.
  split; [|apply rnd_pos]. intro H.
  destruct (Qc_dec 0%Qc x) as [[L|G]|E]; trivial.
  - apply rnd_neg in G. exfalso.
    exact (Qclt_not_le _ _ H (Qclt_le_weak _ _ G)).
  - subst x. rewrite rnd_0 in H. exact H.
Qed.

Lemma sub_sign (a b : num) :
  gtb (Double.sub a b) 0%Qc = true <-> (b < a)%Qc.
Proof.
  unfold Double.sub. rewrite gtb_true_iff, rnd_sign.
  symmetry. apply Qclt_minus_iff.
Qed.

(** ** Orders by three keys *)

Section ThreeKeys.

Variable A : Type.
Variable tier : A -> Z.
Variables pace distance : A -> num.

Lemma before_irrefl (a : A) : ~ before tier pace distance a a.
Proof.
  unfold before. intros [H|[[_ H]|(_ & _ & H)]]; [lia| |];
    exact (Qclt_not_eq _ _ H eq_refl).
Qed.

Lemma before_trans (a b c : A) :
  before tier pace distance a b -> before tier pace distance b c ->
  before tier pace distance a c.
Proof.
  unfold before.
  intros [H1|[[E1 H1]|(E1 & P1 & H1)]] [H2|[[E2 H2]|(E2 & P2 & H2)]];
    try (left; lia);
    try (right; left; split; [lia|qc_order]);
    right; right; (split; [lia|split; qc_order]).
Qed.

Lemma before_or_level (a b : A) :
  before tier pace distance a b \/ before tier pace distance b a
  \/ (tier a = tier b /\ pace a = pace b /\ distance a = distance b).
Proof.
  unfold before.
  destruct (Z.lt_trichotomy (tier a) (tier b)) as [L|[E|L]]; [tauto| |tauto].
  pose proof (eq_sym E) as E'.
  destruct (Qc_dec (pace a) (pace b)) as [[L|L]|Ep]; [tauto|tauto|].
  pose proof (eq_sym Ep) as Ep'.
  destruct (Qc_dec (distance a) (distance b)) as [[L|L]|Ed]; tauto.
Qed.

Lemma not_before_trans (a b c : A) :
  ~ before tier pace distance b a -> ~ before tier pace distance c b ->
  ~ before tier pace distance c a.
Proof.
  intros H1 H2 H3.
  destruct (before_or_level b a) as [H|[H|(E & P & D)]]; [tauto| |].
  - apply H2. exact (before_trans _ _ _ H3 H).
  - apply H2. clear H1 H2. unfold before in *.
    destruct H3 as [H|[[E3 H]|(E3 & P3 & H)]].
    + left. lia.
    + right. left. split; [lia|]. now rewrite P.
    + right. right. repeat split; [lia|congruence|]. now rewrite D.
Qed.

(** A reducer that returns the current element when it stands before the
    best so far, and keeps the best so far otherwise. *)
Variable pick : A -> A -> A.
Hypothesis pick_cases :
  forall best current,
    (before tier pace distance current best /\ pick best current = current)
    \/ (~ before tier pace distance current best /\ pick best current = best).

Lemma reduce_maximal (more : list A) (first : A) :
  In (fold_left pick more first) (first :: more)
  /\ forall e, In e (first :: more) ->
               ~ before tier pace distance e (fold_left pick more first).
Proof.
  revert first. induction more as [|x more IH]; intro first; simpl.
  - split; [now left|]. intros e [<-|[]]. apply before_irrefl.
  - destruct (IH (pick first x)) as [Hin Hmax]. split.
    + destruct Hin as [Hin|Hin]; [|now right; right].
      rewrite <- Hin.
      destruct (pick_cases first x) as [[_ ->]|[_ ->]]; auto.
    + assert (Hc := Hmax _ (or_introl eq_refl)).
      assert (Hf : ~ before tier pace distance first (pick first x)).
      { destruct (pick_cases first x) as [[H ->]|[H ->]].
        - intro H'. exact (before_irrefl _ (before_trans _ _ _ H H')).
        - apply before_irrefl. }
      assert (Hx : ~ before tier pace distance x (pick first x)).
      { destruct (pick_cases first x) as [[H ->]|[H ->]].
        - apply before_irrefl.
        - exact H. }
      intros e [<-|[<-|He]].
      * exact (not_before_trans _ _ _ Hc Hf).
      * exact (not_before_trans _ _ _ Hc Hx).
      * apply Hmax. now right.
Qed.

End ThreeKeys.

(** ** The code against the documented rules *)

Lemma or_first_nonzero (a b : option num) :
  or_num_lit (or_num a b) 0%Qc = first_nonzero a b.
Proof.
  unfold or_num_lit, or_num, truthy_num, first_nonzero.
  destruct a as [x|].
  - destruct (Qc_eq_dec x 0) as [->|N].
    + simpl. destruct b as [y|]; trivial.
      destruct (eqb y 0%Qc) eqn:E; trivial. now apply eqb_true_iff in E.
    + destruct (eqb x 0%Qc) eqn:E; [now apply eqb_true_iff in E|].
      simpl. now rewrite E.
  - destruct b as [y|]; trivial.
    destruct (eqb y 0%Qc) eqn:E; trivial. now apply eqb_true_iff in E.
Qed.

Lemma tier_documented (r : RunnerRest) :
  getConfidenceScore (confidence (rest r)) = documented_tier r.
Proof.
  unfold getConfidenceScore, documented_tier.
  destruct (confidence (rest r)) as [c|]; trivial.
  destruct (string_dec c "high") as [->|N1]; [reflexivity|].
  apply String.eqb_neq in N1. rewrite N1.
  destruct (string_dec c "medium") as [->|N2]; [reflexivity|].
  apply String.eqb_neq in N2. rewrite N2.
  destruct (string_dec c "low") as [->|N3]; [reflexivity|].
  apply String.eqb_neq in N3. now rewrite N3.
Qed.

Lemma pace_documented (r : RunnerRest) :
  Double.restPace r = documented_pace r.
Proof. apply or_first_nonzero. Qed.

Lemma mile_documented (r : RunnerRest) :
  Double.restMile r = documented_mile r.
Proof. apply or_first_nonzero. Qed.

Lemma distance_documented (avg : num) (r : RunnerRest) :
  Double.mileDiff avg r = documented_distance avg r.
Proof.
  unfold Double.mileDiff, documented_distance, Double.sub, abs.
  now rewrite mile_documented.
Qed.

Lemma fold_miles_documented (group : list RunnerRest) (acc : num) :
  fold_left (fun sum r => Double.add sum (Double.restMile r)) group acc
  = fold_left (fun total r => Double.rnd (total + documented_mile r)) group acc.
Proof.
  revert acc. induction group as [|x l IH]; intro acc; simpl; trivial.
  rewrite IH. unfold Double.add. now rewrite mile_documented.
Qed.

Lemma mean_documented (group : list RunnerRest) :
  Double.groupAvgMile group = documented_mean group.
Proof.
  unfold Double.groupAvgMile, documented_mean, Double.div.
  now rewrite fold_miles_documented.
Qed.

Lemma station_documented (r : RunnerRest) :
  restAidStation r = documented_station r.
Proof.
  unfold restAidStation, or_str_lit, documented_station.
  destruct (nearby_aid_station (rest r)) as [s|]; trivial.
  destruct (string_dec s "") as [->|N]; [reflexivity|].
  apply String.eqb_neq in N. now rewrite N.
Qed.

Lemma pickBest_outranks (avg : num) (best current : RunnerRest) :
  (outranks avg current best /\ Double.pickBest avg best current = current)
  \/ (~ outranks avg current best /\ Double.pickBest avg best current = best).
Proof.
  unfold Double.pickBest, outranks, before.
  rewrite !tier_documented, !pace_documented, !distance_documented.
  destruct (documented_tier current >? documented_tier best)%Z eqn:C1;
    [left; split; [left; lia|reflexivity]|].
  destruct (documented_tier best >? documented_tier current)%Z eqn:C2.
  { right. split; [|reflexivity].
    intros [H|[[H _]|[H _]]]; lia. }
  assert (E : documented_tier current = documented_tier best) by lia.
  destruct (gtb (documented_pace current) (documented_pace best)) eqn:P1.
  { apply gtb_true_iff in P1. left. split; [right; left; auto|reflexivity]. }
  destruct (gtb (documented_pace best) (documented_pace current)) eqn:P2.
  { apply gtb_true_iff in P2. right. split; [|reflexivity].
    intros [H|[[_ H]|(_ & H & _)]]; [lia| |].
    - exact (Qclt_not_le _ _ H (Qclt_le_weak _ _ P2)).
    - rewrite H in P2. exact (Qclt_not_eq _ _ P2 eq_refl). }
  apply gtb_false_iff in P1, P2.
  assert (Ep : documented_pace current = documented_pace best)
    by now apply Qcle_antisym.
  destruct (ltb (documented_distance avg current)
              (documented_distance avg best)) eqn:D.
  - apply ltb_true_iff in D. left. split; [auto|reflexivity].
  - apply ltb_false_iff in D. right. split; [|reflexivity].
    intros [H|[[_ H]|(_ & _ & H)]]; [lia| |].
    + rewrite Ep in H. exact (Qclt_not_eq _ _ H eq_refl).
    + exact (Qclt_not_le _ _ H D).
Qed.

Lemma runnerRest_maximal (avg : num) (group : list RunnerRest) (selected : Z) :
  runnerRests group selected <> [] ->
  exists chosen,
    Double.runnerRest avg group selected = Some chosen
    /\ In chosen (runnerRests group selected)
    /\ forall e, In e (runnerRests group selected) -> ~ outranks avg e chosen.
Proof.
  unfold Double.runnerRest. intro Hne.
  destruct (runnerRests group selected) as [|first more]; [congruence|].
  destruct (reduce_maximal _ documented_tier documented_pace
              (documented_distance avg) (Double.pickBest avg)
              (pickBest_outranks avg) more first) as [Hin Hmax].
  eauto.
Qed.

Lemma documented_tier_high (r : RunnerRest) :
  documented_tier r = 3%Z <-> confidence (rest r) = Some "high".
Proof.
  unfold documented_tier. destruct (confidence (rest r)) as [c|].
  - destruct (string_dec c "high") as [->|N].
    + tauto.
    + destruct (string_dec c "medium"), (string_dec c "low");
        split; try discriminate; intros [= ->]; congruence.
  - split; discriminate.
Qed.

Lemma documented_tier_le_3 (r : RunnerRest) : (documented_tier r <= 3)%Z.
Proof.
  unfold documented_tier. destruct (confidence (rest r)) as [c|]; [|lia].
  destruct (string_dec c "high"), (string_dec c "medium"),
    (string_dec c "low"); lia.
Qed.

(** Claim C1.  When a runner contributed at least one rest period to a
    group, the rest period shown for the runner is one of the runner's rest
    periods in the group, and it is a maximum of the documented order: no
    rest period of the runner in the group has a higher confidence tier
    (high 3, medium 2, low 1, anything else 0); among those of its tier
    none has a higher rest pace ([pace_during], else [actual_pace], else
    0); and among those of its tier and pace none lies closer to the mean
    mile of the group.  The mean and the distances are the binary64 results
    of the code.  Of a "high" and a "low" candidate the reducer returns the
    "high" one in either order of appearance. *)
Theorem representative_is_maximal (group : list RunnerRest) (selected : Z)
  (contributed : runnerRests group selected <> []) :
  let avgMile := documented_mean group in
  exists chosen,
    Double.runnerRest (Double.groupAvgMile group) group selected = Some chosen
    /\ Double.groupAvgMile group = avgMile
    /\ In chosen group /\ runnerId chosen = selected
    /\ (forall e, In e group -> runnerId e = selected ->
          (documented_tier e <= documented_tier chosen)%Z
          /\ (documented_tier e = documented_tier chosen ->
              (documented_pace e <= documented_pace chosen)%Qc)
          /\ (documented_tier e = documented_tier chosen ->
              documented_pace e = documented_pace chosen ->
              (documented_distance avgMile chosen
               <= documented_distance avgMile e)%Qc))
    /\ (forall e, In e group -> runnerId e = selected ->
                  confidence (rest e) = Some "high" ->
                  confidence (rest chosen) = Some "high")
    /\ (forall a b avg, confidence (rest a) = Some "high" ->
                        confidence (rest b) = Some "low" ->
                        Double.pickBest avg a b = a
                        /\ Double.pickBest avg b a = a).
Proof.
  intro avgMile. pose proof (mean_documented group) as Emean.
  fold avgMile in Emean. rewrite Emean.
  destruct (runnerRest_maximal avgMile group selected contributed)
    as (chosen & Hsome & Hin & Hmax).
  apply runnerRests_In in Hin. destruct Hin as [Hin Hid].
  assert (Hkeys : forall e, In e group -> runnerId e = selected ->
            (documented_tier e <= documented_tier chosen)%Z
            /\ (documented_tier e = documented_tier chosen ->
                (documented_pace e <= documented_pace chosen)%Qc)
            /\ (documented_tier e = documented_tier chosen ->
                documented_pace e = documented_pace chosen ->
                (documented_distance avgMile chosen
                 <= documented_distance avgMile e)%Qc)).
  { intros e He Hr.
    assert (Hno : ~ outranks avgMile e chosen)
      by (apply Hmax; now apply runnerRests_In).
    unfold outranks, before in Hno. split; [|split].
    - destruct (Z_le_gt_dec (documented_tier e) (documented_tier chosen));
        trivial. exfalso. apply Hno. left. lia.
    - intro Et. apply Qcnot_lt_le. intro L. apply Hno. right. left. auto.
    - intros Et Ep. apply Qcnot_lt_le. intro L. apply Hno. right. right.
      auto. }
  exists chosen. split; [exact Hsome|]. split; [reflexivity|].
  split; [exact Hin|]. split; [exact Hid|]. split; [exact Hkeys|]. split.
  - intros e He Hr Hc. apply documented_tier_high.
    apply documented_tier_high in Hc.
    destruct (Hkeys e He Hr) as [Ht _].
    pose proof (documented_tier_le_3 chosen). lia.
  - intros a b avg Ha Hb. unfold Double.pickBest. rewrite Ha, Hb.
    split; reflexivity.
Qed.

(** C1 on a sample.  One runner rested twice at Whiskey Row, at miles 77.3
    and 79, with the same confidence and no pace: the computed mean is
    78.15, the computed distances differ in the last digits, and the rest
    at mile 79 is shown although it comes second. *)
Lemma representative_is_maximal_sample :
  exists chosen,
    Double.runnerRest
      (Double.groupAvgMile
         [rest_of 1 (dec 773 10) "Whiskey Row" (Some "high");
          rest_of 1 (dec 79 1) "Whiskey Row" (Some "high")])
      [rest_of 1 (dec 773 10) "Whiskey Row" (Some "high");
       rest_of 1 (dec 79 1) "Whiskey Row" (Some "high")] 1
    = Some chosen
    /\ chosen = rest_of 1 (dec 79 1) "Whiskey Row" (Some "high").
Proof.
  destruct (representative_is_maximal
              [rest_of 1 (dec 773 10) "Whiskey Row" (Some "high");
               rest_of 1 (dec 79 1) "Whiskey Row" (Some "high")] 1%Z)
    as (chosen & Hsome & _); [discriminate|].
  exists chosen. split; [exact Hsome|].
  vm_compute in Hsome. injection Hsome as <-.
  unfold rest_of. repeat f_equal; apply Qc_is_canon; reflexivity.
Defined.

(** ** The grouping step on doubles *)

Lemma joins_documented (r first : RunnerRest) (others : list RunnerRest) :
  Double.joins r (first :: others) = true <->
  documented_station r = documented_station first
  /\ (documented_distance (documented_mean (first :: others)) r
      <= dec 5 1)%Qc.
Proof.
  unfold Double.joins. simpl groupAidStation.
  rewrite andb_true_iff, String.eqb_eq, leb_true_iff.
  fold (Double.mileDiff (Double.groupAvgMile (first :: others)) r).
  now rewrite distance_documented, mean_documented, !station_documented.
Qed.

Lemma addToGroup_first (r : RunnerRest) (groups groups' : list (list RunnerRest)) :
  Double.addToGroup r groups = Some groups' ->
  exists before group after,
    groups = before ++ group :: after
    /\ Forall (fun g => Double.joins r g = false) before
    /\ Double.joins r group = true
    /\ groups' = before ++ (group ++ [r]) :: after.
Proof.
  revert groups'. induction groups as [|g more IH]; intros groups'; simpl.
  - discriminate.
  - destruct (Double.joins r g) eqn:J.
    + intros [= <-]. exists [], g, more. simpl. auto.
    + destruct (Double.addToGroup r more) as [more'|]; [|discriminate].
      intros [= <-].
      destruct (IH _ eq_refl) as (before & group & after & -> & Hb & Hj & ->).
      exists (g :: before), group, after. simpl. auto.
Qed.

Lemma addToGroup_nowhere (r : RunnerRest) (groups : list (list RunnerRest)) :
  Double.addToGroup r groups = None ->
  Forall (fun g => Double.joins r g = false) groups.
Proof.
  induction groups as [|g more IH]; simpl; [constructor|].
  destruct (Double.joins r g) eqn:J; [discriminate|].
  destruct (Double.addToGroup r more); [discriminate|].
  intros _. constructor; auto.
Qed.

Lemma group_step_first (groups : list (list RunnerRest)) (r : RunnerRest) :
  (exists before group after,
      groups = before ++ group :: after
      /\ Forall (fun g => Double.joins r g = false) before
      /\ Double.joins r group = true
      /\ Double.group_step groups r = before ++ (group ++ [r]) :: after)
  \/ (Forall (fun g => Double.joins r g = false) groups
      /\ Double.group_step groups r = groups ++ [[r]]).
Proof.
  unfold Double.group_step.
  destruct (Double.addToGroup r groups) as [groups'|] eqn:E.
  - left. apply addToGroup_first in E.
    destruct E as (before & group & after & H1 & H2 & H3 & H4).
    exists before, group, after. auto.
  - right. split; trivial. now apply addToGroup_nowhere.
Qed.

Lemma one_station_snoc (group : list RunnerRest) (r : RunnerRest) :
  one_station group -> Double.joins r group = true ->
  one_station (group ++ [r]).
Proof.
  intros [Hne Hall] J. destruct group as [|first others]; [congruence|].
  apply joins_documented in J. destruct J as [Hst _].
  split; [discriminate|].
  assert (F : forall x, In x ((first :: others) ++ [r]) ->
                        documented_station x = documented_station first).
  { intros x Hx. apply in_app_or in Hx. destruct Hx as [Hx|[<-|[]]]; trivial.
    apply Hall; [exact Hx|now left]. }
  intros x y Hx Hy. now rewrite (F x Hx), (F y Hy).
Qed.

Lemma group_step_one_station (groups : list (list RunnerRest))
  (r : RunnerRest) :
  Forall one_station groups -> Forall one_station (Double.group_step groups r).
Proof.
  intro H.
  destruct (group_step_first groups r)
    as [(before & group & after & -> & _ & J & ->)|[_ ->]].
  - apply Forall_app in H. destruct H as [Hb Hga].
    apply Forall_cons_iff in Hga. destruct Hga as [Hg Ha].
    apply Forall_app. split; trivial.
    constructor; trivial. now apply one_station_snoc.
  - apply Forall_app. split; trivial. constructor; [|constructor].
    split; [discriminate|]. now intros x y [<-|[]] [<-|[]].
Qed.

Lemma grouped_one_station (l : list RunnerRest) :
  Forall one_station (Double.grouped l).
Proof.
  unfold Double.grouped.
  assert (G : forall groups, Forall one_station groups ->
                Forall one_station (fold_left Double.group_step l groups)).
  { induction l as [|r l IH]; intros groups H; simpl; trivial.
    apply IH. now apply group_step_one_station. }
  apply G. constructor.
Qed.

Lemma by_mile_documented (a b : RunnerRest) :
  gtb (Double.by_mile a b) 0%Qc = true <->
  (documented_mile b < documented_mile a)%Qc.
Proof.
  unfold Double.by_mile. now rewrite sub_sign, !mile_documented.
Qed.

(** Claim C2.  A rest period joins a group exactly when its aid-station
    identity ("Unknown" when [nearby_aid_station] is absent or empty) is
    that of the first member of the group and the distance of its resolved
    mile to the current mean mile of the group is at most 5.0; mean and
    distance are the binary64 results of the code.  The grouping step
    appends the rest period to the first group it joins, in scan order, and
    leaves the other groups as they are; when it joins none, a new group
    holding just this rest period is opened.  The mean of the extended group
    is taken over all its members; the rest periods are processed in
    ascending order of resolved mile, and the members of a group share one
    identity. *)
Theorem grouping_step (groups : list (list RunnerRest)) (r : RunnerRest) :
  (forall first others,
      Double.joins r (first :: others) = true <->
      documented_station r = documented_station first
      /\ (Qcabs (Double.rnd (documented_mile r
                             - documented_mean (first :: others)))
          <= dec 5 1)%Qc)
  /\ ((exists before group after,
          groups = before ++ group :: after
          /\ Forall (fun g => Double.joins r g = false) before
          /\ Double.joins r group = true
          /\ Double.group_step groups r = before ++ (group ++ [r]) :: after)
      \/ (Forall (fun g => Double.joins r g = false) groups
          /\ Double.group_step groups r = groups ++ [[r]]))
  /\ (forall group,
         Double.groupAvgMile (group ++ [r])
         = Double.rnd
             (Double.rnd
                (fold_left (fun total x => Double.rnd (total + documented_mile x))
                   group 0
                 + documented_mile r)
              / of_nat (S (List.length group)))%Qc)
  /\ (forall sorted,
         Double.grouped (sorted ++ [r])
         = Double.group_step (Double.grouped sorted) r)
  /\ (forall sorted, Forall one_station (Double.grouped sorted))
  /\ (forall all,
         Permutation (Double.sorted_rests all) all
         /\ StronglySorted (key_le documented_mile) (Double.sorted_rests all)
         /\ Double.restGroups all
            = Js.sort Double.by_avg_mile
                (fold_left Double.group_step (Double.sorted_rests all) [])).
Proof.
  split; [intros first others; apply joins_documented|].
  split; [apply group_step_first|]. split; [|split; [|split]].
  - intro group. rewrite mean_documented. unfold documented_mean.
    rewrite fold_left_app, length_app. simpl. now rewrite Nat.add_1_r.
  - intro sorted. unfold Double.grouped. now rewrite fold_left_app.
  - apply grouped_one_station.
  - intro all. split; [apply sort_perm|]. split; [|reflexivity].
    apply sort_sorted. apply by_mile_documented.
Qed.

(** C2 on a sample.  A rest at mile 8.3 does not join a group that holds one
    rest at mile 3.3 of the same aid station: the two doubles lie
    5.000000000000001 apart. *)
Lemma grouping_step_sample :
  Double.group_step [[rest_of 1 (dec 33 10) "Crown King" None]]
    (rest_of 2 (dec 83 10) "Crown King" None)
  = [[rest_of 1 (dec 33 10) "Crown King" None];
     [rest_of 2 (dec 83 10) "Crown King" None]].
Proof.
  destruct (grouping_step [[rest_of 1 (dec 33 10) "Crown King" None]]
              (rest_of 2 (dec 83 10) "Crown King" None))
    as (_ & [(before & group & after & E & _ & J & _)|[_ H]] & _).
  - exfalso. destruct before as [|g before].
    + injection E as <- _. vm_compute in J. discriminate.
    + injection E as _ E. now destruct before.
  - exact H.
Defined.

(** ** The rows of cards on doubles *)








(** ** The ranking on doubles *)

Lemma value_documented (x : option num) :
  or_num_lit (Double.read x) 0%Qc = value_or_zero x.
Proof.
  unfold or_num_lit, Double.read, value_or_zero. destruct x as [v|]; simpl;
    trivial.
  destruct (eqb (Double.parsed v) 0%Qc) eqn:E; trivial.
  apply eqb_true_iff in E. now rewrite E.
Qed.

(** What one segment of a runner becomes in [segmentPerformances]. *)
Lemma runner_perfs_listed (analyses : Analyses) (i : Z) :
  Double.runner_perfs analyses i
  = map (fun s => {| perf_name := segment_name s;
                     perf_difficulty := value_or_zero (difficulty_rating s);
                     perf_performance := value_or_zero (performance_score s);
                     perf_runnerId := i |})
      (listed_segments analyses i).
Proof.
  unfold Double.runner_perfs, listed_segments.
  destruct (analysis_of analyses i) as [a|]; trivial.
  destruct (course_analysis a) as [c|]; trivial.
  destruct (segment_analysis c) as [segments|]; trivial.
  apply map_ext. intro s. now rewrite !value_documented.
Qed.

Lemma perf_names_listed (analyses : Analyses) (selected : list Z) :
  map perf_name (Double.segmentPerformances analyses selected)
  = map segment_name (flat_map (listed_segments analyses) selected).
Proof.
  unfold Double.segmentPerformances.
  induction selected as [|i l IH]; simpl; trivial.
  rewrite !map_app, IH, runner_perfs_listed, map_map. reflexivity.
Qed.

Lemma perfs_named_listed (analyses : Analyses) (selected : list Z)
  (n : string) :
  let perfs := perfs_named (Double.segmentPerformances analyses selected) n in
  let entries := contributions analyses selected n in
  map perf_difficulty perfs
  = map (fun s => value_or_zero (difficulty_rating s)) entries
  /\ map perf_performance perfs
     = map (fun s => value_or_zero (performance_score s)) entries
  /\ List.length perfs = List.length entries.
Proof.
  unfold perfs_named, contributions, Double.segmentPerformances. simpl.
  induction selected as [|i l (IH1 & IH2 & IH3)]; simpl; [auto|].
  rewrite !filter_app, !map_app, !length_app, IH1, IH2, IH3.
  rewrite runner_perfs_listed.
  assert (H : forall segs,
    let ps := filter (fun p => String.eqb (perf_name p) n)
                (map (fun s => {| perf_name := segment_name s;
                                  perf_difficulty :=
                                    value_or_zero (difficulty_rating s);
                                  perf_performance :=
                                    value_or_zero (performance_score s);
                                  perf_runnerId := i |}) segs) in
    let ss := filter (fun s => String.eqb (segment_name s) n) segs in
    map perf_difficulty ps
    = map (fun s => value_or_zero (difficulty_rating s)) ss
    /\ map perf_performance ps
       = map (fun s => value_or_zero (performance_score s)) ss
    /\ List.length ps = List.length ss).
  { induction segs as [|s segs (H1 & H2 & H3)]; simpl; [auto|].
    destruct (String.eqb (segment_name s) n); simpl; [|auto].
    now rewrite H1, H2, H3. }
  destruct (H (listed_segments analyses i)) as (H1 & H2 & H3).
  now rewrite H1, H2, H3.
Qed.

Lemma summarize_documented (analyses : Analyses) (selected : list Z)
  (n : string) :
  Double.summarize
    (n, stats_of (Double.segmentPerformances analyses selected) n)
  = documented_candidate analyses selected n.
Proof.
  destruct (perfs_named_listed analyses selected n) as (H1 & H2 & H3).
  unfold Double.summarize, stats_of, documented_candidate. simpl.
  rewrite H1, H2, H3. unfold documented_average, Double.div, Double.sum.
  now rewrite !length_map.
Qed.

Lemma contributions_some (analyses : Analyses) (selected : list Z)
  (n : string) :
  In n (map segment_name (flat_map (listed_segments analyses) selected)) ->
  contributions analyses selected n <> [].
Proof.
  intro H. apply in_map_iff in H. destruct H as (s & <- & Hs).
  unfold contributions. intro E.
  assert (Hin : In s (filter (fun s0 => String.eqb (segment_name s0)
                                            (segment_name s))
                        (flat_map (listed_segments analyses) selected))).
  { apply filter_In. split; trivial. apply String.eqb_refl. }
  now rewrite E in Hin.
Qed.

Lemma by_difficulty_key (a b : CriticalSegment) :
  gtb (Double.by_difficulty_desc a b) 0%Qc = true <->
  (- avgDifficulty b < - avgDifficulty a)%Qc.
Proof.
  unfold Double.by_difficulty_desc. rewrite sub_sign. symmetry.
  apply Qcopp_lt_iff.
Qed.

Lemma ranking_sorted (candidates : list CriticalSegment) :
  StronglySorted (key_ge avgDifficulty)
    (Js.sort Double.by_difficulty_desc candidates).
Proof.
  eapply StronglySorted_weaken;
    [|apply (sort_sorted _ _ (fun c => (- avgDifficulty c)%Qc)
               by_difficulty_key)].
  intros a b. unfold key_le, key_ge. apply Qcopp_le_iff.
Qed.

Lemma ranking_stable (d : num) (candidates : list CriticalSegment) :
  filter (fun c => eqb (avgDifficulty c) d)
    (Js.sort Double.by_difficulty_desc candidates)
  = filter (fun c => eqb (avgDifficulty c) d) candidates.
Proof.
  pose proof (sort_stable _ _ (fun c => (- avgDifficulty c)%Qc)
                by_difficulty_key (- d)%Qc candidates) as H.
  rewrite (filter_ext _ (fun c => eqb (avgDifficulty c) d)) in H
    by (intro c; apply eqb_opp).
  rewrite (filter_ext (fun c => eqb (- avgDifficulty c)%Qc (- d)%Qc)
             (fun c => eqb (avgDifficulty c) d)) in H
    by (intro c; apply eqb_opp).
  exact H.
Qed.

Lemma plain_listed (analyses : Analyses) (selected : list Z) :
  Forall (fun s => Object.inherited (segment_name s) = false)
    (flat_map (listed_segments analyses) selected) ->
  plain_names (Double.segmentPerformances analyses selected) = true.
Proof.
  intro H. unfold plain_names. apply forallb_forall. intros p Hp.
  assert (Hn : In (perf_name p)
                 (map segment_name
                    (flat_map (listed_segments analyses) selected))).
  { rewrite <- perf_names_listed. now apply in_map. }
  apply in_map_iff in Hn. destruct Hn as (s & E & Hs).
  rewrite Forall_forall in H. rewrite <- E, (H s Hs). reflexivity.
Qed.

Lemma ranking_plain (analyses : Analyses) (selected : list Z) :
  plain_names (Double.segmentPerformances analyses selected) = true ->
  Double.updateRecommendationsMultiRunner analyses selected
  = Return (Double.criticalSegments
              (stats_by_name (Double.segmentPerformances analyses selected))).
Proof.
  intro H. unfold Double.updateRecommendationsMultiRunner.
  now rewrite (segmentStats_plain _ H).
Qed.

(** Claim C5, as amended.  When no segment name is a property name that
    objects inherit from [Object.prototype], the ranking is the first five
    of the candidates sorted by descending mean difficulty, candidates of
    equal mean difficulty keeping the order of [Object.entries].  There is
    one candidate per distinct segment name of the selected runners.  It
    carries the number of entries with that name, a runner without the
    segment contributing none, and the means of their difficulty ratings
    and of their performance scores, an absent or zero rating or score
    counting 0; the means are binary64 results, the values being added in
    the order of the runners.  [Object.entries] lists the names created in
    first-seen order, except that names that are array indices come first,
    in ascending numeric order. *)
Theorem critical_segments_ranking (analyses : Analyses) (selected : list Z)
  (plain : Forall (fun s => Object.inherited (segment_name s) = false)
             (flat_map (listed_segments analyses) selected)) :
  let names :=
    first_seen (map segment_name
                  (flat_map (listed_segments analyses) selected)) in
  let stats :=
    stats_by_name (Double.segmentPerformances analyses selected) in
  let candidates := map Double.summarize (Object.entries stats) in
  let ranked := Js.sort Double.by_difficulty_desc candidates in
  Double.updateRecommendationsMultiRunner analyses selected
  = Return (firstn 5 ranked)
  /\ segmentStats (Double.segmentPerformances analyses selected)
     = Return stats
  /\ map fst stats = names
  /\ Object.entries stats
     = Js.sort Object.by_index (filter Object.is_index stats)
       ++ filter (fun e => negb (Object.is_index e)) stats
  /\ StronglySorted (fun a b => (Object.index_of a <= Object.index_of b)%Z)
       (Js.sort Object.by_index (filter Object.is_index stats))
  /\ Permutation (Object.entries stats) stats
  /\ (Forall (fun n => Object.array_index n = None) names ->
      Object.entries stats = stats)
  /\ map name candidates = map fst (Object.entries stats)
  /\ (forall c, In c candidates ->
        In (name c) names
        /\ contributions analyses selected (name c) <> []
        /\ c = documented_candidate analyses selected (name c))
  /\ Permutation ranked candidates
  /\ StronglySorted (key_ge avgDifficulty) ranked
  /\ (forall d, filter (fun c => eqb (avgDifficulty c) d) ranked
                = filter (fun c => eqb (avgDifficulty c) d) candidates).
Proof.
  intros names stats candidates ranked.
  pose proof (plain_listed _ _ plain) as plain'.
  assert (Hnames : map fst stats = names).
  { unfold stats, stats_by_name. rewrite map_map. simpl. rewrite map_id.
    unfold names. now rewrite perf_names_listed. }
  split; [now apply ranking_plain|].
  split; [now apply segmentStats_plain|].
  split; [exact Hnames|]. split; [reflexivity|].
  split; [apply index_entries_sorted|].
  split; [apply entries_perm|]. split; [|split; [|split]].
  - intro H. apply entries_no_index. rewrite <- Hnames in H.
    rewrite Forall_map in H. exact H.
  - unfold candidates. rewrite map_map. apply map_ext.
    now intros [n st].
  - intros c Hc. unfold candidates in Hc.
    apply in_map_iff in Hc. destruct Hc as (e & <- & He).
    apply (Permutation_in _ (entries_perm stats)) in He.
    unfold stats, stats_by_name in He. apply in_map_iff in He.
    destruct He as (n & <- & Hn). rewrite perf_names_listed in Hn.
    rewrite summarize_documented. simpl. split; [exact Hn|].
    split; [|reflexivity].
    apply contributions_some. now apply first_seen_In.
  - split; [apply sort_perm|]. split; [apply ranking_sorted|].
    intro d. apply ranking_stable.
Qed.

(** C5 on the sample: the segment rated 3.5 and 4.5 averages 4 and ranks
    before the one that averages 3. *)
Lemma critical_segments_ranking_sample :
  exists ranking,
    Double.updateRecommendationsMultiRunner Sample.analyses Sample.selected
    = Return ranking
    /\ map (fun c => (name c, this (avgDifficulty c), count c)) ranking
       = [("Crown King to Whiskey Row", 4 # 1, 2%nat);
          ("Start to Crown King", 3 # 1, 2%nat)].
Proof.
  eexists. split.
  - apply (critical_segments_ranking Sample.analyses Sample.selected).
    vm_compute. repeat constructor.
  - vm_compute. reflexivity.
Defined.

(** C5: segment "2" is met before segment "1" and both average 3, yet "1"
    is ranked first. *)
Lemma numbered_segments_are_ranked_by_number :
  map perf_name (Double.segmentPerformances Sample.numbered [1; 2]%Z)
  = ["2"; "1"]
  /\ exists ranking,
       Double.updateRecommendationsMultiRunner Sample.numbered [1; 2]%Z
       = Return ranking
       /\ map (fun c => (name c, this (avgDifficulty c))) ranking
          = [("1", 3 # 1); ("2", 3 # 1)].
Proof.
  split; [reflexivity|]. eexists. split; vm_compute; reflexivity.
Qed.

(** Rounding decides the order: the ratings 0.1 and 0.2 average
    0.15000000000000002, which ranks "Ridge" before "Valley", rated 0.15
    twice and met first. *)
Example rounded_means_decide_the_order :
  let analyses :=
    [(1, reporting [rated "Valley" (dec 15 100); rated "Ridge" (dec 1 10)]);
     (2, reporting [rated "Valley" (dec 15 100); rated "Ridge" (dec 2 10)])]%Z
  in
  exists ranking,
    Double.updateRecommendationsMultiRunner analyses [1; 2]%Z = Return ranking
    /\ map name ranking = ["Ridge"; "Valley"]
    /\ map (fun c => this (avgDifficulty c)) ranking
       = [this (Double.parsed (dec 15000000000000002 100000000000000000));
          this (Double.parsed (dec 15 100))].
Proof.
  eexists. split; [vm_compute; reflexivity|].
  split; vm_compute; reflexivity.
Qed.

(** ** Permuting the runners *)

Lemma insert_map {A B : Type} (g : A -> B) (cmp : B -> B -> num) (x : A)
  (l : list A) :
  Js.insert cmp (g x) (map g l)
  = map g (Js.insert (fun a b => cmp (g a) (g b)) x l).
Proof.
  induction l as [|y l IH]; simpl; trivial.
  destruct (gtb (cmp (g x) (g y)) 0%Qc); simpl; [now rewrite IH|reflexivity].
Qed.

Lemma sort_map {A B : Type} (g : A -> B) (cmp : B -> B -> num) (l : list A) :
  Js.sort cmp (map g l) = map g (Js.sort (fun a b => cmp (g a) (g b)) l).
Proof.
  unfold Js.sort. induction l as [|x l IH]; simpl; trivial.
  now rewrite IH, insert_map.
Qed.

Lemma filter_of_map {A B : Type} (g : A -> B) (p : B -> bool) (l : list A) :
  filter p (map g l) = map g (filter (fun a => p (g a)) l).
Proof.
  induction l as [|x l IH]; simpl; trivial.
  destruct (p (g x)); simpl; now rewrite IH.
Qed.

Lemma entries_named {V : Type} (f : string -> V) (names : list string) :
  Object.entries (map (fun n => (n, f n)) names)
  = map (fun n => (n, f n)) (entries_order names).
Proof.
  unfold entries_order, Object.entries.
  rewrite !filter_of_map, !sort_map, !map_app, !map_map. reflexivity.
Qed.

Lemma candidates_in_order (analyses : Analyses) (selected : list Z) :
  map Double.summarize
    (Object.entries
       (stats_by_name (Double.segmentPerformances analyses selected)))
  = map (documented_candidate analyses selected)
      (entries_order
         (first_seen (map segment_name
                        (flat_map (listed_segments analyses) selected)))).
Proof.
  unfold stats_by_name. rewrite entries_named, map_map, perf_names_listed.
  apply map_ext. intro n. apply summarize_documented.
Qed.

Lemma entries_order_perm (names : list string) :
  Permutation (entries_order names) names.
Proof.
  unfold entries_order. rewrite entries_perm, map_map. simpl.
  now rewrite map_id.
Qed.

(** Two arrangements sorted by descending key coincide when, for every
    key, the elements of that key are the same and in the same order. *)
Lemma sorted_blocks_unique {A : Type} (key : A -> num) (l l' : list A) :
  StronglySorted (key_ge key) l -> StronglySorted (key_ge key) l' ->
  (forall d, filter (fun a => eqb (key a) d) l
             = filter (fun a => eqb (key a) d) l') ->
  l = l'.
Proof.
  intro Hs. revert l'. induction Hs as [|a t Hst IH Ha]; intros l' Hs' Hf.
  - destruct l' as [|b t']; trivial.
    specialize (Hf (key b)). simpl in Hf.
    assert (E : eqb (key b) (key b) = true) by now apply eqb_true_iff.
    rewrite E in Hf. discriminate.
  - assert (Eaa : eqb (key a) (key a) = true) by now apply eqb_true_iff.
    destruct l' as [|b t'].
    { specialize (Hf (key a)). simpl in Hf. rewrite Eaa in Hf.
      discriminate. }
    inversion Hs' as [|? ? Hst' Hb]; subst.
    rewrite Forall_forall in Ha, Hb.
    assert (Ebb : eqb (key b) (key b) = true) by now apply eqb_true_iff.
    assert (Ia : In a (b :: t')).
    { pose proof (Hf (key a)) as H. simpl in H. rewrite Eaa in H.
      assert (I : In a (a :: filter (fun x => eqb (key x) (key a)) t))
        by now left.
      rewrite H in I.
      destruct (eqb (key b) (key a)).
      - destruct I as [->|I]; [now left|].
        right. apply filter_In in I. tauto.
      - right. apply filter_In in I. tauto. }
    assert (Ib : In b (a :: t)).
    { pose proof (Hf (key b)) as H. simpl in H. rewrite Ebb in H.
      assert (I : In b (b :: filter (fun x => eqb (key x) (key b)) t'))
        by now left.
      rewrite <- H in I.
      destruct (eqb (key a) (key b)).
      - destruct I as [->|I]; [now left|].
        right. apply filter_In in I. tauto.
      - right. apply filter_In in I. tauto. }
    assert (Ek : key a = key b).
    { apply Qcle_antisym.
      - destruct Ia as [->|Ia]; [apply Qcle_refl|]. exact (Hb a Ia).
      - destruct Ib as [->|Ib]; [apply Qcle_refl|]. exact (Ha b Ib). }
    assert (Eab : a = b).
    { pose proof (Hf (key a)) as H. simpl in H.
      rewrite Eaa, <- Ek, Eaa in H. now injection H. }
    subst b. f_equal. apply IH; trivial.
    intro d. specialize (Hf d). simpl in Hf.
    destruct (eqb (key a) d); [now injection Hf|exact Hf].
Qed.

Lemma ranking_throws (analyses : Analyses) (selected : list Z) :
  throws (Double.updateRecommendationsMultiRunner analyses selected) <->
  plain_names (Double.segmentPerformances analyses selected) = false.
Proof.
  destruct (plain_names (Double.segmentPerformances analyses selected))
    eqn:E.
  - rewrite (ranking_plain _ _ E). split; [|discriminate].
    intros [msg H]. discriminate.
  - split; trivial. intros _.
    destruct (first_inherited _ E) as (l1 & p & l2 & Hl & H1 & Hp).
    unfold Double.updateRecommendationsMultiRunner.
    rewrite Hl, (segmentStats_inherited l1 l2 p H1 Hp). simpl.
    now eexists.
Qed.

Lemma plain_names_perm (l l' : list Perf) :
  Permutation l l' -> plain_names l = plain_names l'.
Proof.
  intro H. unfold plain_names.
  destruct (forallb _ l) eqn:E, (forallb _ l') eqn:E'; trivial.
  - rewrite forallb_forall in E.
    assert (F : forallb (fun p => negb (Object.inherited (perf_name p))) l'
                = true).
    { apply forallb_forall. intros p Hp. apply E.
      exact (Permutation_in _ (Permutation_sym H) Hp). }
    congruence.
  - rewrite forallb_forall in E'.
    assert (F : forallb (fun p => negb (Object.inherited (perf_name p))) l
                = true).
    { apply forallb_forall. intros p Hp. apply E'.
      exact (Permutation_in _ H Hp). }
    congruence.
Qed.

Lemma listed_perm (analyses : Analyses) (selected selected' : list Z) :
  Permutation selected selected' ->
  Permutation (flat_map (listed_segments analyses) selected)
    (flat_map (listed_segments analyses) selected').
Proof. intro H. now rewrite H. Qed.

(** Claim C7, as amended.  Permuting the selected runner ids leaves the
    outcome of the ranking (a list or a [TypeError]) unchanged, as well as
    the distinct segment names and, for every name, the entries that
    contribute to it, hence its count.  The ranking itself is unchanged
    when, in addition, the candidate of every segment (its two binary64
    means, summed in the new order of the runners) comes out the same, and
    the segments of one mean difficulty stand in the same order of
    [Object.entries] as before. *)
Theorem ranking_under_permutation (analyses : Analyses)
  (selected selected' : list Z)
  (permuted : Permutation selected selected') :
  let names :=
    first_seen (map segment_name
                  (flat_map (listed_segments analyses) selected)) in
  let names' :=
    first_seen (map segment_name
                  (flat_map (listed_segments analyses) selected')) in
  let candidate := documented_candidate analyses selected in
  let candidate' := documented_candidate analyses selected' in
  (throws (Double.updateRecommendationsMultiRunner analyses selected) <->
   throws (Double.updateRecommendationsMultiRunner analyses selected'))
  /\ Permutation names names'
  /\ (forall n, Permutation (contributions analyses selected n)
                  (contributions analyses selected' n)
                /\ count (candidate n) = count (candidate' n))
  /\ (forall ranking,
         Double.updateRecommendationsMultiRunner analyses selected
         = Return ranking ->
         (forall n, In n names -> candidate n = candidate' n) ->
         (forall d,
             filter (fun n => eqb (avgDifficulty (candidate n)) d)
               (entries_order names)
             = filter (fun n => eqb (avgDifficulty (candidate n)) d)
                 (entries_order names')) ->
         Double.updateRecommendationsMultiRunner analyses selected'
         = Return ranking).
Proof.
  intros names names' candidate candidate'.
  set (perfs := Double.segmentPerformances analyses selected).
  set (perfs' := Double.segmentPerformances analyses selected').
  assert (Hp : Permutation perfs perfs').
  { unfold perfs, perfs', Double.segmentPerformances. now rewrite permuted. }
  assert (Hn : Permutation names names').
  { apply first_seen_perm, Permutation_map. now apply listed_perm. }
  assert (Hc : forall n, Permutation (contributions analyses selected n)
                           (contributions analyses selected' n)).
  { intro n. apply filter_perm. now apply listed_perm. }
  split; [|split; [exact Hn|split]].
  - rewrite !ranking_throws. fold perfs perfs'.
    now rewrite (plain_names_perm _ _ Hp).
  - intro n. split; [apply Hc|]. simpl. apply Permutation_length, Hc.
  - intros ranking Hrun Hsame Hties.
    assert (plain : plain_names perfs = true).
    { destruct (plain_names perfs) eqn:E; trivial.
      assert (T : throws (Double.updateRecommendationsMultiRunner analyses
                            selected)) by now apply ranking_throws.
      destruct T as [msg T]. congruence. }
    assert (plain' : plain_names perfs' = true)
      by now rewrite <- (plain_names_perm _ _ Hp).
    rewrite (ranking_plain _ _ plain) in Hrun.
    rewrite (ranking_plain _ _ plain'). rewrite <- Hrun. f_equal.
    unfold Double.criticalSegments. f_equal. fold perfs perfs'.
    unfold perfs, perfs'. rewrite !candidates_in_order.
    fold names names' candidate candidate'.
    assert (E' : map candidate' (entries_order names')
                 = map candidate (entries_order names')).
    { apply map_ext_in. intros n Hin. symmetry. apply Hsame.
      apply (Permutation_in _ (entries_order_perm names')) in Hin.
      exact (Permutation_in _ (Permutation_sym Hn) Hin). }
    rewrite E'.
    apply (sorted_blocks_unique avgDifficulty); try apply ranking_sorted.
    intro d. rewrite !ranking_stable, !filter_of_map. f_equal.
    symmetry. apply Hties.
Qed.

(** C7 on the sample: the ranking for the runners in reverse order.  The
    two segments are rated 3.5 and 4.5, and 3 and 3. *)
Lemma ranking_under_permutation_sample :
  exists ranking,
    Double.updateRecommendationsMultiRunner Sample.analyses [1; 2; 3; 4]%Z
    = Return ranking
    /\ Double.updateRecommendationsMultiRunner Sample.analyses [4; 3; 2; 1]%Z
       = Return ranking.
Proof.
  assert (P : Permutation [1; 2; 3; 4]%Z [4; 3; 2; 1]%Z)
    by apply (Permutation_rev [1; 2; 3; 4]%Z).
  destruct (ranking_under_permutation Sample.analyses _ _ P)
    as (_ & _ & _ & H).
  eexists. split; [vm_compute; reflexivity|].
  apply H.
  - vm_compute. reflexivity.
  - intros n Hn. vm_compute in Hn.
    destruct Hn as [<-|[<-|[]]]; vm_compute; reflexivity.
  - intro d. vm_compute entries_order.
    unfold documented_candidate. reflexivity.
Defined.

(** C7: two segments of equal mean difficulty swap places with the two
    runners. *)
Lemma tied_segments_follow_runner_order :
  Permutation [1; 2]%Z [2; 1]%Z
  /\ exists ranking ranking',
       Double.updateRecommendationsMultiRunner Sample.level [1; 2]%Z
       = Return ranking
       /\ Double.updateRecommendationsMultiRunner Sample.level [2; 1]%Z
          = Return ranking'
       /\ map name ranking = ["Ridge"; "Valley"]
       /\ map name ranking' = ["Valley"; "Ridge"]
       /\ ranking <> ranking'.
Proof.
  split; [apply perm_swap|].
  eexists _, _. split; [vm_compute; reflexivity|].
  split; [vm_compute; reflexivity|].
  split; [reflexivity|]. split; [reflexivity|].
  intro H. apply (f_equal (map name)) in H. discriminate.
Qed.

(** The means follow the order of the runners: the ratings 0.1, 0.2 and
    0.3 of one segment average 0.20000000000000004 when they are added in
    this order and 0.19999999999999998 in the reverse order. *)
Example means_follow_runner_order :
  let analyses :=
    [(1, reporting [rated "Ridge" (dec 1 10)]);
     (2, reporting [rated "Ridge" (dec 2 10)]);
     (3, reporting [rated "Ridge" (dec 3 10)])]%Z in
  exists ranking ranking',
    Double.updateRecommendationsMultiRunner analyses [1; 2; 3]%Z
    = Return ranking
    /\ Double.updateRecommendationsMultiRunner analyses [3; 2; 1]%Z
       = Return ranking'
    /\ map (fun c => this (avgDifficulty c)) ranking
       = [this (Double.parsed (dec 20000000000000004 100000000000000000))]
    /\ map (fun c => this (avgDifficulty c)) ranking'
       = [this (Double.parsed (dec 19999999999999998 100000000000000000))]
    /\ ranking <> ranking'.
Proof.
  eexists _, _. split; [vm_compute; reflexivity|].
  split; [vm_compute; reflexivity|].
  split; [vm_compute; reflexivity|]. split; [vm_compute; reflexivity|].
  intro H. apply (f_equal (map (fun c => this (avgDifficulty c)))) in H.
  vm_compute in H. discriminate.
Qed.

(** ** Validation and the header *)

Lemma names_throw_iff (all : list Runner) (selected : list Z)
  (acc : list string) :
  throws (forEach (MutipleRunnerAnalysis.name_step all) selected acc) <->
  exists i, In i selected /\ find_runner all i = None.
Proof.
  revert acc. induction selected as [|j l IH]; intro acc; simpl.
  - split; [intros [msg H]; discriminate|intros (i & [] & _)].
  - unfold MutipleRunnerAnalysis.name_step at 1.
    destruct (find_runner all j) as [r|] eqn:E; simpl.
    + rewrite IH. split; intros (i & Hi & Hn); exists i.
      * auto.
      * destruct Hi as [<-|Hi]; [congruence|auto].
    + split; [|intros _; now eexists]. intros _. exists j. auto.
Qed.

(** Claim C4, as amended.  [BaseRunnerAnalysis.#validateInputs] throws
    exactly when [runners.selectedRunners] is undefined or the status of the
    payload is "failed".  In the first case the message is
    "Missing runner data: ..."; otherwise it is the error message of the
    payload when that is present and non-empty, and "Analysis failed" when
    it is absent.  With a defined selection, empty or not, and any other
    status, validation returns.  [RunnerAnalyses.#validateInputs] throws
    exactly when the status of the object it is given is "failed".
    Validation is not the only abort: when it passes,
    [MutipleRunnerAnalysis.init] throws while it builds the header exactly
    when a selected runner is not listed in [allRunners]. *)
Theorem validation_throws_iff (analyses : StatusObject) (runners : RunnersArg) :
  (throws (BaseRunnerAnalysis.validateInputs analyses runners) <->
   selectedRunners runners = None \/ status analyses = Some "failed")
  /\ (selectedRunners runners = None ->
      BaseRunnerAnalysis.validateInputs analyses runners
      = Throw "Missing runner data: [object Object]")
  /\ (selectedRunners runners <> None -> status analyses = Some "failed" ->
      BaseRunnerAnalysis.validateInputs analyses runners
      = Throw (or_str_lit (error analyses) "Analysis failed"))
  /\ (selectedRunners runners <> None -> status analyses <> Some "failed" ->
      BaseRunnerAnalysis.validateInputs analyses runners = Return tt)
  /\ (error analyses = None ->
      or_str_lit (error analyses) "Analysis failed" = "Analysis failed")
  /\ (forall msg, error analyses = Some msg -> msg <> "" ->
                  or_str_lit (error analyses) "Analysis failed" = msg)
  /\ (throws (RunnerAnalyses.validateInputs analyses) <->
      status analyses = Some "failed")
  /\ (forall selected,
         selectedRunners runners = Some selected ->
         status analyses <> Some "failed" ->
         BaseRunnerAnalysis.validateInputs analyses runners = Return tt
         /\ (throws (MutipleRunnerAnalysis.init_header analyses runners) <->
             exists i, In i selected
                       /\ find (fun r => Z.eqb (id r) i) (allRunners runners)
                          = None)).
Proof.
  split; [apply base_validate_throws_iff|].
  split; [apply base_validate_missing|].
  split; [apply base_validate_failed|].
  split; [apply base_validate_passes|].
  split; [now intros ->|].
  split; [|split; [apply runner_analyses_validate_throws_iff|]].
  - intros msg -> Hne. simpl. apply String.eqb_neq in Hne. now rewrite Hne.
  - intros selected Hsel Hst.
    assert (V : BaseRunnerAnalysis.validateInputs analyses runners
                = Return tt).
    { apply base_validate_passes; [congruence|exact Hst]. }
    split; [exact V|].
    unfold MutipleRunnerAnalysis.init_header. rewrite V, Hsel. simpl.
    rewrite <- (names_throw_iff (allRunners runners) selected []).
    destruct (forEach _ selected []) as [names|msg]; simpl.
    + split; intros [m H]; discriminate.
    + split; intros _; now eexists.
Qed.

(** C4: with a successful payload and runner 9, who is not listed, selected
    next to runner 1, validation returns and the header of the comparison
    throws. *)
Example unlisted_runner_aborts_the_header :
  let analyses := {| status := Some "success"; error := None |} in
  let runners := {| selectedRunners := Some [1; 9]%Z;
                    allRunners := Sample.runners |} in
  BaseRunnerAnalysis.validateInputs analyses runners = Return tt
  /\ throws (MutipleRunnerAnalysis.init_header analyses runners).
Proof. split; [reflexivity|]. eexists. reflexivity. Qed.

(** ** The constructor of [RunnerAnalyses] *)

Lemma construct_throws_iff (p : RunnerAnalyses.Payload) :
  throws (RunnerAnalyses.construct p) <->
  RunnerAnalyses.payload_analyses p = RunnerAnalyses.Null
  \/ exists o, RunnerAnalyses.payload_analyses p = RunnerAnalyses.Given o
               /\ status o = Some "failed".
Proof.
  unfold RunnerAnalyses.construct.
  destruct (RunnerAnalyses.payload_analyses p) as [| |o]; simpl.
  - split; [intros [msg H]; discriminate|].
    intros [H|(o & H & _)]; discriminate.
  - split; [auto|intros _; now eexists].
  - pose proof (runner_analyses_validate_throws_iff o) as V.
    destruct (RunnerAnalyses.validateInputs o) as [u|msg]; simpl.
    + split; [intros [m H]; discriminate|].
      intros [H|(o' & [= <-] & Hf)]; [discriminate|].
      apply V in Hf. destruct Hf as [m Hm]. discriminate.
    + split; [|intros _; now eexists]. intros _. right. exists o.
      split; trivial. apply V. now eexists.
Qed.

Lemma construct_returns (p : RunnerAnalyses.Payload) (instance : StatusObject) :
  RunnerAnalyses.construct p = Return instance ->
  error instance = None
  /\ (status instance = Some "failed" <->
      RunnerAnalyses.payload_status p = RunnerAnalyses.Given "failed").
Proof.
  unfold RunnerAnalyses.construct.
  destruct (match RunnerAnalyses.payload_analyses p with
            | RunnerAnalyses.Undefined => _
            | RunnerAnalyses.Null => _
            | RunnerAnalyses.Given analyses => _
            end) as [u|msg]; simpl; [|discriminate].
  intros [= <-]. simpl. split; trivial.
  destruct (RunnerAnalyses.payload_status p) as [| |s]; split; congruence.
Qed.

(** Property X5.
    The constructor of [RunnerAnalyses] throws exactly when the payload is
    [null], its [analyses] is [null], or its [analyses] is an object of
    status "failed"; a payload or an [analyses] that is left out takes its
    default.  The instance it returns keeps the status of the payload and
    never an error message, so that [init], given the instance and a
    [Runners] object, throws exactly when the status of the payload is
    "failed", and then always with the message "Analysis failed". *)
Theorem constructed_inputs_lose_the_message
  (payload : RunnerAnalyses.Optional RunnerAnalyses.Payload)
  (selected : list Z) (all : list Runner) :
  (throws (RunnerAnalyses.new payload) <->
   payload = RunnerAnalyses.Null
   \/ exists p, payload = RunnerAnalyses.Given p
                /\ (RunnerAnalyses.payload_analyses p = RunnerAnalyses.Null
                    \/ exists o, RunnerAnalyses.payload_analyses p
                                 = RunnerAnalyses.Given o
                                 /\ status o = Some "failed"))
  /\ (forall instance,
         RunnerAnalyses.new payload = Return instance ->
         error instance = None
         /\ (throws (BaseRunnerAnalysis.validateInputs instance
                       (Runners.as_argument selected all))
             <-> exists p, payload = RunnerAnalyses.Given p
                           /\ RunnerAnalyses.payload_status p
                              = RunnerAnalyses.Given "failed")
         /\ (status instance = Some "failed" ->
             BaseRunnerAnalysis.validateInputs instance
               (Runners.as_argument selected all)
             = Throw "Analysis failed")).
Proof.
  split.
  - destruct payload as [| |p]; simpl.
    + rewrite construct_throws_iff. simpl.
      split; [intros [H|(o & H & _)]; discriminate|].
      intros [H|(p & H & _)]; discriminate.
    + split; [auto|intros _; now eexists].
    + rewrite construct_throws_iff. split.
      * intro H. right. now exists p.
      * intros [H|(p' & [= <-] & H)]; [discriminate|exact H].
  - intros instance H.
    assert (C : exists p, RunnerAnalyses.construct p = Return instance
                          /\ (payload = RunnerAnalyses.Given p
                              \/ payload = RunnerAnalyses.Undefined
                                 /\ RunnerAnalyses.payload_status p
                                    = RunnerAnalyses.Undefined)).
    { destruct payload as [| |p]; simpl in H; [|discriminate|].
      - eexists. split; [exact H|]. right. now split.
      - exists p. auto. }
    destruct C as (p & Hc & Hp).
    destruct (construct_returns p instance Hc) as [He Hs].
    split; [exact He|]. split.
    + rewrite base_validate_throws_iff. simpl. rewrite Hs. split.
      * intros [H'|H']; [discriminate|].
        destruct Hp as [->|[_ Hu]]; [now exists p|congruence].
      * intros (p' & -> & Hf). right.
        destruct Hp as [[= <-]|[Hd _]]; [exact Hf|discriminate].
    + intro Hf. rewrite base_validate_failed; [|discriminate|exact Hf].
      now rewrite He.
Qed.

(** A payload that reports a failure at its top level and has no nested
    [analyses] passes the constructor of [RunnerAnalyses]; the instance has
    no [error], so that [init] then throws the default message.  A payload
    whose [analyses] is [null] does not pass. *)
Example failed_payload_is_constructed :
  RunnerAnalyses.new
    (RunnerAnalyses.Given
       {| RunnerAnalyses.payload_status := RunnerAnalyses.Given "failed";
          RunnerAnalyses.payload_analyses := RunnerAnalyses.Undefined |})
  = Return {| status := Some "failed"; error := None |}
  /\ BaseRunnerAnalysis.validateInputs
       {| status := Some "failed"; error := None |}
       {| selectedRunners := Some [1%Z]; allRunners := Sample.runners |}
     = Throw "Analysis failed"
  /\ throws (RunnerAnalyses.new
               (RunnerAnalyses.Given
                  {| RunnerAnalyses.payload_status :=
                       RunnerAnalyses.Given "success";
                     RunnerAnalyses.payload_analyses :=
                       RunnerAnalyses.Null |})).
Proof. split; [reflexivity|]. split; [reflexivity|]. now eexists. Qed.

(** ** The average pace on doubles *)








(** The average pace of the sample segment is the mean of 14 and 16; the
    mean of the pace 12.3 reported three times is 12.300000000000002. *)
Example average_pace_of_the_sample :
  this (Double.avgPace ChartSample.segment_lists ChartSample.selected
          (ChartSample.crown_to_whiskey (dec 8 10) (dec 14 1)))
  = 15 # 1
  /\ Double.avgPace
       [(1, Some [ChartSample.crown_to_whiskey (dec 8 10) (dec 123 10)]);
        (2, Some [ChartSample.crown_to_whiskey (dec 8 10) (dec 123 10)]);
        (3, Some [ChartSample.crown_to_whiskey (dec 8 10) (dec 123 10)])]%Z
       [1; 2; 3]%Z (ChartSample.crown_to_whiskey (dec 8 10) (dec 123 10))
     = Double.parsed (dec 12300000000000002 1000000000000000).
Proof.
  split; [vm_compute; reflexivity|].
  apply Qc_is_canon. vm_compute. reflexivity.
Qed.

(** ** The rest markers of the pace chart *)







(** ** The order inside a group on doubles *)

Lemma within_reach_snoc (group : list RunnerRest) (r : RunnerRest) :
  within_reach group -> Double.joins r group = true ->
  within_reach (group ++ [r]).
Proof.
  intros W J. destruct group as [|first others]; [discriminate|].
  apply joins_documented in J. intros k x Hx.
  destruct (Nat.lt_ge_cases (S k) (List.length (first :: others)))
    as [Hlt|Hge].
  - rewrite nth_error_app1 in Hx by exact Hlt.
    rewrite firstn_app.
    replace (S k - List.length (first :: others))%nat with 0%nat by lia.
    rewrite firstn_O, app_nil_r. exact (W k x Hx).
  - assert (Hk : S k = List.length (first :: others)).
    { apply Nat.le_antisymm; trivial.
      assert (Hs : (S k < List.length ((first :: others) ++ [r]))%nat)
        by (apply nth_error_Some; congruence).
      rewrite length_app in Hs. simpl in Hs. simpl. lia. }
    rewrite nth_error_app2 in Hx by exact Hge.
    rewrite Hk, Nat.sub_diag in Hx. injection Hx as <-.
    rewrite Hk, firstn_app, firstn_all, Nat.sub_diag, firstn_O, app_nil_r.
    destruct J as [Hst Hd]. split; trivial.
    intros f [= <-]. exact Hst.
Qed.

Lemma group_step_reach (groups : list (list RunnerRest)) (r : RunnerRest)
  (later : list RunnerRest) :
  (forall y, In y later -> (documented_mile r <= documented_mile y)%Qc) ->
  Forall (fun g => StronglySorted (key_le documented_mile) g
                   /\ within_reach g /\ all_before g (r :: later)) groups ->
  Forall (fun g => StronglySorted (key_le documented_mile) g
                   /\ within_reach g /\ all_before g later)
    (Double.group_step groups r).
Proof.
  intros Hr H.
  assert (weaken : forall g,
             StronglySorted (key_le documented_mile) g
             /\ within_reach g /\ all_before g (r :: later) ->
             StronglySorted (key_le documented_mile) g
             /\ within_reach g /\ all_before g later).
  { intros g (Hs & Hw & Ho). split; [exact Hs|]. split; [exact Hw|].
    intros x y Hx Hy. apply Ho; trivial. now right. }
  destruct (group_step_first groups r)
    as [(before & group & after & -> & _ & J & ->)|[_ ->]].
  - apply Forall_app in H. destruct H as [Hb Hga].
    apply Forall_cons_iff in Hga. destruct Hga as [(Hs & Hw & Ho) Ha].
    apply Forall_app. split; [exact (Forall_impl _ weaken Hb)|].
    constructor; [|exact (Forall_impl _ weaken Ha)].
    split; [|split].
    + apply StronglySorted_snoc; trivial.
      intros x Hx. apply Ho; trivial. now left.
    + now apply within_reach_snoc.
    + intros x y Hx Hy. apply in_app_or in Hx. destruct Hx as [Hx|[<-|[]]].
      * apply Ho; trivial. now right.
      * now apply Hr.
  - apply Forall_app. split; [exact (Forall_impl _ weaken H)|].
    constructor; [|constructor].
    split; [repeat constructor|]. split.
    + intros k x Hx. now destruct k.
    + intros x y [<-|[]] Hy. now apply Hr.
Qed.

Lemma fold_group_step_reach (later : list RunnerRest)
  (groups : list (list RunnerRest)) :
  StronglySorted (key_le documented_mile) later ->
  Forall (fun g => StronglySorted (key_le documented_mile) g
                   /\ within_reach g /\ all_before g later) groups ->
  Forall (fun g => StronglySorted (key_le documented_mile) g
                   /\ within_reach g)
    (fold_left Double.group_step later groups).
Proof.
  intro Hs. revert groups.
  induction Hs as [|r later Hs IH Hr]; intros groups H; simpl.
  - eapply Forall_impl; [|exact H]. intros g (Hg & Hw & _). auto.
  - apply IH. apply group_step_reach; trivial.
    rewrite Forall_forall in Hr. exact Hr.
Qed.

(** Property X8.
    Inside every group the rest periods stand in ascending order of
    resolved mile, and every member but the first joined the members before
    it: it carries the aid-station identity of the first member and its
    resolved mile lies within 5.0 of the mean mile of the members before
    it, mean and distance being the binary64 results of the code. *)
Theorem groups_are_chains (rests group : list RunnerRest)
  (member : In group (Double.restGroups rests)) :
  StronglySorted (key_le documented_mile) group
  /\ forall k x,
       nth_error group (S k) = Some x ->
       (forall first, nth_error group 0 = Some first ->
                      documented_station x = documented_station first)
       /\ (Qcabs (Double.rnd (documented_mile x
                              - documented_mean (firstn (S k) group)))
           <= dec 5 1)%Qc.
Proof.
  unfold Double.restGroups in member.
  apply (Permutation_in _ (sort_perm _ Double.by_avg_mile _)) in member.
  assert (H : Forall (fun g => StronglySorted (key_le documented_mile) g
                               /\ within_reach g)
                (Double.grouped (Double.sorted_rests rests))).
  { apply fold_group_step_reach; [|constructor].
    apply sort_sorted, by_mile_documented. }
  rewrite Forall_forall in H. destruct (H group member) as [Hs Hw].
  split; [exact Hs|]. exact Hw.
Qed.

(** X8 on a sample.
    Six rest periods at mile 24.4 and one at mile 29.400000000000002 form
    one group: the mean of the six comes out as 24.400000000000002. *)
Lemma groups_are_chains_sample :
  Double.restGroups (RoundedSample.far :: RoundedSample.near)
  = [RoundedSample.near ++ [RoundedSample.far]]
  /\ StronglySorted (key_le documented_mile)
       (RoundedSample.near ++ [RoundedSample.far])
  /\ documented_mean RoundedSample.near
     = Double.parsed (dec 24400000000000002 1000000000000000).
Proof.
  assert (E : Double.restGroups (RoundedSample.far :: RoundedSample.near)
              = [RoundedSample.near ++ [RoundedSample.far]])
    by (vm_compute; reflexivity).
  split; [exact E|]. split.
  - apply (groups_are_chains (RoundedSample.far :: RoundedSample.near)
             (RoundedSample.near ++ [RoundedSample.far])).
    rewrite E. now left.
  - apply Qc_is_canon. vm_compute. reflexivity.
Defined.
